(** * Encrypted local persistence and authentication of the RAM acquisition tool

    A shallow embedding of [core/secure_store.py], [core/user_store.py],
    [core/storage.py] and [core/auth.py], and the properties of the
    persistence layer and of the Auth Service stated against it.

    Conventions.
    - Python [str] is [string] (one [ascii] per code point, so the model covers
      code points below 256); Python [bytes] is [list byte].
    - A value produced by [json.loads] / accepted by [json.dumps] is a [json].
    - A Python call that may raise returns a [result]; the exception classes
      the code can meet are the constructors of [exn].
    - The file system is a finite map from paths to file contents; the
      operating system's entropy pool is a position in a stream. *)

From Stdlib Require Import String Ascii ZArith List Bool Lia DecimalPos DecimalZ.
From Stdlib Require Import DecimalString.
From stdpp Require Import gmap strings list.
Import ListNotations.

Open Scope string_scope.
Open Scope list_scope.

(* ================================================================== *)
(** * Part I. Definitions *)
(* ================================================================== *)

(** ** Python values and exceptions *)

Definition bytes : Type := list Byte.byte.

Inductive exn : Type :=
| ValueError (msg : string)
| KeyError (key : string)
| TypeError
| AttributeError
| UnicodeDecodeError
| JSONDecodeError
| FileNotFoundError
| Base64Error
| CipherError
| RecursionError.

Inductive result (A : Type) : Type :=
| Ok (a : A)
| Raise (e : exn).

Arguments Ok {A} a.
Arguments Raise {A} e.

Definition bind {A B : Type} (r : result A) (k : A -> result B) : result B :=
  match r with
  | Ok a => k a
  | Raise e => Raise e
  end.

Notation "'do' x <- r ;; k" := (bind r (fun x => k))
  (at level 10, x name, r at level 99, k at level 200,
   format "'do'  x  <-  r  ;;  '//' k").

(** [orelse o e]: the value of a library call that signals failure by
    raising [e]. *)
Definition orelse {A : Type} (o : option A) (e : exn) : result A :=
  match o with
  | Some a => Ok a
  | None => Raise e
  end.

Definition is_ok {A : Type} (r : result A) : bool :=
  match r with Ok _ => true | Raise _ => false end.

(** The values of the [json] module: [None], [bool], [int], [str], [list]
    and [dict] with [str] keys (in insertion order, each key once). A
    [float] is left out: no document of the two stores holds one. *)
#[local] Set Warnings "-register-all".
Inductive json : Type :=
| JNull
| JBool (b : bool)
| JNum (n : Z)
| JStr (s : string)
| JArr (items : list json)
| JObj (fields : list (string * json)).

(** First binding of [k] in the fields of a dict. *)
Fixpoint assoc (k : string) (fields : list (string * json)) : option json :=
  match fields with
  | [] => None
  | (k', v) :: rest => if String.eqb k k' then Some v else assoc k rest
  end.

(** [v[k]] for a [str] key [k]. *)
Definition getitem (v : json) (k : string) : result json :=
  match v with
  | JObj fields => orelse (assoc k fields) (KeyError k)
  | _ => Raise TypeError
  end.

(** [v.get(k, d)]: only a dict has the method. *)
Definition dict_get (v : json) (k : string) (d : json) : result json :=
  match v with
  | JObj fields => Ok (match assoc k fields with Some x => x | None => d end)
  | _ => Raise AttributeError
  end.

(** Python truth value: [bool(v)]. *)
Definition truthy (v : json) : bool :=
  match v with
  | JNull => false
  | JBool b => b
  | JNum n => negb (Z.eqb n 0)
  | JStr s => negb (String.eqb s EmptyString)
  | JArr items => match items with [] => false | _ => true end
  | JObj fields => match fields with [] => false | _ => true end
  end.

Definition chars (s : string) : list ascii := list_ascii_of_string s.

(** [list(v)]: the items of a list, the keys of a dict, the characters of
    a string; the other values are not iterable. *)
Definition py_list (v : json) : result (list json) :=
  match v with
  | JArr items => Ok items
  | JObj fields => Ok (map (fun kv => JStr (fst kv)) fields)
  | JStr s => Ok (map (fun c => JStr (String c EmptyString)) (chars s))
  | _ => Raise TypeError
  end.

(** ** Strings: [str.strip] and [str.lower] *)

(** [str.isspace] on a code point below 256. *)
Definition is_space (c : ascii) : bool :=
  let n := nat_of_ascii c in
  (((9 <=? n) && (n <=? 13)) || ((28 <=? n) && (n <=? 32))
   || (n =? 133) || (n =? 160))%nat.

Fixpoint lstrip (s : string) : string :=
  match s with
  | EmptyString => EmptyString
  | String c rest => if is_space c then lstrip rest else s
  end.

(** Drops the trailing white space: a character is kept when it is not a
    space or when something is kept after it. *)
Fixpoint rstrip (s : string) : string :=
  match s with
  | EmptyString => EmptyString
  | String c rest =>
      match rstrip rest with
      | EmptyString => if is_space c then EmptyString else String c EmptyString
      | kept => String c kept
      end
  end.

Definition strip (s : string) : string := rstrip (lstrip s).

(** [str.lower] on a code point below 256: the upper-case ASCII and Latin-1
    letters move by 32. *)
Definition lower_char (c : ascii) : ascii :=
  let n := nat_of_ascii c in
  if (((65 <=? n) && (n <=? 90))
      || ((192 <=? n) && (n <=? 222) && negb (n =? 215)))%nat
  then ascii_of_nat (n + 32) else c.

Fixpoint lower (s : string) : string :=
  match s with
  | EmptyString => EmptyString
  | String c rest => String (lower_char c) (lower rest)
  end.

(** [v.lower()]: only a [str] has the method. *)
Definition py_lower (v : json) : result string :=
  match v with
  | JStr s => Ok (lower s)
  | _ => Raise AttributeError
  end.

(** A naive [datetime]: its calendar and clock fields. *)
Record datetime : Type := Build_datetime {
  year : Z;
  month : Z;
  day : Z;
  hour : Z;
  minute : Z;
  second : Z;
  microsecond : Z
}.

(** [str.isascii]: every code point is below 128. *)
Definition is_ascii (s : string) : bool :=
  forallb (fun c => (nat_of_ascii c <? 128)%nat) (chars s).

(** [bytes.hex]: two lower-case hexadecimal digits for each byte, as
    [hexdigest] prints a digest. *)
Definition hex_digit (n : N) : ascii :=
  nth (N.to_nat n) (chars "0123456789abcdef") "0"%char.

Fixpoint hexdigest (b : bytes) : string :=
  match b with
  | [] => EmptyString
  | x :: rest =>
      String (hex_digit (Byte.to_N x / 16))
        (String (hex_digit (Byte.to_N x mod 16)) (hexdigest rest))
  end.

(** ** Collaborators

    The libraries the code calls, and the cipher of [core/crypto.py], which
    is not among the sources at hand: they are taken as an interface.
    Randomness is read from a stream: a call that draws random bytes is
    given the position it reads at. *)
Class Collaborators : Type := {
  (** [json.loads]; [None] is [json.JSONDecodeError]. A text on which it
      raises another exception (the [ValueError] of an integer literal
      beyond the limit of the digits, [RecursionError]) is no text of the
      model. *)
  json_loads : string -> option json;
  (** [json.dumps(_, indent=2)] *)
  json_dumps : json -> string;
  (** The nesting of lists and dicts [json.dumps] prints and [json.loads]
      reads back: one level more and the recursion limit of the interpreter
      stops it with [RecursionError] *)
  json_nesting_limit : nat;
  (** [base64.b64encode(_).decode("ascii")] *)
  b64encode : bytes -> string;
  (** [base64.b64decode] of a [str]; [None] is [binascii.Error] *)
  b64decode : string -> option bytes;
  (** [str.encode("utf-8")] *)
  utf8_encode : string -> bytes;
  (** [bytes.decode("utf-8")]; [None] is [UnicodeDecodeError] *)
  utf8_decode : bytes -> option string;
  (** [aes256_encrypt(plaintext, key)], with the position of the entropy it
      draws its IV from; returns [(iv, ciphertext)] *)
  aes256_encrypt : bytes -> bytes -> nat -> bytes * bytes;
  (** [aes256_decrypt(iv, ciphertext, key)]; [None] when it raises *)
  aes256_decrypt : bytes -> bytes -> bytes -> option bytes;
  (** [os.urandom(n)] and [secrets.token_bytes(n)] at a position *)
  urandom : nat -> nat -> bytes;
  (** [uuid4().hex] at a position *)
  uuid4_hex : nat -> string;
  (** [hashlib.sha256(_).digest()] *)
  sha256_digest : bytes -> bytes;
  (** [datetime.isoformat] and [datetime.fromisoformat] ([None] is
      [ValueError]) *)
  isoformat : datetime -> string;
  fromisoformat : string -> option datetime;
  (** [int(_)] of a [str]; [None] is [ValueError] *)
  int_of_str : string -> option Z
}.

(** ** Laws of the collaborators

    What the properties below assume of the libraries: each decoder inverts
    its encoder, the JSON parser rejects a text of white space, decryption
    under the key of the encryption gives the plaintext back, and the
    entropy source returns as many bytes as it is asked for. *)

Section Laws.
Context `{Collaborators}.

Definition json_roundtrip : Prop :=
  forall v : json, json_loads (json_dumps v) = Some v.

Definition json_rejects_blank : Prop :=
  forall s : string, strip s = EmptyString -> json_loads s = None.

Definition base64_roundtrip : Prop :=
  forall b : bytes, b64decode (b64encode b) = Some b.

Definition utf8_roundtrip : Prop :=
  forall s : string, utf8_decode (utf8_encode s) = Some s.

Definition cipher_roundtrip : Prop :=
  forall (plaintext key : bytes) (position : nat),
    length key = 32%nat ->
    aes256_decrypt (fst (aes256_encrypt plaintext key position))
                   (snd (aes256_encrypt plaintext key position)) key
    = Some plaintext.

Definition urandom_length : Prop :=
  forall position n : nat, length (urandom position n) = n.

End Laws.

(** [hashlib.sha256(_).hexdigest()]: the digest in hexadecimal. *)
Definition sha256_hexdigest `{Collaborators} (b : bytes) : string :=
  hexdigest (sha256_digest b).

(** ** The world outside the process *)

Record world : Type := World {
  files : gmap string bytes;
  entropy : nat
}.

Definition exists_file (p : string) (w : world) : bool :=
  match files w !! p with Some _ => true | None => false end.

Definition write_bytes (p : string) (content : bytes) (w : world) : world :=
  {| files := <[p := content]> (files w); entropy := entropy w |}.

(** Consumes one draw of the entropy stream. *)
Definition draw (w : world) : world :=
  {| files := files w; entropy := S (entropy w) |}.

Definition read_bytes (p : string) (w : world) : result bytes :=
  orelse (files w !! p) FileNotFoundError.

(** [base64.b64decode(v)]: a [str] is decoded, no other value of the
    [json] module is bytes-like. *)
Definition py_b64decode `{Collaborators} (v : json) : result bytes :=
  match v with
  | JStr s => orelse (b64decode s) Base64Error
  | _ => Raise TypeError
  end.

(** ** What [json.dumps] makes of a value

    [write] takes any value. [json.dumps(value, indent=2, default=str)]
    prints a JSON tree of it: a tuple as a list, a dict with its keys turned
    into [str], an object of another class as the text [str] gives of it.
    The values are those it tells apart; [float] values are left out. *)

Inductive pyvalue : Type :=
| PNone
| PBool (b : bool)
| PInt (n : Z)
| PStr (s : string)
| PList (items : list pyvalue)
| PTuple (items : list pyvalue)
| PDict (items : list (pyvalue * pyvalue))
    (* the items in insertion order *)
| PObject (text : string)
    (* an object of another class, with the text [str] gives of it *).


(** The text of an [int] is refused beyond [sys.get_int_max_str_digits()]
    digits, 4300 unless the limit is changed. *)
Definition int_max_str_digits : nat := 4300.

Definition int_digits (n : Z) : nat :=
  match Z.to_int n with
  | Decimal.Pos u | Decimal.Neg u => Decimal.nb_digits u
  end.

Definition printable_int (n : Z) : bool :=
  (int_digits n <=? int_max_str_digits)%nat.

Definition int_text_error : exn :=
  ValueError ("Exceeds the limit (4300 digits) for integer string conversion"
              +:+ "; use sys.set_int_max_str_digits() to increase the limit").

Definition int_text (n : Z) : result string :=
  if printable_int n then Ok (NilZero.string_of_int (Z.to_int n))
  else Raise int_text_error.

(** The key of a JSON object for a key of a dict: a [str] as it is, [True],
    [False] and [None] as [true], [false] and [null], an [int] as its
    decimal text; a key of another type is a [TypeError]. *)
Definition encode_key (k : pyvalue) : result string :=
  match k with
  | PStr s => Ok s
  | PBool true => Ok "true"
  | PBool false => Ok "false"
  | PNone => Ok "null"
  | PInt n => int_text n
  | _ => Raise TypeError
  end.

(** The JSON tree [json.dumps(_, default=str)] prints, or the exception it
    raises at the first item it does not take; [depth] is the nesting it
    can still enter. *)
Fixpoint encode_at (depth : nat) (v : pyvalue) {struct v}
  : result json :=
  match v with
  | PNone => Ok JNull
  | PBool b => Ok (JBool b)
  | PInt n => do _ <- int_text n ;; Ok (JNum n)
  | PStr s => Ok (JStr s)
  | PList items | PTuple items =>
      match depth with
      | O => Raise RecursionError
      | S deeper =>
          do encoded <-
            (fix each (l : list pyvalue) : result (list json) :=
               match l with
               | [] => Ok []
               | x :: rest =>
                   do y <- encode_at deeper x ;;
                   do ys <- each rest ;;
                   Ok (y :: ys)
               end) items ;;
          Ok (JArr encoded)
      end
  | PDict items =>
      match depth with
      | O => Raise RecursionError
      | S deeper =>
          do fields <-
            (fix each (l : list (pyvalue * pyvalue))
               : result (list (string * json)) :=
               match l with
               | [] => Ok []
               | (k, x) :: rest =>
                   do key <- encode_key k ;;
                   do y <- encode_at deeper x ;;
                   do ys <- each rest ;;
                   Ok ((key, y) :: ys)
               end) items ;;
          Ok (JObj fields)
      end
  | PObject text => Ok (JStr text)
  end.

Definition encode_value `{Collaborators} (v : pyvalue) : result json :=
  encode_at json_nesting_limit v.

(** *** The documents among the JSON trees *)






(** ** [core/secure_store.py] *)

Module SecretKeyManager.
Section Methods.
Context `{Collaborators}.

Record t : Type := Build { _key_path : string }.

(** [__init__]: the key of the store [key_name] lives in
    [base_dir / f"{key_name}.key"]. *)
Definition init (key_name base_dir : string) : t :=
  {| _key_path := base_dir +:+ "/" +:+ key_name +:+ ".key" |}.

Definition load_key (self : t) (w : world) : result bytes * world :=
  let w1 :=
    if negb (exists_file (_key_path self) w)
    then draw (write_bytes (_key_path self) (urandom (entropy w) 32) w)
    else w in
  match read_bytes (_key_path self) w1 with
  | Raise e => (Raise e, w1)
  | Ok key =>
      if negb (length key =? 32)%nat
      then (Raise (ValueError ("Key at " +:+ _key_path self
                               +:+ " must be exactly 32 bytes.")), w1)
      else (Ok key, w1)
  end.

End Methods.
End SecretKeyManager.

Module EncryptedJsonStore.
Section Methods.
Context `{Collaborators}.

Record t : Type := Build { _file_path : string; _key : bytes }.

Definition init (file_path : string) (key : bytes) : t :=
  {| _file_path := file_path; _key := key |}.

(** The envelope [write] builds from an IV and a ciphertext. *)
Definition envelope_of (iv ciphertext : bytes) : json :=
  JObj [("iv", JStr (b64encode iv));
        ("ciphertext", JStr (b64encode ciphertext))].

(** [write] from the JSON tree [json.dumps] prints of its value. A value
    that is such a tree, as [json.loads] returns them, is printed as it is;
    [write_value] below takes any value. *)
Definition write (self : t) (value : json) (w : world) : world :=
  let payload := json_dumps value in
  let '(iv, ciphertext) :=
    aes256_encrypt (utf8_encode payload) (_key self) (entropy w) in
  let envelope := envelope_of iv ciphertext in
  draw (write_bytes (_file_path self) (utf8_encode (json_dumps envelope)) w).

(** [write(value)] for any value: [json.dumps] raises before anything is
    stored, or prints the tree [write] above seals. *)
Definition write_value (self : t) (value : pyvalue) (w : world)
  : result unit * world :=
  match encode_value value with
  | Raise e => (Raise e, w)
  | Ok document => (Ok tt, write self document w)
  end.

(** The IV and the ciphertext [write] produces for a document at a position
    of the entropy stream, and the text it stores. *)
Definition sealed (self : t) (value : json) (position : nat) : bytes * bytes :=
  aes256_encrypt (utf8_encode (json_dumps value)) (_key self) position.

Definition stored_text (self : t) (value : json) (position : nat) : string :=
  json_dumps (envelope_of (fst (sealed self value position))
                          (snd (sealed self value position))).

(** The body of the [try] block of [read]: the file's text as an envelope,
    decoded, decrypted and parsed. *)
Definition read_envelope (self : t) (raw : string) : result json :=
  do envelope <- orelse (json_loads raw) JSONDecodeError ;;
  do iv_b64 <- getitem envelope "iv" ;;
  do ciphertext_b64 <- getitem envelope "ciphertext" ;;
  do iv <- py_b64decode iv_b64 ;;
  do ciphertext <- py_b64decode ciphertext_b64 ;;
  do decrypted <- orelse (aes256_decrypt iv ciphertext (_key self)) CipherError ;;
  do plaintext <- orelse (utf8_decode decrypted) UnicodeDecodeError ;;
  orelse (json_loads plaintext) JSONDecodeError.

(** [read]: [read_text] stands before the [try]; the fallback catches
    [json.JSONDecodeError], the [None] of [json_loads], and [write] stands
    after it. *)
Definition read (self : t) (default : json) (w : world)
  : result json * world :=
  match files w !! _file_path self with
  | None => (Ok default, w)
  | Some content =>
      match utf8_decode content with
      | None => (Raise UnicodeDecodeError, w)
      | Some raw =>
          if String.eqb (strip raw) EmptyString then (Ok default, w)
          else
            match read_envelope self raw with
            | Ok value => (Ok value, w)
            | Raise _ =>
                match json_loads raw with
                | None => (Ok default, w)
                | Some legacy => (Ok legacy, write self legacy w)
                end
            end
      end
  end.

End Methods.
End EncryptedJsonStore.

(** ** [core/user_store.py] *)

Module EncryptedUserStore.
Section Methods.
Context `{Collaborators}.

(** The lock of the store is held from the start to the end of each method;
    a single caller never finds it taken. *)
Record t : Type := Build {
  _store_path : string;
  _secure_store : EncryptedJsonStore.t
}.

Definition empty_document : json := JObj [("users", JArr [])].

(** [__init__], with the home directory and the optional [store_path]. *)
Definition init (home : string) (store_path : option string) (w : world)
  : result t * world :=
  let default_dir := home +:+ "/.ram_acq" in
  let encrypted_path :=
    match store_path with
    | Some p => p
    | None => default_dir +:+ "/users.json.enc"
    end in
  let key_manager := SecretKeyManager.init "users" (default_dir +:+ "/keys") in
  match SecretKeyManager.load_key key_manager w with
  | (Raise e, w1) => (Raise e, w1)
  | (Ok key, w1) =>
      let secure_store := EncryptedJsonStore.init encrypted_path key in
      let self := {| _store_path := encrypted_path;
                     _secure_store := secure_store |} in
      if negb (exists_file encrypted_path w1)
      then (Ok self, EncryptedJsonStore.write secure_store empty_document w1)
      else (Ok self, w1)
  end.

Definition list_users (self : t) (w : world) : result (list json) * world :=
  match EncryptedJsonStore.read (_secure_store self) empty_document w with
  | (Raise e, w1) => (Raise e, w1)
  | (Ok data, w1) =>
      (do users <- dict_get data "users" (JArr []) ;; py_list users, w1)
  end.

Definition save_users (self : t) (users : list json) (w : world) : world :=
  let payload := JObj [("users", JArr users)] in
  EncryptedJsonStore.write (_secure_store self) payload w.

End Methods.
End EncryptedUserStore.

(** ** Python dicts

    A [dict] keeps its keys in insertion order; a key is any hashable value.
    The keys of the Auth Service's mapping are the [username] values of the
    persisted records, so they are values of the [json] module. *)

Definition hashable (k : json) : bool :=
  match k with
  | JArr _ | JObj _ => false
  | _ => true
  end.

(** The integer a key counts as: [True == 1] and [False == 0]. *)
Definition key_int (k : json) : option Z :=
  match k with
  | JNum n => Some n
  | JBool b => Some (if b then 1 else 0)%Z
  | _ => None
  end.

(** [a == b] on hashable values. *)
Definition key_eqb (a b : json) : bool :=
  match a, b with
  | JStr x, JStr y => String.eqb x y
  | JNull, JNull => true
  | _, _ =>
      match key_int a, key_int b with
      | Some x, Some y => Z.eqb x y
      | _, _ => false
      end
  end.

Definition pydict : Type := list (json * json).

(** [d.get(k)] *)
Fixpoint dict_lookup (k : json) (d : pydict) : option json :=
  match d with
  | [] => None
  | (k', v) :: rest => if key_eqb k k' then Some v else dict_lookup k rest
  end.

(** [d[k] = v]: an existing key keeps its place, a new one goes last. *)
Fixpoint dict_set (k v : json) (d : pydict) : pydict :=
  match d with
  | [] => [(k, v)]
  | (k', v') :: rest =>
      if key_eqb k k' then (k', v) :: rest else (k', v') :: dict_set k v rest
  end.

(** [del d[k]] for a key that is present. *)
Fixpoint dict_del (k : json) (d : pydict) : pydict :=
  match d with
  | [] => []
  | (k', v') :: rest =>
      if key_eqb k k' then rest else (k', v') :: dict_del k rest
  end.

(** [d.values()] *)
Definition dict_values (d : pydict) : list json := map snd d.

(** ** [core/models.py] *)

(** The dataclass does not check the types of its fields: they hold the
    values they are given. *)
Record User : Type := Build_User {
  user_id : json;
  name : json;
  role : json
}.

Record MemoryImage : Type := Build_MemoryImage {
  image_id : json;
  sha256 : json;
  recovered_by : json;
  captured_at : datetime;
  case_id : json;
  path : json;
  size_bytes : json
}.

(** ** [core/auth.py] *)

(** [hmac.compare_digest(a, b)] for a [str] [b]: two [str] are compared
    when both hold ASCII characters only; a [str] with another character is
    a [TypeError], and so is an [a] that is no [str], [b] being one. *)
Definition compare_digest (a : json) (b : string) : result bool :=
  match a with
  | JStr s =>
      if is_ascii s && is_ascii b then Ok (String.eqb s b)
      else Raise TypeError
  | _ => Raise TypeError
  end.

Module AuthService.
Section Methods.
Context `{Collaborators}.

Record t : Type := Build {
  _user_store : EncryptedUserStore.t;
  _records : pydict
}.

Definition with_records (self : t) (records : pydict) : t :=
  {| _user_store := _user_store self; _records := records |}.

Definition _hash_password (password : string) (salt : bytes) : string :=
  sha256_hexdigest (salt ++ utf8_encode password).

Definition _persist (self : t) (w : world) : world :=
  EncryptedUserStore.save_users (_user_store self)
    (dict_values (_records self)) w.

Definition authenticate (self : t) (username password : string)
  : result (option User) :=
  match dict_lookup (JStr username) (_records self) with
  | None => Ok None
  | Some record =>
      do salt_b64 <- getitem record "salt" ;;
      do salt <- py_b64decode salt_b64 ;;
      do expected_hash <- getitem record "password_hash" ;;
      let computed_hash := _hash_password password salt in
      do same <- compare_digest expected_hash computed_hash ;;
      if negb same then Ok None
      else
        do uid <- getitem record "user_id" ;;
        do nm <- getitem record "name" ;;
        do rl <- getitem record "role" ;;
        Ok (Some {| user_id := uid; name := nm; role := rl |})
  end.

(** [[record.copy() for record in self._records.values()]] *)
Definition list_users (self : t) : list json :=
  dict_values (_records self).

(** The password when its truth value is true: neither [None] nor the empty string. *)
Definition supplied (password : option string) : option string :=
  match password with
  | Some p => if String.eqb p EmptyString then None else Some p
  | None => None
  end.

(** The [else] branch of [if password:]: salt and hash of the stored record.
    Without a record, [record["salt"]] subscripts [None]. *)
Definition carried_credentials (record : option json) : result (bytes * json) :=
  match record with
  | None => Raise TypeError
  | Some r =>
      do salt_b64 <- getitem r "salt" ;;
      do salt <- py_b64decode salt_b64 ;;
      do password_hash <- getitem r "password_hash" ;;
      Ok (salt, password_hash)
  end.

(** [name or username] *)
Definition name_or (name username : string) : string :=
  if String.eqb name EmptyString then username else name.

Definition new_record (username name role : string) (uid : json)
    (salt : bytes) (password_hash : json) (full_access : bool) : json :=
  JObj [("username", JStr username);
        ("name", JStr (name_or name username));
        ("role", JStr role);
        ("user_id", uid);
        ("salt", JStr (b64encode salt));
        ("password_hash", password_hash);
        ("full_access", JBool full_access)].

Definition upsert_user (self : t) (username name role : string)
    (password : option string) (full_access : bool) (w : world)
  : result unit * (t * world) :=
  let username := strip username in
  if String.eqb username EmptyString
  then (Raise (ValueError "Username is required."), (self, w))
  else
    let record := dict_lookup (JStr username) (_records self) in
    match record, supplied password with
    | None, None =>
        (Raise (ValueError "Password is required for new users."), (self, w))
    | _, _ =>
        let '(credentials, w1) :=
          match supplied password with
          | Some p =>
              let salt := urandom (entropy w) 16 in
              (Ok (salt, JStr (_hash_password p salt)), draw w)
          | None => (carried_credentials record, w)
          end in
        match credentials with
        | Raise e => (Raise e, (self, w1))
        | Ok (salt, password_hash) =>
            let '(uid, w2) :=
              match record with
              | Some r =>
                  if truthy r then (getitem r "user_id", w1)
                  else (Ok (JStr ("u_" +:+ uuid4_hex (entropy w1))), draw w1)
              | None => (Ok (JStr ("u_" +:+ uuid4_hex (entropy w1))), draw w1)
              end in
            match uid with
            | Raise e => (Raise e, (self, w2))
            | Ok uid =>
                let entry := new_record username name role uid salt
                               password_hash full_access in
                let self' :=
                  with_records self
                    (dict_set (JStr username) entry (_records self)) in
                (Ok tt, (self', _persist self' w2))
            end
        end
    end.

(** [entry["role"].lower() == "admin"] *)
Definition is_admin (entry : json) : result bool :=
  do rl <- getitem entry "role" ;;
  do low <- py_lower rl ;;
  Ok (String.eqb low "admin").

(** [sum(1 for entry in values if entry["role"].lower() == "admin")] *)
Fixpoint admin_count (values : list json) : result nat :=
  match values with
  | [] => Ok 0
  | entry :: rest =>
      do a <- is_admin entry ;;
      do n <- admin_count rest ;;
      Ok (if a then S n else n)
  end.

Definition delete_user (self : t) (username : string) (w : world)
  : result unit * (t * world) :=
  match dict_lookup (JStr username) (_records self) with
  | None =>
      (Raise (ValueError ("User '" +:+ username +:+ "' does not exist.")),
       (self, w))
  | Some record =>
      let guard :=
        do a <- is_admin record ;;
        if a then
          do n <- admin_count (dict_values (_records self)) ;;
          if (n <=? 1)%nat
          then Raise (ValueError "At least one admin account must remain.")
          else Ok tt
        else Ok tt in
      match guard with
      | Raise e => (Raise e, (self, w))
      | Ok _ =>
          let self' :=
            with_records self (dict_del (JStr username) (_records self)) in
          (Ok tt, (self', _persist self' w))
      end
  end.

(** The loop of [_load_users] over the persisted entries. *)
Fixpoint load_entries (entries : list json) (users : pydict) : result pydict :=
  match entries with
  | [] => Ok users
  | entry :: rest =>
      do username <- dict_get entry "username" JNull ;;
      if negb (truthy username) then load_entries rest users
      else if negb (hashable username) then Raise TypeError
      else load_entries rest (dict_set username entry users)
  end.

Definition _load_users (self : t) (w : world) : result pydict * world :=
  match EncryptedUserStore.list_users (_user_store self) w with
  | (Raise e, w1) => (Raise e, w1)
  | (Ok entries, w1) => (load_entries entries [], w1)
  end.

Definition _create_user_record (username name role password : string)
    (uid : string) (full_access : bool) (w : world) : json * world :=
  let salt := urandom (entropy w) 16 in
  (JObj [("username", JStr username);
         ("name", JStr name);
         ("role", JStr role);
         ("user_id", JStr uid);
         ("salt", JStr (b64encode salt));
         ("password_hash", JStr (_hash_password password salt));
         ("full_access", JBool full_access)],
   draw w).

(** [{entry["username"]: entry for entry in defaults}] *)
Fixpoint by_username (entries : list json) (users : pydict) : result pydict :=
  match entries with
  | [] => Ok users
  | entry :: rest =>
      do username <- getitem entry "username" ;;
      by_username rest (dict_set username entry users)
  end.

Definition _seed_defaults (self : t) (w : world)
  : result unit * (t * world) :=
  let '(admin, w1) :=
    _create_user_record "admin" "Administrator" "Admin" "admin123"
      "u_admin" true w in
  let '(investigator, w2) :=
    _create_user_record "investigator" "Investigator" "Investigator"
      "invest123" "u_inv" false w1 in
  let defaults := [admin; investigator] in
  let w3 := EncryptedUserStore.save_users (_user_store self) defaults w2 in
  match by_username defaults [] with
  | Raise e => (Raise e, (self, w3))
  | Ok records => (Ok tt, (with_records self records, w3))
  end.

(** [__init__] with the user store it is given. *)
Definition init (user_store : EncryptedUserStore.t) (w : world)
  : result t * world :=
  let self0 := {| _user_store := user_store; _records := [] |} in
  match _load_users self0 w with
  | (Raise e, w1) => (Raise e, w1)
  | (Ok records, w1) =>
      let self1 := with_records self0 records in
      match records with
      | _ :: _ => (Ok self1, w1)
      | [] =>
          match _seed_defaults self1 w1 with
          | (Raise e, (_, w2)) => (Raise e, w2)
          | (Ok _, (self2, w2)) =>
              match _load_users self2 w2 with
              | (Raise e, w3) => (Raise e, w3)
              | (Ok reloaded, w3) => (Ok (with_records self2 reloaded), w3)
              end
          end
      end
  end.

(** *** Notions of the properties *)

(** A persisted entry whose [username] field is missing or empty. *)
Definition unnamed (entry : json) : Prop :=
  exists fields,
    entry = JObj fields
    /\ (assoc "username" fields = None
        \/ assoc "username" fields = Some (JStr EmptyString)).

(** An entry [_load_users] keeps: its [username] has a true truth value. *)
Definition named (entry : json) : Prop :=
  exists k, dict_get entry "username" JNull = Ok k /\ truthy k = true.

(** A persisted entry [_load_users] takes without an error: a dict whose
    [username], when its truth value is true, is hashable (a [str], say). *)
Definition entry_ok (entry : json) : Prop :=
  exists fields,
    entry = JObj fields
    /\ (forall k, assoc "username" fields = Some k ->
                  truthy k = true -> hashable k = true).

End Methods.
End AuthService.

(** ** [core/storage.py] *)

(** [int(v)] *)
Definition py_int `{Collaborators} (v : json) : result Z :=
  match v with
  | JNum n => Ok n
  | JBool b => Ok (if b then 1 else 0)%Z
  | JStr s => orelse (int_of_str s) (ValueError "invalid literal for int()")
  | _ => Raise TypeError
  end.

(** [datetime.fromisoformat(v)] *)
Definition py_fromisoformat `{Collaborators} (v : json) : result datetime :=
  match v with
  | JStr s => orelse (fromisoformat s) (ValueError "Invalid isoformat string")
  | _ => Raise TypeError
  end.

Module EvidenceStore.
Section Methods.
Context `{Collaborators}.

(** The lock is part of the shared state of the interleaving model below;
    the methods here are what one caller running alone does. *)
Record t : Type := Build {
  _db_path : string;
  _secure_store : EncryptedJsonStore.t
}.

Definition init (home : string) (db_path : option string) (w : world)
  : result t * world :=
  let default_dir := home +:+ "/.ram_acq" in
  let encrypted_path :=
    match db_path with
    | Some p => p
    | None => default_dir +:+ "/evidence.json.enc"
    end in
  let key_manager :=
    SecretKeyManager.init "evidence" (default_dir +:+ "/keys") in
  match SecretKeyManager.load_key key_manager w with
  | (Raise e, w1) => (Raise e, w1)
  | (Ok key, w1) =>
      let secure_store := EncryptedJsonStore.init encrypted_path key in
      let self := {| _db_path := encrypted_path;
                     _secure_store := secure_store |} in
      if negb (exists_file encrypted_path w1)
      then (Ok self, EncryptedJsonStore.write secure_store (JArr []) w1)
      else (Ok self, w1)
  end.

Definition _read (self : t) (w : world) : result (list json) * world :=
  match EncryptedJsonStore.read (_secure_store self) (JArr []) w with
  | (Raise e, w1) => (Raise e, w1)
  | (Ok value, w1) => (py_list value, w1)
  end.

Definition _write (self : t) (data : list json) (w : world) : world :=
  EncryptedJsonStore.write (_secure_store self) (JArr data) w.

Definition _to_model (payload : json) : result MemoryImage :=
  do v_image_id <- getitem payload "image_id" ;;
  do v_sha256 <- getitem payload "sha256" ;;
  do v_recovered_by <- getitem payload "recovered_by" ;;
  do v_captured_at <- getitem payload "captured_at" ;;
  do v_datetime <- py_fromisoformat v_captured_at ;;
  do v_case_id <- getitem payload "case_id" ;;
  do v_path <- getitem payload "path" ;;
  do v_size <- dict_get payload "size_bytes" (JNum 0) ;;
  do v_int <- py_int v_size ;;
  Ok {| image_id := v_image_id; sha256 := v_sha256;
        recovered_by := v_recovered_by; captured_at := v_datetime;
        case_id := v_case_id; path := v_path; size_bytes := JNum v_int |}.

(** [[self._to_model(entry) for entry in data]] *)
Fixpoint to_models (data : list json) : result (list MemoryImage) :=
  match data with
  | [] => Ok []
  | entry :: rest =>
      do m <- _to_model entry ;;
      do ms <- to_models rest ;;
      Ok (m :: ms)
  end.

(** The dict [add_image] appends for an image. *)
Definition payload_of (image : MemoryImage) : json :=
  JObj [("image_id", image_id image);
        ("sha256", sha256 image);
        ("recovered_by", recovered_by image);
        ("captured_at", JStr (isoformat (captured_at image)));
        ("case_id", case_id image);
        ("path", path image);
        ("size_bytes", size_bytes image)].

Definition list_images (self : t) (w : world)
  : result (list MemoryImage) * world :=
  match _read self w with
  | (Raise e, w1) => (Raise e, w1)
  | (Ok data, w1) => (to_models data, w1)
  end.

Definition add_image (self : t) (image : MemoryImage) (w : world)
  : result unit * world :=
  let payload := payload_of image in
  match _read self w with
  | (Raise e, w1) => (Raise e, w1)
  | (Ok data, w1) => (Ok tt, _write self (data ++ [payload]) w1)
  end.

Definition clear (self : t) (w : world) : world := _write self [] w.

(** *** Callers running at the same time

    The threads of one process share the world and the store's lock. A
    thread is at a program point of the method it runs; one step is one
    access to the shared state: taking the lock, reading the file, writing
    it, releasing the lock. [with self._lock] releases the lock when its
    body raises. *)

Inductive thread : Type :=
| AddStart (payload : json)
    (* [add_image]: before [with self._lock] *)
| AddLocked (payload : json)
    (* inside the lock, before [data = self._read()] *)
| AddRead (payload : json) (data : list json)
    (* before [data.append(payload); self._write(data)] *)
| AddWritten
    (* before the lock is released *)
| ListStart
    (* [list_images]: before [data = self._read()] *)
| ListRead (data : list json)
    (* before the list of models is built *)
| ClearStart
| ClearLocked
| ClearWritten
| Returned (images : option (list MemoryImage))
| Raised (e : exn).

Record config : Type := Config {
  shared : world;
  lock : option nat;
  threads : list thread
}.

Definition finished (th : thread) : bool :=
  match th with
  | Returned _ | Raised _ => true
  | _ => false
  end.

Definition set_thread (i : nat) (th : thread) (c : config) : list thread :=
  <[i := th]> (threads c).

(** One step of thread [i]; [None] when the thread has finished, does not
    exist, or waits for the lock. *)
Definition step (self : t) (i : nat) (c : config) : option config :=
  match threads c !! i with
  | None => None
  | Some th =>
      match th with
      | AddStart payload =>
          match lock c with
          | Some _ => None
          | None =>
              Some {| shared := shared c; lock := Some i;
                      threads := set_thread i (AddLocked payload) c |}
          end
      | AddLocked payload =>
          match _read self (shared c) with
          | (Raise e, w1) =>
              Some {| shared := w1; lock := None;
                      threads := set_thread i (Raised e) c |}
          | (Ok data, w1) =>
              Some {| shared := w1; lock := lock c;
                      threads := set_thread i (AddRead payload data) c |}
          end
      | AddRead payload data =>
          Some {| shared := _write self (data ++ [payload]) (shared c);
                  lock := lock c;
                  threads := set_thread i AddWritten c |}
      | AddWritten =>
          Some {| shared := shared c; lock := None;
                  threads := set_thread i (Returned None) c |}
      | ListStart =>
          match _read self (shared c) with
          | (Raise e, w1) =>
              Some {| shared := w1; lock := lock c;
                      threads := set_thread i (Raised e) c |}
          | (Ok data, w1) =>
              Some {| shared := w1; lock := lock c;
                      threads := set_thread i (ListRead data) c |}
          end
      | ListRead data =>
          Some {| shared := shared c; lock := lock c;
                  threads :=
                    set_thread i
                      (match to_models data with
                       | Ok images => Returned (Some images)
                       | Raise e => Raised e
                       end) c |}
      | ClearStart =>
          match lock c with
          | Some _ => None
          | None =>
              Some {| shared := shared c; lock := Some i;
                      threads := set_thread i ClearLocked c |}
          end
      | ClearLocked =>
          Some {| shared := _write self [] (shared c); lock := lock c;
                  threads := set_thread i ClearWritten c |}
      | ClearWritten =>
          Some {| shared := shared c; lock := None;
                  threads := set_thread i (Returned None) c |}
      | Returned _ | Raised _ => None
      end
  end.

(** Runs a schedule: the list of the threads the scheduler picks, in order.
    A thread that waits for the lock, or has finished, stays where it is. *)
Fixpoint run (self : t) (schedule : list nat) (c : config) : config :=
  match schedule with
  | [] => c
  | i :: rest =>
      match step self i c with
      | None => run self rest c
      | Some c' => run self rest c'
      end
  end.

(** *** Notions of the properties *)

(** The file of the store holds the list [data], as [_write] stores it. *)
Definition holds (self : t) (w : world) (data : list json) : Prop :=
  exists position,
    files w !! EncryptedJsonStore._file_path (_secure_store self)
    = Some (utf8_encode
              (EncryptedJsonStore.stored_text (_secure_store self)
                 (JArr data) position)).

(** The payloads of the callers that have written, in the order they did. *)
Definition appended (payloads : list json) (done : list nat) : list json :=
  map (fun i => nth i payloads JNull) done.

(** Where caller [i] of [add_image] can be, given the callers that have
    written, the holder of the lock and the list the file holds. *)
Definition thread_ok (payloads : list json) (done : list nat)
    (holder : option nat) (data : list json) (i : nat) (th : thread) : Prop :=
  match th with
  | AddStart p => payloads !! i = Some p /\ (i ∉ done) /\ holder <> Some i
  | AddLocked p => payloads !! i = Some p /\ (i ∉ done) /\ holder = Some i
  | AddRead p d =>
      payloads !! i = Some p /\ (i ∉ done) /\ holder = Some i /\ d = data
  | AddWritten => (i ∈ done) /\ holder = Some i
  | Returned None => (i ∈ done) /\ holder <> Some i
  | _ => False
  end.

(** What every configuration of callers of [add_image] satisfies. *)
Definition invariant (self : t) (initial payloads : list json)
    (done : list nat) (c : config) : Prop :=
  holds self (shared c) (initial ++ appended payloads done)
  /\ NoDup done
  /\ length (threads c) = length payloads
  /\ (forall i th, threads c !! i = Some th ->
        thread_ok payloads done (lock c)
          (initial ++ appended payloads done) i th)
  /\ (forall i, lock c = Some i ->
        exists th, threads c !! i = Some th /\ finished th = false)
  /\ (forall i, i ∈ done -> (i < length payloads)%nat).

End Methods.
End EvidenceStore.

(** ** Reference collaborators

    A small executable implementation of the interface: JSON text in its
    compact form (integers, strings, lists and dicts), base64 with padding,
    UTF-8 on the code points of the model, a stream cipher keyed by the key
    and the IV, a generator of bytes and a digest. It runs the model on
    concrete files and shows that the laws assumed of the collaborators
    hold together. It stands for no particular library. *)

Module Reference.

Definition dquote : ascii := ascii_of_nat 34.
Definition backslash : ascii := ascii_of_nat 92.

(** *** JSON text *)

Fixpoint escape (s : string) : string :=
  match s with
  | EmptyString => EmptyString
  | String c rest =>
      if Ascii.eqb c dquote || Ascii.eqb c backslash
      then String backslash (String c (escape rest))
      else String c (escape rest)
  end.

Definition quote (s : string) : string :=
  String dquote (escape s +:+ String dquote EmptyString).

Definition digit_char (d : nat) : ascii := ascii_of_nat (48 + d).

Fixpoint digits (u : Decimal.uint) : string :=
  match u with
  | Decimal.Nil => EmptyString
  | Decimal.D0 u => String (digit_char 0) (digits u)
  | Decimal.D1 u => String (digit_char 1) (digits u)
  | Decimal.D2 u => String (digit_char 2) (digits u)
  | Decimal.D3 u => String (digit_char 3) (digits u)
  | Decimal.D4 u => String (digit_char 4) (digits u)
  | Decimal.D5 u => String (digit_char 5) (digits u)
  | Decimal.D6 u => String (digit_char 6) (digits u)
  | Decimal.D7 u => String (digit_char 7) (digits u)
  | Decimal.D8 u => String (digit_char 8) (digits u)
  | Decimal.D9 u => String (digit_char 9) (digits u)
  end.

Definition number (n : Z) : string :=
  match Z.to_int n with
  | Decimal.Pos u => digits u
  | Decimal.Neg u => String "-" (digits u)
  end.

Fixpoint dumps (v : json) : string :=
  match v with
  | JNull => "null"
  | JBool true => "true"
  | JBool false => "false"
  | JNum n => number n
  | JStr s => quote s
  | JArr items =>
      String "["
        match items with
        | [] => "]"
        | x :: rest =>
            dumps x +:+
            (fix more (l : list json) : string :=
               match l with
               | [] => "]"
               | y :: l' => String "," (dumps y +:+ more l')
               end) rest
        end
  | JObj fields =>
      String "{"
        match fields with
        | [] => "}"
        | (k, x) :: rest =>
            quote k +:+ String ":" (dumps x) +:+
            (fix more (l : list (string * json)) : string :=
               match l with
               | [] => "}"
               | (k', y) :: l' =>
                   String "," (quote k' +:+ String ":" (dumps y) +:+ more l')
               end) rest
        end
  end.

(** The text up to the closing quote, with its escapes resolved, and what
    follows the quote. *)
Fixpoint unquote (s : string) : option (string * string) :=
  match s with
  | EmptyString => None
  | String c rest =>
      if Ascii.eqb c dquote then Some (EmptyString, rest)
      else if Ascii.eqb c backslash then
        match rest with
        | EmptyString => None
        | String e rest' =>
            if Ascii.eqb e dquote || Ascii.eqb e backslash then
              match unquote rest' with
              | Some (body, after) => Some (String e body, after)
              | None => None
              end
            else None
        end
      else
        match unquote rest with
        | Some (body, after) => Some (String c body, after)
        | None => None
        end
  end.

Definition digit_of (c : ascii) : option nat :=
  let n := nat_of_ascii c in
  if ((48 <=? n) && (n <=? 57))%nat then Some (n - 48) else None.

Definition push_digit (d : nat) (u : Decimal.uint) : Decimal.uint :=
  match d with
  | 0 => Decimal.D0 u | 1 => Decimal.D1 u | 2 => Decimal.D2 u
  | 3 => Decimal.D3 u | 4 => Decimal.D4 u | 5 => Decimal.D5 u
  | 6 => Decimal.D6 u | 7 => Decimal.D7 u | 8 => Decimal.D8 u
  | _ => Decimal.D9 u
  end.

(** The longest prefix of digits, and what follows it. *)
Fixpoint undigits (s : string) : Decimal.uint * string :=
  match s with
  | EmptyString => (Decimal.Nil, EmptyString)
  | String c rest =>
      match digit_of c with
      | Some d => let '(u, after) := undigits rest in (push_digit d u, after)
      | None => (Decimal.Nil, s)
      end
  end.

Definition unnumber (s : string) : option (json * string) :=
  match s with
  | EmptyString => None
  | String c rest =>
      if Ascii.eqb c "-" then
        match undigits rest with
        | (Decimal.Nil, _) => None
        | (u, after) => Some (JNum (Z.of_int (Decimal.Neg u)), after)
        end
      else
        match undigits s with
        | (Decimal.Nil, _) => None
        | (u, after) => Some (JNum (Z.of_int (Decimal.Pos u)), after)
        end
  end.

(** [s] without the prefix [p], when it starts with it. *)
Fixpoint after_prefix (p s : string) : option string :=
  match p with
  | EmptyString => Some s
  | String c p' =>
      match s with
      | EmptyString => None
      | String c' s' => if Ascii.eqb c c' then after_prefix p' s' else None
      end
  end.

Definition keyword (p : string) (v : json) (s : string) : option (json * string) :=
  match after_prefix p s with
  | Some after => Some (v, after)
  | None => None
  end.

(** [s] without its first character, when that is [c]. *)
Definition starts_with (c : ascii) (s : string) : option string :=
  match s with
  | EmptyString => None
  | String c' after => if Ascii.eqb c c' then Some after else None
  end.

(** What [dumps] writes after the first item of a list, and after the first
    field of a dict. *)
Definition items_tail : list json -> string :=
  fix more (l : list json) : string :=
    match l with
    | [] => "]"
    | y :: l' => String "," (dumps y +:+ more l')
    end.

Definition fields_tail : list (string * json) -> string :=
  fix more (l : list (string * json)) : string :=
    match l with
    | [] => "}"
    | (k', y) :: l' =>
        String "," (quote k' +:+ String ":" (dumps y) +:+ more l')
    end.

(** Recursive descent, with fuel for the depth of the text. *)
Fixpoint parse (fuel : nat) (s : string) : option (json * string) :=
  match fuel with
  | O => None
  | S fuel =>
      match s with
      | EmptyString => None
      | String c rest =>
          if Ascii.eqb c "n" then keyword "ull" JNull rest
          else if Ascii.eqb c "t" then keyword "rue" (JBool true) rest
          else if Ascii.eqb c "f" then keyword "alse" (JBool false) rest
          else if Ascii.eqb c dquote then
            match unquote rest with
            | Some (body, after) => Some (JStr body, after)
            | None => None
            end
          else if Ascii.eqb c "[" then
            match starts_with "]" rest with
            | Some after => Some (JArr [], after)
            | None =>
                match parse fuel rest with
                | Some (x, after) =>
                    match parse_items fuel after with
                    | Some (xs, after') => Some (JArr (x :: xs), after')
                    | None => None
                    end
                | None => None
                end
            end
          else if Ascii.eqb c "{" then
            match starts_with "}" rest with
            | Some after => Some (JObj [], after)
            | None =>
                match parse_field fuel rest with
                | Some (kx, after) =>
                    match parse_fields fuel after with
                    | Some (kxs, after') => Some (JObj (kx :: kxs), after')
                    | None => None
                    end
                | None => None
                end
            end
          else unnumber s
      end
  end

with parse_items (fuel : nat) (s : string) : option (list json * string) :=
  match fuel with
  | O => None
  | S fuel =>
      match starts_with "]" s with
      | Some after => Some ([], after)
      | None =>
          match starts_with "," s with
          | Some rest =>
              match parse fuel rest with
              | Some (x, after) =>
                  match parse_items fuel after with
                  | Some (xs, after') => Some (x :: xs, after')
                  | None => None
                  end
              | None => None
              end
          | None => None
          end
      end
  end

with parse_field (fuel : nat) (s : string) : option ((string * json) * string) :=
  match fuel with
  | O => None
  | S fuel =>
      match starts_with dquote s with
      | Some rest =>
          match unquote rest with
          | Some (k, after) =>
              match starts_with ":" after with
              | Some after' =>
                  match parse fuel after' with
                  | Some (x, after'') => Some ((k, x), after'')
                  | None => None
                  end
              | None => None
              end
          | None => None
          end
      | None => None
      end
  end

with parse_fields (fuel : nat) (s : string)
  : option (list (string * json) * string) :=
  match fuel with
  | O => None
  | S fuel =>
      match starts_with "}" s with
      | Some after => Some ([], after)
      | None =>
          match starts_with "," s with
          | Some rest =>
              match parse_field fuel rest with
              | Some (kx, after) =>
                  match parse_fields fuel after with
                  | Some (kxs, after') => Some (kx :: kxs, after')
                  | None => None
                  end
              | None => None
              end
          | None => None
          end
      end
  end.

Definition loads (s : string) : option json :=
  match parse (2 * String.length s) s with
  | Some (v, EmptyString) => Some v
  | _ => None
  end.

(** *** Bytes as numbers *)

Definition code (b : Byte.byte) : N := Byte.to_N b.

Definition byte_of (n : N) : Byte.byte :=
  match Byte.of_N (n mod 256) with
  | Some b => b
  | None => Byte.x00
  end.

Definition all_bytes : list Byte.byte :=
  map (fun n => byte_of (N.of_nat n)) (seq 0 256).

(** *** Base64 *)

Definition alphabet : list ascii :=
  chars "ABCDEFGHIJKLMNOPQRSTUVWXYZabcdefghijklmnopqrstuvwxyz0123456789+/".

Definition pad : ascii := "=".

Definition sextet_char (n : N) : ascii := nth (N.to_nat n) alphabet pad.

Fixpoint index_of (c : ascii) (l : list ascii) (i : N) : option N :=
  match l with
  | [] => None
  | c' :: rest => if Ascii.eqb c c' then Some i else index_of c rest (N.succ i)
  end.

Definition char_sextet (c : ascii) : option N := index_of c alphabet 0.

(** The four characters of three bytes; the short groups are padded. *)
Definition enc1 (b1 : Byte.byte) : ascii := sextet_char (code b1 / 4).

Definition enc2 (b1 b2 : Byte.byte) : ascii :=
  sextet_char ((code b1 mod 4) * 16 + code b2 / 16).

Definition enc3 (b2 b3 : Byte.byte) : ascii :=
  sextet_char ((code b2 mod 16) * 4 + code b3 / 64).

Definition enc4 (b3 : Byte.byte) : ascii := sextet_char (code b3 mod 64).

Fixpoint b64encode (b : bytes) : string :=
  match b with
  | [] => EmptyString
  | [b1] =>
      String (enc1 b1) (String (enc2 b1 Byte.x00)
        (String pad (String pad EmptyString)))
  | [b1; b2] =>
      String (enc1 b1) (String (enc2 b1 b2)
        (String (enc3 b2 Byte.x00) (String pad EmptyString)))
  | b1 :: b2 :: b3 :: rest =>
      String (enc1 b1) (String (enc2 b1 b2)
        (String (enc3 b2 b3) (String (enc4 b3) (b64encode rest))))
  end.

Definition dec1 (c1 c2 : ascii) : option Byte.byte :=
  match char_sextet c1, char_sextet c2 with
  | Some s1, Some s2 => Some (byte_of (s1 * 4 + s2 / 16))
  | _, _ => None
  end.

Definition dec2 (c2 c3 : ascii) : option Byte.byte :=
  match char_sextet c2, char_sextet c3 with
  | Some s2, Some s3 => Some (byte_of ((s2 mod 16) * 16 + s3 / 4))
  | _, _ => None
  end.

Definition dec3 (c3 c4 : ascii) : option Byte.byte :=
  match char_sextet c3, char_sextet c4 with
  | Some s3, Some s4 => Some (byte_of ((s3 mod 4) * 64 + s4))
  | _, _ => None
  end.

Fixpoint b64decode (s : string) : option bytes :=
  match s with
  | EmptyString => Some []
  | String c1 (String c2 (String c3 (String c4 rest))) =>
      if Ascii.eqb c3 pad then
        if Ascii.eqb c4 pad then
          match rest, dec1 c1 c2 with
          | EmptyString, Some b1 => Some [b1]
          | _, _ => None
          end
        else None
      else if Ascii.eqb c4 pad then
        match rest, dec1 c1 c2, dec2 c2 c3 with
        | EmptyString, Some b1, Some b2 => Some [b1; b2]
        | _, _, _ => None
        end
      else
        match dec1 c1 c2, dec2 c2 c3, dec3 c3 c4, b64decode rest with
        | Some b1, Some b2, Some b3, Some tail => Some (b1 :: b2 :: b3 :: tail)
        | _, _, _, _ => None
        end
  | _ => None
  end.

(** *** UTF-8 on code points below 256 *)

Definition utf8_encode_char (c : ascii) : bytes :=
  let n := N_of_ascii c in
  if (n <? 128)%N then [byte_of n]
  else [byte_of (192 + n / 64); byte_of (128 + n mod 64)].

Fixpoint utf8_encode (s : string) : bytes :=
  match s with
  | EmptyString => []
  | String c rest => utf8_encode_char c ++ utf8_encode rest
  end.

Fixpoint utf8_decode (b : bytes) : option string :=
  match b with
  | [] => Some EmptyString
  | b1 :: rest =>
      if (code b1 <? 128)%N then
        match utf8_decode rest with
        | Some s => Some (String (ascii_of_N (code b1)) s)
        | None => None
        end
      else if ((code b1 =? 194) || (code b1 =? 195))%N then
        match rest with
        | b2 :: rest' =>
            if ((128 <=? code b2) && (code b2 <? 192))%N then
              match utf8_decode rest' with
              | Some s =>
                  Some (String (ascii_of_N ((code b1 - 192) * 64
                                            + (code b2 - 128))) s)
              | None => None
              end
            else None
        | [] => None
        end
      else None
  end.

(** *** Entropy, cipher and digest *)

Definition urandom (position n : nat) : bytes :=
  map (fun i => byte_of (N.of_nat (position * 167 + i * 31 + 89))) (seq 0 n).

Definition xor (a b : Byte.byte) : Byte.byte :=
  byte_of (N.lxor (code a) (code b)).

(** The byte of the key stream at a position. *)
Definition key_stream (key iv : bytes) (i : nat) : Byte.byte :=
  xor (nth (i mod 32) key Byte.x00)
      (xor (nth (i mod 16) iv Byte.x00) (byte_of (N.of_nat i))).

Fixpoint xor_stream (key iv : bytes) (i : nat) (text : bytes) : bytes :=
  match text with
  | [] => []
  | b :: rest => xor b (key_stream key iv i) :: xor_stream key iv (S i) rest
  end.

Definition aes256_encrypt (plaintext key : bytes) (position : nat)
  : bytes * bytes :=
  let iv := urandom position 16 in
  (iv, xor_stream key iv 0 plaintext).

Definition aes256_decrypt (iv ciphertext key : bytes) : option bytes :=
  if (length iv =? 16)%nat then Some (xor_stream key iv 0 ciphertext)
  else None.

Definition hex_char (n : N) : ascii :=
  nth (N.to_nat n) (chars "0123456789abcdef") "0"%char.

Definition hex_byte (b : Byte.byte) : string :=
  String (hex_char (code b / 16))
    (String (hex_char (code b mod 16)) EmptyString).

Fixpoint hex (b : bytes) : string :=
  match b with
  | [] => EmptyString
  | x :: rest => hex_byte x +:+ hex rest
  end.

(** A 32-bit running hash of the bytes, and its hexadecimal text. *)
Definition sha256_digest (b : bytes) : bytes :=
  let h :=
    fold_left (fun acc x => (acc * 33 + code x) mod 4294967296)%N b 5381%N in
  [byte_of (h / 16777216); byte_of (h / 65536); byte_of (h / 256);
   byte_of h].

Definition digest (b : bytes) : string := hex (sha256_digest b).

Definition uuid4_hex (position : nat) : string := hex (urandom position 16).

Definition int_of_str (s : string) : option Z :=
  match unnumber s with
  | Some (JNum n, EmptyString) => Some n
  | _ => None
  end.

(** *** Dates: [YYYY-MM-DDTHH:MM:SS], with [.ffffff] when there are
    microseconds *)

Definition two_digits (n : Z) : string :=
  if (n <? 10)%Z then String "0" (number n) else number n.

Definition isoformat (d : datetime) : string :=
  number (year d) +:+ String "-" (two_digits (month d))
  +:+ String "-" (two_digits (day d))
  +:+ String "T" (two_digits (hour d))
  +:+ String ":" (two_digits (minute d))
  +:+ String ":" (two_digits (second d))
  +:+ (if (microsecond d =? 0)%Z then EmptyString
       else String "." (number (microsecond d))).

(** A number and what follows it, after the separator [sep]. *)
Definition field_after (sep : ascii) (s : string) : option (Z * string) :=
  match starts_with sep s with
  | Some rest =>
      match undigits rest with
      | (Decimal.Nil, _) => None
      | (u, after) => Some (Z.of_int (Decimal.Pos u), after)
      end
  | None => None
  end.

Definition fromisoformat (s : string) : option datetime :=
  match undigits s with
  | (Decimal.Nil, _) => None
  | (y, s1) =>
      match field_after "-" s1 with
      | Some (mo, s2) =>
          match field_after "-" s2 with
          | Some (d, s3) =>
              match field_after "T" s3 with
              | Some (h, s4) =>
                  match field_after ":" s4 with
                  | Some (mi, s5) =>
                      match field_after ":" s5 with
                      | Some (se, EmptyString) =>
                          Some (Build_datetime (Z.of_int (Decimal.Pos y))
                                  mo d h mi se 0)
                      | Some (se, s6) =>
                          match field_after "." s6 with
                          | Some (us, EmptyString) =>
                              Some (Build_datetime
                                      (Z.of_int (Decimal.Pos y))
                                      mo d h mi se us)
                          | _ => None
                          end
                      | None => None
                      end
                  | None => None
                  end
              | None => None
              end
          | None => None
          end
      | None => None
      end
  end.

(** *** Notions the proofs about the JSON text use *)

(** A text that does not go on with a digit. *)
Definition no_digit (s : string) : Prop :=
  match s with
  | EmptyString => True
  | String c _ => digit_of c = None
  end.

(** The characters a number starts with. *)
Definition number_head (c : ascii) : bool :=
  match digit_of c with
  | Some _ => true
  | None => Ascii.eqb c "-"
  end.

(** The statement proved of every value: with fuel for its text, the parser
    reads the value back and stops after it. *)
Definition reads_back (v : json) : Prop :=
  forall (fuel : nat) (rest : string),
    (String.length (dumps v) <= fuel)%nat -> no_digit rest ->
    parse fuel (dumps v +:+ rest) = Some (v, rest).

End Reference.

Definition reference : Collaborators := {|
  json_loads := Reference.loads;
  json_dumps := Reference.dumps;
  json_nesting_limit := 512;
  b64encode := Reference.b64encode;
  b64decode := Reference.b64decode;
  utf8_encode := Reference.utf8_encode;
  utf8_decode := Reference.utf8_decode;
  aes256_encrypt := Reference.aes256_encrypt;
  aes256_decrypt := Reference.aes256_decrypt;
  urandom := Reference.urandom;
  uuid4_hex := Reference.uuid4_hex;
  sha256_digest := Reference.sha256_digest;
  isoformat := Reference.isoformat;
  fromisoformat := Reference.fromisoformat;
  int_of_str := Reference.int_of_str
|}.

(** ** Concrete inputs

    Stores, records and worlds the properties are run on, with the reference
    collaborators. *)

Module Examples.

#[local] Existing Instance reference.

Definition empty_world : world := World ∅ 0.

Definition key : bytes := Reference.urandom 7 32.
Definition other_key : bytes := Reference.urandom 8 32.

Definition evidence_path : string := "/home/op/.ram_acq/evidence.json.enc".
Definition users_path : string := "/home/op/.ram_acq/users.json.enc".

Definition secure_store : EncryptedJsonStore.t :=
  EncryptedJsonStore.init evidence_path key.

(** A store on the same file with another key. *)
Definition other_secure_store : EncryptedJsonStore.t :=
  EncryptedJsonStore.init evidence_path other_key.

Definition document : json :=
  JArr [JObj [("image_id", JStr "case-7_20240101T000000");
              ("case_id", JStr "case-7");
              ("size_bytes", JNum 1048576)]].

(** A world whose evidence file is the plaintext JSON of [document]. *)
Definition legacy_world : world :=
  write_bytes evidence_path
    (Reference.utf8_encode (Reference.dumps document)) empty_world.

(** A world whose evidence file was written by the store with the other
    key. *)
Definition foreign_world : world :=
  EncryptedJsonStore.write other_secure_store document empty_world.

(** A world whose evidence file is not UTF-8. *)
Definition binary_world : world :=
  write_bytes evidence_path [Byte.xff; Byte.xfe] empty_world.

Definition key_manager : SecretKeyManager.t :=
  SecretKeyManager.init "users" "/home/op/.ram_acq/keys".

(** A world whose key file has 3 bytes. *)
Definition short_key_world : world :=
  write_bytes "/home/op/.ram_acq/keys/users.key"
    [Byte.x01; Byte.x02; Byte.x03] empty_world.

Definition user_store : EncryptedUserStore.t :=
  {| EncryptedUserStore._store_path := users_path;
     EncryptedUserStore._secure_store :=
       EncryptedJsonStore.init users_path key |}.

Definition admin_salt : bytes := Reference.urandom 0 16.
Definition investigator_salt : bytes := Reference.urandom 1 16.

(** The two records [_seed_defaults] creates in [empty_world]. *)
Definition admin_record : json :=
  JObj [("username", JStr "admin");
        ("name", JStr "Administrator");
        ("role", JStr "Admin");
        ("user_id", JStr "u_admin");
        ("salt", JStr (Reference.b64encode admin_salt));
        ("password_hash",
         JStr (Reference.digest
                 (admin_salt ++ Reference.utf8_encode "admin123")));
        ("full_access", JBool true)].

Definition investigator_record : json :=
  JObj [("username", JStr "investigator");
        ("name", JStr "Investigator");
        ("role", JStr "Investigator");
        ("user_id", JStr "u_inv");
        ("salt", JStr (Reference.b64encode investigator_salt));
        ("password_hash",
         JStr (Reference.digest
                 (investigator_salt ++ Reference.utf8_encode "invest123")));
        ("full_access", JBool false)].

(** The service [__init__] builds on an empty world, and that world. *)
Definition service : AuthService.t :=
  {| AuthService._user_store := user_store;
     AuthService._records :=
       [(JStr "admin", admin_record);
        (JStr "investigator", investigator_record)] |}.

Definition seeded_world : world :=
  snd (AuthService.init user_store empty_world).

(** Two persisted entries with no usable username. *)
Definition ghost : json := JObj [("name", JStr "ghost"); ("role", JStr "Admin")].
Definition blank : json := JObj [("username", JStr EmptyString)].

(** A world whose User Store holds the admin and the two entries. *)
Definition haunted_world : world :=
  EncryptedUserStore.save_users user_store [ghost; admin_record; blank]
    empty_world.

Definition evidence_store : EvidenceStore.t :=
  {| EvidenceStore._db_path := evidence_path;
     EvidenceStore._secure_store := secure_store |}.

Definition image (n : Z) : MemoryImage :=
  {| image_id := JStr "case-7_20240101T000000";
     sha256 := JStr "e3b0c44298fc1c149afbf4c8996fb924";
     recovered_by := JStr "u_admin";
     captured_at := Build_datetime 2024 1 1 0 0 0 0;
     case_id := JStr "case-7";
     path := JStr "/tmp/img.raw";
     size_bytes := JNum n |}.

Definition payloads : list json :=
  [EvidenceStore.payload_of (image 1048576);
   EvidenceStore.payload_of (image 2097152);
   EvidenceStore.payload_of (image 3145728)].

(** The world after the construction of the Evidence Store. *)
Definition evidence_world : world :=
  EvidenceStore._write evidence_store [] empty_world.

(** Three callers of [add_image] about to start. *)
Definition callers : EvidenceStore.config :=
  {| EvidenceStore.shared := evidence_world;
     EvidenceStore.lock := None;
     EvidenceStore.threads := map EvidenceStore.AddStart payloads |}.

(** A schedule of the three callers: the second caller takes the lock
    first, then the third, then the first; the others are picked while
    they wait. *)
Definition interleaving : list nat :=
  [1; 0; 1; 2; 1; 0; 1; 2; 0; 2; 2; 1; 2; 0; 0; 0; 0].

(** A caller of [add_image] and a caller of [list_images]. *)
Definition writer_and_reader : EvidenceStore.config :=
  {| EvidenceStore.shared := evidence_world;
     EvidenceStore.lock := None;
     EvidenceStore.threads :=
       [EvidenceStore.AddStart (EvidenceStore.payload_of (image 1048576));
        EvidenceStore.ListStart] |}.

End Examples.

(** ** Notions of the further properties *)

(** The files [EvidenceStore.__init__] and [EncryptedUserStore.__init__]
    use for a home directory: the key file and the store file. *)
Definition evidence_key_path (home : string) : string :=
  SecretKeyManager._key_path
    (SecretKeyManager.init "evidence" ((home +:+ "/.ram_acq") +:+ "/keys")).

Definition evidence_db_path (home : string) (db_path : option string)
  : string :=
  match db_path with
  | Some p => p
  | None => (home +:+ "/.ram_acq") +:+ "/evidence.json.enc"
  end.

Definition users_key_path (home : string) : string :=
  SecretKeyManager._key_path
    (SecretKeyManager.init "users" ((home +:+ "/.ram_acq") +:+ "/keys")).

Definition users_store_path (home : string) (store_path : option string)
  : string :=
  match store_path with
  | Some p => p
  | None => (home +:+ "/.ram_acq") +:+ "/users.json.enc"
  end.

(** A caller of the Evidence Store between taking the lock and releasing
    it. *)
Definition in_critical_section (th : EvidenceStore.thread) : bool :=
  match th with
  | EvidenceStore.AddLocked _ | EvidenceStore.AddRead _ _
  | EvidenceStore.AddWritten
  | EvidenceStore.ClearLocked | EvidenceStore.ClearWritten => true
  | _ => false
  end.

(** No two keys of the dict are equal: what a Python [dict] guarantees of
    its keys. *)
Fixpoint dict_wf (d : pydict) : Prop :=
  match d with
  | [] => True
  | (k, _) :: rest => dict_lookup k rest = None /\ dict_wf rest
  end.

(** Each record of the mapping is filed under its own [username], a
    non-empty [str]. *)
Definition filed_by_username (d : pydict) : Prop :=
  Forall (fun kv =>
            exists u, fst kv = JStr u /\ u <> EmptyString
                      /\ dict_get (snd kv) "username" JNull = Ok (JStr u)) d.

(** The mapping of the Auth Service as the code builds it from entries
    whose usernames are [str]. *)
Definition consistent (d : pydict) : Prop :=
  dict_wf d /\ filed_by_username d.

(** A persisted entry whose [username], when its truth value is true, is a
    [str]. *)
Definition str_named (entry : json) : Prop :=
  exists fields,
    entry = JObj fields
    /\ (forall k, assoc "username" fields = Some k -> truthy k = true ->
                  exists u, k = JStr u).

(** ** [login_dialog.py] *)

Module LoginDialog.
Section Methods.
Context `{Collaborators}.

(** What the methods of the dialog read and write: the service, the
    authenticated user, the texts of the two line edits and of the error
    label, and whether [accept] has closed the dialog. *)
Record t : Type := Build {
  _auth : AuthService.t;
  _authenticated_user : option User;
  username : string;
  password : string;
  error_label : string;
  accepted : bool
}.

(** [__init__]: [AuthService()] builds its own User Store, in the home
    directory; the line edits and the error label start empty. *)
Definition init (home : string) (w : world) : result t * world :=
  match EncryptedUserStore.init home None w with
  | (Raise e, w1) => (Raise e, w1)
  | (Ok user_store, w1) =>
      match AuthService.init user_store w1 with
      | (Raise e, w2) => (Raise e, w2)
      | (Ok auth, w2) =>
          (Ok {| _auth := auth; _authenticated_user := None;
                 username := EmptyString; password := EmptyString;
                 error_label := EmptyString; accepted := false |}, w2)
      end
  end.

(** The user types into the two line edits. *)
Definition typed (self : t) (username_text password_text : string) : t :=
  {| _auth := _auth self; _authenticated_user := _authenticated_user self;
     username := username_text; password := password_text;
     error_label := error_label self; accepted := accepted self |}.

(** [_on_login], the slot of the OK button. *)
Definition _on_login (self : t) : result t :=
  let v_username := strip (username self) in
  let v_password := password self in
  do user <- AuthService.authenticate (_auth self) v_username v_password ;;
  match user with
  | None =>
      Ok {| _auth := _auth self;
            _authenticated_user := _authenticated_user self;
            username := username self; password := password self;
            error_label := "Invalid credentials";
            accepted := accepted self |}
  | Some u =>
      Ok {| _auth := _auth self; _authenticated_user := Some u;
            username := username self; password := password self;
            error_label := error_label self; accepted := true |}
  end.

(** [get_authenticated_user]; [None] is the [AssertionError]. *)
Definition get_authenticated_user (self : t) : option User :=
  _authenticated_user self.

(** The attempts of a user at the dialog: the texts typed before each
    press of OK. An exception of [_on_login] ends them. *)
Fixpoint attempts (self : t) (inputs : list (string * string)) : result t :=
  match inputs with
  | [] => Ok self
  | (username_text, password_text) :: rest =>
      do self' <- _on_login (typed self username_text password_text) ;;
      attempts self' rest
  end.

End Methods.
End LoginDialog.

(** ** Inputs of the further properties *)

Module FurtherExamples.

#[local] Existing Instance reference.
Import Examples.

Definition home : string := "/home/op".

(** The store of the users' file, as [user_store] has it. *)
Definition users_secure_store : EncryptedJsonStore.t :=
  EncryptedJsonStore.init users_path key.

(** A world whose two key files have 3 bytes. *)
Definition short_keys_world : world :=
  write_bytes "/home/op/.ram_acq/keys/evidence.key"
    [Byte.x01; Byte.x02; Byte.x03] short_key_world.

(** The Evidence Store [__init__] builds in [empty_world], and the world
    it leaves. *)
Definition opened_store : EvidenceStore.t :=
  {| EvidenceStore._db_path := evidence_path;
     EvidenceStore._secure_store :=
       EncryptedJsonStore.init evidence_path (Reference.urandom 0 32) |}.

Definition opened_world : world :=
  snd (EvidenceStore.init home None empty_world).

(** A world whose evidence file is text, but not JSON. *)
Definition garbled : bytes := Reference.utf8_encode "not json".

Definition garbled_world : world :=
  write_bytes evidence_path garbled empty_world.

(** A User Store file written with the other key. *)
Definition foreign_users_store : EncryptedJsonStore.t :=
  EncryptedJsonStore.init users_path other_key.

Definition users_document : json := JObj [("users", JArr [admin_record])].

Definition foreign_users_world : world :=
  EncryptedJsonStore.write foreign_users_store users_document empty_world.

(** The service after [upsert_user] of a new user with a password, and
    the world it leaves. *)
Definition with_carol : AuthService.t * world :=
  snd (AuthService.upsert_user service "carol" "Carol" "Viewer" (Some "pw")
         false seeded_world).

(** The service after [delete_user] of the investigator. *)
Definition without_investigator : AuthService.t * world :=
  snd (AuthService.delete_user service "investigator" seeded_world).

(** The dialog on the seeded service, and two attempts at it. *)
Definition dialog : LoginDialog.t :=
  {| LoginDialog._auth := service;
     LoginDialog._authenticated_user := None;
     LoginDialog.username := EmptyString;
     LoginDialog.password := EmptyString;
     LoginDialog.error_label := EmptyString;
     LoginDialog.accepted := false |}.

Definition two_attempts : list (string * string) :=
  [("admin", "letmein"); (" admin ", "admin123")].

(** A service whose record of the admin holds, for a password hash, the
    one character U+00E9. *)
Definition e_acute : string := String (ascii_of_nat 233) EmptyString.

Definition tampered_record : json :=
  JObj [("username", JStr "admin");
        ("name", JStr "Administrator");
        ("role", JStr "Admin");
        ("user_id", JStr "u_admin");
        ("salt", JStr (Reference.b64encode admin_salt));
        ("password_hash", JStr e_acute);
        ("full_access", JBool true)].

Definition tampered_service : AuthService.t :=
  {| AuthService._user_store := user_store;
     AuthService._records := [(JStr "admin", tampered_record)] |}.

Definition administrator : User :=
  {| user_id := JStr "u_admin"; name := JStr "Administrator";
     role := JStr "Admin" |}.



End FurtherExamples.

(* ================================================================== *)
(** * Part II. Properties *)
(* ================================================================== *)

#[local] Arguments append : simpl nomatch.

(** ** The reference collaborators satisfy the laws *)

Module ReferenceLaws.
Import Reference.

Lemma code_byte_of (n : N) : code (byte_of n) = (n mod 256)%N.
Proof.
  unfold code, byte_of.
  destruct (Byte.of_N (n mod 256)) as [b|] eqn:E.
  - now apply Byte.to_of_N.
  - apply Byte.of_N_None_iff in E.
    pose proof (N.mod_upper_bound n 256). lia.
Qed.

Lemma byte_of_code (b : Byte.byte) : byte_of (code b) = b.
Proof.
  unfold byte_of, code.
  pose proof (Byte.to_N_bounded b).
  rewrite N.mod_small by lia.
  now rewrite Byte.of_to_N.
Qed.

Lemma in_all_bytes (b : Byte.byte) : In b all_bytes.
Proof.
  unfold all_bytes.
  apply in_map_iff. exists (N.to_nat (code b)). split.
  - rewrite N2Nat.id. apply byte_of_code.
  - apply in_seq. pose proof (Byte.to_N_bounded b). unfold code. lia.
Qed.

Lemma for_all_bytes (P : Byte.byte -> bool) :
  forallb P all_bytes = true -> forall b, P b = true.
Proof.
  intros H b. rewrite forallb_forall in H. apply H, in_all_bytes.
Qed.

Lemma for_all_byte_pairs (P : Byte.byte -> Byte.byte -> bool) :
  forallb (fun a => forallb (P a) all_bytes) all_bytes = true ->
  forall a b, P a b = true.
Proof.
  intros H a b.
  apply (for_all_bytes (P a)).
  apply (for_all_bytes (fun a => forallb (P a) all_bytes) H).
Qed.

Lemma xor_involutive (a k : Byte.byte) : xor (xor a k) k = a.
Proof.
  apply Byte.byte_dec_bl.
  revert a k. apply for_all_byte_pairs. vm_compute. reflexivity.
Qed.

Lemma urandom_has_length : @urandom_length reference.
Proof.
  intros position n. simpl. unfold urandom.
  now rewrite length_map, length_seq.
Qed.

Lemma xor_stream_involutive key iv text :
  forall i, xor_stream key iv i (xor_stream key iv i text) = text.
Proof.
  induction text as [|b rest IH]; intros i; simpl.
  - reflexivity.
  - now rewrite xor_involutive, IH.
Qed.

Lemma cipher_roundtrips : @cipher_roundtrip reference.
Proof.
  intros plaintext key position _. simpl.
  unfold aes256_decrypt.
  rewrite urandom_has_length. simpl.
  now rewrite xor_stream_involutive.
Qed.


Ltac div_lia := zify; Z.to_euclidean_division_equations; lia.

Lemma char_sextet_nth (k : nat) :
  (k < 64)%nat -> char_sextet (nth k alphabet pad) = Some (N.of_nat k).
Proof.
  intros H.
  assert (forallb (fun k => match char_sextet (nth k alphabet pad) with
                            | Some m => N.eqb m (N.of_nat k)
                            | None => false
                            end) (seq 0 64) = true) as Hall
    by (vm_compute; reflexivity).
  rewrite forallb_forall in Hall.
  specialize (Hall k). rewrite in_seq in Hall.
  destruct (char_sextet (nth k alphabet pad)) as [m|].
  - f_equal. apply N.eqb_eq, Hall. lia.
  - discriminate Hall. lia.
Qed.

Lemma char_sextet_char (n : N) :
  (n < 64)%N -> char_sextet (sextet_char n) = Some n.
Proof.
  intros H. unfold sextet_char.
  rewrite char_sextet_nth by lia. now rewrite N2Nat.id.
Qed.

Lemma sextet_char_not_pad (n : N) :
  (n < 64)%N -> Ascii.eqb (sextet_char n) pad = false.
Proof.
  intros H. unfold sextet_char.
  assert (forallb (fun k => negb (Ascii.eqb (nth k alphabet pad) pad))
            (seq 0 64) = true) as Hall by (vm_compute; reflexivity).
  rewrite forallb_forall in Hall.
  specialize (Hall (N.to_nat n)). rewrite in_seq in Hall.
  apply negb_true_iff, Hall. lia.
Qed.

Lemma code_bound (b : Byte.byte) : (code b < 256)%N.
Proof. pose proof (Byte.to_N_bounded b). unfold code. lia. Qed.

Lemma byte_of_small (n : N) (b : Byte.byte) :
  (n mod 256 = code b)%N -> byte_of n = b.
Proof.
  intros H. unfold byte_of. rewrite H. unfold code.
  now rewrite Byte.of_to_N.
Qed.

Lemma dec1_enc (b1 b2 : Byte.byte) : dec1 (enc1 b1) (enc2 b1 b2) = Some b1.
Proof.
  pose proof (code_bound b1). pose proof (code_bound b2).
  unfold dec1, enc1, enc2.
  rewrite !char_sextet_char by div_lia.
  f_equal. apply byte_of_small. div_lia.
Qed.

Lemma dec2_enc (b1 b2 b3 : Byte.byte) :
  dec2 (enc2 b1 b2) (enc3 b2 b3) = Some b2.
Proof.
  pose proof (code_bound b1). pose proof (code_bound b2).
  pose proof (code_bound b3).
  unfold dec2, enc2, enc3.
  rewrite !char_sextet_char by div_lia.
  f_equal. apply byte_of_small. div_lia.
Qed.

Lemma dec3_enc (b2 b3 : Byte.byte) : dec3 (enc3 b2 b3) (enc4 b3) = Some b3.
Proof.
  pose proof (code_bound b2). pose proof (code_bound b3).
  unfold dec3, enc3, enc4.
  rewrite !char_sextet_char by div_lia.
  f_equal. apply byte_of_small. div_lia.
Qed.

Lemma enc3_not_pad b2 b3 : Ascii.eqb (enc3 b2 b3) pad = false.
Proof.
  pose proof (code_bound b2). pose proof (code_bound b3).
  apply sextet_char_not_pad. div_lia.
Qed.

Lemma enc4_not_pad b3 : Ascii.eqb (enc4 b3) pad = false.
Proof.
  pose proof (code_bound b3). apply sextet_char_not_pad. div_lia.
Qed.

(** Induction on a list of bytes three at a time. *)
Lemma bytes_ind3 (P : bytes -> Prop) :
  P [] -> (forall a, P [a]) -> (forall a b, P [a; b]) ->
  (forall a b c rest, P rest -> P (a :: b :: c :: rest)) ->
  forall l, P l.
Proof.
  intros H0 H1 H2 H3.
  assert (forall l, P l /\ (forall a, P (a :: l)) /\ (forall a b, P (a :: b :: l)))
    as H.
  { induction l as [|x l (IH0 & IH1 & IH2)]; [now auto|].
    repeat split; auto. }
  intros l. apply H.
Qed.

Lemma base64_roundtrips : @base64_roundtrip reference.
Proof.
  intros b. simpl. induction b as [|a|a b|a b c rest IH] using bytes_ind3.
  - reflexivity.
  - cbn [b64encode b64decode].
    rewrite Ascii.eqb_refl, dec1_enc. reflexivity.
  - cbn [b64encode b64decode].
    rewrite enc3_not_pad, Ascii.eqb_refl, dec1_enc, dec2_enc. reflexivity.
  - cbn [b64encode b64decode].
    rewrite enc3_not_pad, enc4_not_pad, dec1_enc, dec2_enc, dec3_enc, IH.
    reflexivity.
Qed.

Lemma utf8_decode_char (c : ascii) (rest : bytes) :
  utf8_decode (utf8_encode_char c ++ rest)
  = match utf8_decode rest with
    | Some s => Some (String c s)
    | None => None
    end.
Proof.
  destruct c as [[] [] [] [] [] [] [] []]; reflexivity.
Qed.

Lemma utf8_roundtrips : @utf8_roundtrip reference.
Proof.
  intros s. simpl. induction s as [|c s IH]; [reflexivity|].
  cbn [utf8_encode]. now rewrite utf8_decode_char, IH.
Qed.


Lemma append_assoc (a b c : string) : (a +:+ b) +:+ c = a +:+ (b +:+ c).
Proof. induction a as [|x a IH]; simpl; [reflexivity | now rewrite IH]. Qed.

Lemma append_empty_r (a : string) : a +:+ EmptyString = a.
Proof. induction a as [|x a IH]; simpl; [reflexivity | now rewrite IH]. Qed.

Lemma length_append (a b : string) :
  String.length (a +:+ b) = (String.length a + String.length b)%nat.
Proof. induction a as [|x a IH]; simpl; [reflexivity | now rewrite IH]. Qed.

Lemma json_nested_ind (P : json -> Prop) :
  P JNull -> (forall b, P (JBool b)) -> (forall n, P (JNum n)) ->
  (forall s, P (JStr s)) ->
  (forall items, Forall P items -> P (JArr items)) ->
  (forall fields, Forall (fun kv => P (snd kv)) fields -> P (JObj fields)) ->
  forall v, P v.
Proof.
  intros HN HB HZ HS HA HO.
  fix IH 1. intros [ | b | n | s | items | fields ].
  - exact HN.
  - apply HB.
  - apply HZ.
  - apply HS.
  - apply HA. induction items as [|x l IHl]; constructor; [apply IH | exact IHl].
  - apply HO.
    induction fields as [|[k x] l IHl]; constructor; [apply IH | exact IHl].
Qed.

Lemma unquote_escape (s rest : string) :
  unquote (escape s +:+ String dquote rest) = Some (s, rest).
Proof.
  induction s as [|c s IH]; [reflexivity|].
  cbn [escape].
  destruct (Ascii.eqb c dquote || Ascii.eqb c backslash) eqn:E.
  - cbn [append unquote].
    replace (Ascii.eqb backslash dquote) with false by reflexivity.
    rewrite Ascii.eqb_refl, E, IH. reflexivity.
  - apply orb_false_iff in E as [E1 E2].
    cbn [append unquote]. rewrite E1, E2, IH. reflexivity.
Qed.

Lemma undigits_digits (u : Decimal.uint) (rest : string) :
  no_digit rest -> undigits (digits u +:+ rest) = (u, rest).
Proof.
  intros H. induction u as [|u IH|u IH|u IH|u IH|u IH|u IH|u IH|u IH|u IH|u IH];
    try (cbn [digits append undigits];
         match goal with
         | |- context [digit_of (digit_char ?k)] =>
             replace (digit_of (digit_char k)) with (Some k) by reflexivity
         end;
         rewrite IH; reflexivity).
  destruct rest as [|c rest]; [reflexivity|].
  simpl in H. cbn [digits append undigits]. now rewrite H.
Qed.

Lemma digits_head (u : Decimal.uint) :
  u <> Decimal.Nil ->
  exists d s, digits u = String (digit_char d) s /\ (d < 10)%nat.
Proof.
  destruct u; intros H; try congruence; cbn [digits];
    eexists _, _; (split; [reflexivity | lia]).
Qed.

Lemma to_int_nonnil (n : Z) :
  match Z.to_int n with
  | Decimal.Pos u | Decimal.Neg u => u <> Decimal.Nil
  end.
Proof.
  destruct n; cbn; try discriminate; apply Unsigned.to_uint_nonnil.
Qed.

Lemma digit_char_digit (d : nat) :
  (d < 10)%nat -> digit_of (digit_char d) = Some d.
Proof.
  intros H. do 10 (destruct d as [|d]; [reflexivity|]). lia.
Qed.

Lemma unnumber_number (n : Z) (rest : string) :
  no_digit rest -> unnumber (number n +:+ rest) = Some (JNum n, rest).
Proof.
  intros H. unfold number.
  pose proof (to_int_nonnil n) as Hnil.
  pose proof (DecimalZ.of_to n) as Hn.
  destruct (Z.to_int n) as [u|u].
  - destruct (digits_head u Hnil) as (d & s & E & Hd).
    unfold unnumber. rewrite E. cbn [append].
    replace (Ascii.eqb (digit_char d) "-") with false
      by (do 10 (destruct d as [|d]; [reflexivity|]); lia).
    change (String (digit_char d) (s +:+ rest))
      with (String (digit_char d) s +:+ rest).
    rewrite <- E, undigits_digits by assumption.
    destruct u; congruence.
  - cbn [append unnumber]. rewrite Ascii.eqb_refl.
    rewrite undigits_digits by assumption.
    destruct u; congruence.
Qed.

Lemma number_starts (n : Z) :
  exists c s, number n = String c s /\ number_head c = true.
Proof.
  unfold number. pose proof (to_int_nonnil n) as Hnil.
  destruct (Z.to_int n) as [u|u].
  - destruct (digits_head u Hnil) as (d & s & E & Hd).
    exists (digit_char d), s. split; [exact E|].
    unfold number_head. now rewrite digit_char_digit.
  - eexists _, _. split; reflexivity.
Qed.

Lemma parse_number_head (fuel : nat) (c : ascii) (s : string) :
  number_head c = true -> parse (S fuel) (String c s) = unnumber (String c s).
Proof.
  destruct c as [[] [] [] [] [] [] [] []]; intros H;
    first [discriminate H | reflexivity].
Qed.

Lemma starts_with_number (c : ascii) (n : Z) (rest : string) :
  number_head c = false -> starts_with c (number n +:+ rest) = None.
Proof.
  intros H. destruct (number_starts n) as (c' & s & E & Hc).
  rewrite E. cbn [append starts_with].
  destruct (Ascii.eqb_spec c c'); [congruence | reflexivity].
Qed.

(** A closing bracket never starts the text of a value. *)
Lemma starts_with_dumps (c : ascii) (v : json) (rest : string) :
  c = "]"%char \/ c = "}"%char ->
  starts_with c (dumps v +:+ rest) = None.
Proof.
  intros H.
  destruct v as [ | [] | n | s | items | fields ];
    try (destruct H; subst; reflexivity).
  apply starts_with_number. destruct H; subst; reflexivity.
Qed.

Lemma no_digit_items_tail (l : list json) (rest : string) :
  no_digit (items_tail l +:+ rest).
Proof. destruct l; reflexivity. Qed.

Lemma no_digit_fields_tail (l : list (string * json)) (rest : string) :
  no_digit (fields_tail l +:+ rest).
Proof. destruct l as [|[k x] l]; reflexivity. Qed.

Lemma dumps_array (x : json) (l : list json) :
  dumps (JArr (x :: l)) = String "[" (dumps x +:+ items_tail l).
Proof. reflexivity. Qed.

Lemma dumps_object (k : string) (x : json) (l : list (string * json)) :
  dumps (JObj ((k, x) :: l))
  = String "{" (quote k +:+ String ":" (dumps x) +:+ fields_tail l).
Proof. reflexivity. Qed.

Lemma items_tail_cons (y : json) (l : list json) :
  items_tail (y :: l) = String "," (dumps y +:+ items_tail l).
Proof. reflexivity. Qed.

Lemma fields_tail_cons (k : string) (y : json) (l : list (string * json)) :
  fields_tail ((k, y) :: l)
  = String "," (quote k +:+ String ":" (dumps y) +:+ fields_tail l).
Proof. reflexivity. Qed.

Lemma parse_items_tail (l : list json) :
  Forall reads_back l ->
  forall (fuel : nat) (rest : string),
    (String.length (items_tail l) <= fuel)%nat ->
    parse_items fuel (items_tail l +:+ rest) = Some (l, rest).
Proof.
  induction 1 as [|y l Hy _ IH]; intros fuel rest Hfuel.
  - destruct fuel as [|fuel]; [simpl in Hfuel; lia | reflexivity].
  - rewrite items_tail_cons in *.
    cbn [String.length] in Hfuel. rewrite length_append in Hfuel.
    destruct fuel as [|fuel]; [lia|].
    cbn [append]. rewrite append_assoc.
    cbn [parse_items starts_with].
    replace (Ascii.eqb "]" ",") with false by reflexivity.
    replace (Ascii.eqb "," ",") with true by reflexivity.
    rewrite Hy by (auto using no_digit_items_tail || lia).
    rewrite IH by lia. reflexivity.
Qed.


Ltac norm_append :=
  repeat first [rewrite append_assoc | progress cbn [append]].

Lemma length_quote (k : string) : (2 <= String.length (quote k))%nat.
Proof. unfold quote. cbn [String.length]. rewrite length_append. simpl. lia. Qed.

Lemma parse_field_quote (k : string) (x : json) :
  reads_back x ->
  forall (fuel : nat) (rest : string),
    (String.length (dumps x) < fuel)%nat -> no_digit rest ->
    parse_field fuel (quote k +:+ String ":" (dumps x +:+ rest))
    = Some ((k, x), rest).
Proof.
  intros Hx fuel rest Hfuel Hrest.
  destruct fuel as [|fuel]; [lia|].
  unfold quote. cbn [append parse_field starts_with].
  rewrite Ascii.eqb_refl, append_assoc. cbn [append].
  rewrite unquote_escape.
  cbn [append starts_with]. rewrite Ascii.eqb_refl.
  rewrite Hx by (assumption || lia). reflexivity.
Qed.

Lemma parse_fields_tail (l : list (string * json)) :
  Forall (fun kv => reads_back (snd kv)) l ->
  forall (fuel : nat) (rest : string),
    (String.length (fields_tail l) <= fuel)%nat ->
    parse_fields fuel (fields_tail l +:+ rest) = Some (l, rest).
Proof.
  induction 1 as [|[k y] l Hy _ IH]; intros fuel rest Hfuel.
  - destruct fuel as [|fuel]; [simpl in Hfuel; lia | reflexivity].
  - rewrite fields_tail_cons in *.
    cbn [String.length] in Hfuel. rewrite !length_append in Hfuel.
    cbn [String.length] in Hfuel.
    pose proof (length_quote k).
    destruct fuel as [|fuel]; [lia|].
    norm_append.
    cbn [parse_fields starts_with].
    replace (Ascii.eqb "}" ",") with false by reflexivity.
    replace (Ascii.eqb "," ",") with true by reflexivity.
    rewrite parse_field_quote
      by (auto using no_digit_fields_tail || (simpl in *; lia)).
    rewrite IH by lia. reflexivity.
Qed.

Lemma parse_dumps (v : json) : reads_back v.
Proof.
  induction v as [ | b | n | s | items IH | fields IH ] using json_nested_ind;
    intros fuel rest Hfuel Hrest.
  - destruct fuel as [|fuel]; [simpl in Hfuel; lia | reflexivity].
  - destruct b; (destruct fuel as [|fuel]; [simpl in Hfuel; lia | reflexivity]).
  - destruct (number_starts n) as (c & t & E & Hc).
    cbn [dumps] in *.
    destruct fuel as [|fuel]; [rewrite E in Hfuel; simpl in Hfuel; lia|].
    pose proof (unnumber_number n rest Hrest) as Hn.
    rewrite E in *. cbn [append] in *.
    now rewrite parse_number_head.
  - destruct fuel as [|fuel]; [simpl in Hfuel; lia|].
    cbn [dumps]. unfold quote. cbn [append]. rewrite append_assoc.
    cbn [append parse].
    replace (Ascii.eqb dquote "n") with false by reflexivity.
    replace (Ascii.eqb dquote "t") with false by reflexivity.
    replace (Ascii.eqb dquote "f") with false by reflexivity.
    rewrite Ascii.eqb_refl, unquote_escape. reflexivity.
  - destruct items as [|x l].
    + destruct fuel as [|fuel]; [simpl in Hfuel; lia | reflexivity].
    + rewrite dumps_array in *. inversion IH as [|? ? Hx Hl]; subst.
      cbn [String.length] in Hfuel. rewrite length_append in Hfuel.
      destruct fuel as [|fuel]; [lia|].
      cbn [append]. rewrite append_assoc.
      cbn [parse].
      replace (Ascii.eqb "[" "n") with false by reflexivity.
      replace (Ascii.eqb "[" "t") with false by reflexivity.
      replace (Ascii.eqb "[" "f") with false by reflexivity.
      replace (Ascii.eqb "[" dquote) with false by reflexivity.
      rewrite Ascii.eqb_refl.
      rewrite starts_with_dumps by auto.
      rewrite Hx by (auto using no_digit_items_tail || lia).
      rewrite parse_items_tail by (assumption || lia). reflexivity.
  - destruct fields as [|[k x] l].
    + destruct fuel as [|fuel]; [simpl in Hfuel; lia | reflexivity].
    + rewrite dumps_object in *. inversion IH as [|? ? Hx Hl]; subst.
      cbn [String.length] in Hfuel. rewrite !length_append in Hfuel.
      cbn [String.length] in Hfuel.
      destruct fuel as [|fuel]; [lia|].
      norm_append.
      cbn [parse].
      replace (Ascii.eqb "{" "n") with false by reflexivity.
      replace (Ascii.eqb "{" "t") with false by reflexivity.
      replace (Ascii.eqb "{" "f") with false by reflexivity.
      replace (Ascii.eqb "{" dquote) with false by reflexivity.
      replace (Ascii.eqb "{" "[") with false by reflexivity.
      rewrite Ascii.eqb_refl.
      replace (starts_with "}" (quote k +:+ String ":" (dumps x +:+ fields_tail l +:+ rest)))
        with (@None string) by reflexivity.
      rewrite parse_field_quote
        by (auto using no_digit_fields_tail || (simpl in *; lia)).
      rewrite parse_fields_tail by (assumption || lia). reflexivity.
Qed.

Lemma json_roundtrips : @json_roundtrip reference.
Proof.
  intros v. simpl. unfold loads.
  rewrite <- (append_empty_r (dumps v)) at 2.
  rewrite parse_dumps; [reflexivity | lia | exact I].
Qed.

Lemma rstrip_empty (s : string) :
  rstrip s = EmptyString ->
  match s with
  | EmptyString => True
  | String c _ => is_space c = true
  end.
Proof.
  destruct s as [|c s]; [trivial|]. cbn [rstrip].
  destruct (rstrip s); [|discriminate].
  destruct (is_space c); [trivial | discriminate].
Qed.

Lemma lstrip_head (s : string) :
  match lstrip s with
  | EmptyString => True
  | String c _ => is_space c = false
  end.
Proof.
  induction s as [|c s IH]; [exact I|]. cbn [lstrip].
  destruct (is_space c) eqn:E; [exact IH | exact E].
Qed.

Lemma strip_empty (s : string) :
  strip s = EmptyString ->
  match s with
  | EmptyString => True
  | String c _ => is_space c = true
  end.
Proof.
  unfold strip. intros H. apply rstrip_empty in H.
  pose proof (lstrip_head s) as Hh.
  destruct s as [|c s]; [trivial|].
  cbn [lstrip] in *. destruct (is_space c) eqn:E; [reflexivity|].
  congruence.
Qed.

Lemma parse_space (fuel : nat) (c : ascii) (s : string) :
  is_space c = true -> parse fuel (String c s) = None.
Proof.
  destruct fuel as [|fuel]; [reflexivity|].
  destruct c as [[] [] [] [] [] [] [] []]; intros H;
    first [discriminate H | reflexivity].
Qed.

Lemma json_blank_rejected : @json_rejects_blank reference.
Proof.
  intros s H. simpl. unfold loads. apply strip_empty in H.
  destruct s as [|c s]; [reflexivity|].
  now rewrite parse_space.
Qed.

End ReferenceLaws.

(** ** Results and files *)

Lemma lookup_write_bytes (p q : string) (content : bytes) (w : world) :
  files (write_bytes p content w) !! q
  = if decide (p = q) then Some content else files w !! q.
Proof. unfold write_bytes. cbn [files]. apply lookup_insert. Qed.

Lemma files_draw (w : world) : files (draw w) = files w.
Proof. reflexivity. Qed.

Lemma eqb_empty_false (s : string) :
  s <> EmptyString -> String.eqb s EmptyString = false.
Proof. intros H. now apply String.eqb_neq. Qed.

(** ** The encrypted document store *)

Section SecureStore.
Context `{C : Collaborators}.
Import EncryptedJsonStore.

Lemma write_unfold (self : t) (value : json) (w : world) :
  write self value w
  = draw (write_bytes (_file_path self)
            (utf8_encode (stored_text self value (entropy w))) w).
Proof.
  unfold write, stored_text, sealed.
  now destruct (aes256_encrypt _ _ _).
Qed.

Lemma files_write (self : t) (value : json) (w : world) :
  files (write self value w) !! _file_path self
  = Some (utf8_encode (stored_text self value (entropy w))).
Proof.
  rewrite write_unfold, files_draw, lookup_write_bytes.
  now rewrite decide_True.
Qed.

(** A text the JSON parser accepts is not blank. *)
Lemma parsed_not_blank (raw : string) (v : json) :
  json_rejects_blank -> json_loads raw = Some v ->
  String.eqb (strip raw) EmptyString = false.
Proof.
  intros Hblank Hraw. apply eqb_empty_false. intros E.
  rewrite (Hblank raw E) in Hraw. discriminate.
Qed.

(** The encrypted path of [read] opens what [write] has stored. *)
Lemma read_envelope_stored (self : t) (value : json) (position : nat) :
  json_roundtrip -> base64_roundtrip -> utf8_roundtrip -> cipher_roundtrip ->
  length (_key self) = 32%nat ->
  read_envelope self (stored_text self value position) = Ok value.
Proof.
  intros Hjson Hb64 Hutf8 Hcipher Hkey.
  unfold read_envelope, stored_text.
  rewrite Hjson. cbn.
  rewrite !Hb64. cbn.
  unfold sealed. rewrite Hcipher by exact Hkey. cbn.
  rewrite Hutf8. cbn. now rewrite Hjson.
Qed.

(** Reading a file that holds what [write] stored gives the document back
    and leaves the world as it is. *)
Lemma read_stored (self : t) (value default : json) (position : nat)
    (w : world) :
  json_roundtrip -> json_rejects_blank -> base64_roundtrip ->
  utf8_roundtrip -> cipher_roundtrip ->
  length (_key self) = 32%nat ->
  files w !! _file_path self
    = Some (utf8_encode (stored_text self value position)) ->
  read self default w = (Ok value, w).
Proof.
  intros Hjson Hblank Hb64 Hutf8 Hcipher Hkey Hfile.
  unfold read. rewrite Hfile, Hutf8.
  rewrite (parsed_not_blank (stored_text self value position) _ Hblank
             (Hjson _)).
  now rewrite read_envelope_stored.
Qed.




(** When the encrypted path fails, [read] falls back on the text itself. *)
Lemma read_fallback (self : t) (content : bytes) (raw : string)
    (default : json) (w : world) :
  files w !! _file_path self = Some content ->
  utf8_decode content = Some raw ->
  String.eqb (strip raw) EmptyString = false ->
  is_ok (read_envelope self raw) = false ->
  read self default w
  = match json_loads raw with
    | None => (Ok default, w)
    | Some legacy => (Ok legacy, write self legacy w)
    end.
Proof.
  intros Hfile Hraw Hstrip Hfail. unfold read.
  rewrite Hfile, Hraw, Hstrip.
  destruct (read_envelope self raw); [discriminate | reflexivity].
Qed.


(** C1, what the code does. A file holds an intact envelope, written for
    [x] by a store with another key; the encrypted path of this store does
    not open it. The envelope is itself valid JSON, so the fallback parses
    it: [read] returns the envelope, not [default], and stores it again as
    if it were the document. *)
Theorem read_wrong_key_returns_envelope (self other : EncryptedJsonStore.t)
    (x default : json) (position : nat) (w : world) :
  json_roundtrip -> json_rejects_blank -> utf8_roundtrip ->
  let text := EncryptedJsonStore.stored_text other x position in
  let envelope :=
    EncryptedJsonStore.envelope_of
      (fst (EncryptedJsonStore.sealed other x position))
      (snd (EncryptedJsonStore.sealed other x position)) in
  files w !! EncryptedJsonStore._file_path self = Some (utf8_encode text) ->
  is_ok (EncryptedJsonStore.read_envelope self text) = false ->
  EncryptedJsonStore.read self default w
  = (Ok envelope, EncryptedJsonStore.write self envelope w).
Proof.
  intros Hjson Hblank Hutf8 text envelope Hfile Hfail.
  assert (json_loads text = Some envelope) as Hparsed by apply Hjson.
  rewrite (read_fallback self (utf8_encode text) text)
    by eauto using parsed_not_blank.
  now rewrite Hparsed.
Qed.

(** The part of C1 that holds: a text that is not JSON at all gives the
    default, and the file stays as it is. *)
Lemma read_not_json_returns_default (self : t) (content : bytes)
    (raw : string) (default : json) (w : world) :
  files w !! _file_path self = Some content ->
  utf8_decode content = Some raw ->
  json_loads raw = None ->
  read self default w = (Ok default, w).
Proof.
  intros Hfile Hraw Hnone. unfold read. rewrite Hfile, Hraw.
  destruct (String.eqb (strip raw) EmptyString); [reflexivity|].
  unfold read_envelope. now rewrite Hnone.
Qed.

(** [read_text] stands before the [try]: bytes that are not UTF-8 raise
    past the caller. *)
Lemma read_not_utf8_raises (self : t) (content : bytes) (default : json)
    (w : world) :
  files w !! _file_path self = Some content ->
  utf8_decode content = None ->
  read self default w = (Raise UnicodeDecodeError, w).
Proof. intros Hfile Hraw. unfold read. now rewrite Hfile, Hraw. Qed.

(** A store whose file is absent reads as the default and creates nothing. *)
Lemma read_absent (self : t) (default : json) (w : world) :
  files w !! _file_path self = None ->
  read self default w = (Ok default, w).
Proof. intros Hfile. unfold read. now rewrite Hfile. Qed.

End SecureStore.

(** ** The key manager *)

Section KeyManager.
Context `{C : Collaborators}.
Import SecretKeyManager.

Lemma load_key_existing (self : t) (content : bytes) (w : world) :
  files w !! _key_path self = Some content ->
  load_key self w
  = (if negb (length content =? 32)%nat
     then Raise (ValueError ("Key at " +:+ _key_path self
                             +:+ " must be exactly 32 bytes."))
     else Ok content, w).
Proof.
  intros Hfile. unfold load_key, exists_file, read_bytes.
  rewrite Hfile. cbn [negb]. cbv zeta. rewrite Hfile. cbn [orelse].
  now destruct (length content =? 32)%nat.
Qed.

Lemma load_key_absent (self : t) (w : world) :
  urandom_length ->
  files w !! _key_path self = None ->
  load_key self w
  = (Ok (urandom (entropy w) 32),
     draw (write_bytes (_key_path self) (urandom (entropy w) 32) w)).
Proof.
  intros Hlen Hfile. unfold load_key, exists_file, read_bytes.
  rewrite Hfile. cbn [negb]. cbv zeta.
  rewrite files_draw, lookup_write_bytes, decide_True by reflexivity.
  cbn [orelse]. now rewrite Hlen.
Qed.

(** C8. [load_key] returns a key of exactly 32 bytes; when the key file
    is absent it first creates it with 32 bytes of the entropy source; it
    raises the configuration error exactly when the key file on disk has a
    length other than 32, and raises nothing else; once the file exists a
    call changes nothing, and a call after a successful one returns the
    same bytes. *)
Theorem load_key_spec (self : SecretKeyManager.t) (w : world) :
  urandom_length ->
  let p := SecretKeyManager._key_path self in
  let r := fst (SecretKeyManager.load_key self w) in
  let w' := snd (SecretKeyManager.load_key self w) in
  (forall key, r = Ok key -> length key = 32%nat)
  /\ (files w !! p = None ->
      r = Ok (urandom (entropy w) 32)
      /\ files w' !! p = Some (urandom (entropy w) 32))
  /\ ((exists e, r = Raise e) <->
      (exists content, files w !! p = Some content
                       /\ length content <> 32%nat))
  /\ (forall e, r = Raise e ->
      e = ValueError ("Key at " +:+ p +:+ " must be exactly 32 bytes."))
  /\ (forall content, files w !! p = Some content -> w' = w)
  /\ (forall key, r = Ok key ->
      SecretKeyManager.load_key self w' = (Ok key, w')).
Proof.
  intros Hlen. cbv zeta.
  destruct (files w !! _key_path self) as [content|] eqn:Hfile.
  - rewrite (load_key_existing self content w Hfile). cbn [fst snd].
    destruct (Nat.eqb_spec (length content) 32) as [E|E]; cbn [negb].
    + split; [intros key [= <-]; exact E|].
      split; [discriminate|].
      split; [split; [intros [e He]; discriminate
                     | intros (c & [= <-] & Hne); contradiction]|].
      split; [intros e He; discriminate|].
      split; [reflexivity|].
      intros key [= <-]. rewrite (load_key_existing self content w Hfile).
      now rewrite (proj2 (Nat.eqb_eq _ _) E).
    + split; [intros key Hk; discriminate|].
      split; [discriminate|].
      split; [split; intros _; eauto|].
      split; [intros e [= <-]; reflexivity|].
      split; [reflexivity | discriminate].
  - rewrite (load_key_absent self w Hlen Hfile). cbn [fst snd].
    assert (files (draw (write_bytes (_key_path self)
                           (urandom (entropy w) 32) w)) !! _key_path self
            = Some (urandom (entropy w) 32)) as Hnew
      by (rewrite files_draw, lookup_write_bytes; now rewrite decide_True).
    split; [intros key [= <-]; apply Hlen|].
    split; [intros _; split; [reflexivity | exact Hnew]|].
    split; [split; [intros [e He]; discriminate
                   | intros (c & Hc & _); discriminate]|].
    split; [discriminate|].
    split; [discriminate|].
    intros key [= <-]. rewrite (load_key_existing self _ _ Hnew).
    now rewrite Hlen.
Qed.

End KeyManager.

(** ** Python dicts *)

Lemma key_eqb_str (u : string) (k : json) :
  key_eqb (JStr u) k = true <-> k = JStr u.
Proof.
  split.
  - destruct k; cbn; try discriminate.
    intros H. apply String.eqb_eq in H. now subst.
  - intros ->. cbn. apply String.eqb_refl.
Qed.

Lemma dict_lookup_set (u : string) (v : json) (d : pydict) :
  dict_lookup (JStr u) (dict_set (JStr u) v d) = Some v.
Proof.
  induction d as [|[k' v'] d IH]; cbn [dict_set dict_lookup].
  - now rewrite (proj2 (key_eqb_str u (JStr u)) eq_refl).
  - destruct (key_eqb (JStr u) k') eqn:E; cbn [dict_lookup]; now rewrite E.
Qed.

Lemma dict_values_cons (k v : json) (d : pydict) :
  dict_values ((k, v) :: d) = v :: dict_values d.
Proof. reflexivity. Qed.

Lemma dict_lookup_values (k : json) (d : pydict) (r : json) :
  dict_lookup k d = Some r -> In r (dict_values d).
Proof.
  induction d as [|[k' v'] d IH]; cbn [dict_lookup]; [discriminate|].
  destruct (key_eqb k k'); cbn.
  - intros [= ->]. now left.
  - intros H. right. now apply IH.
Qed.

Lemma dict_values_set (k v : json) (d : pydict) (x : json) :
  In x (dict_values (dict_set k v d)) -> x = v \/ In x (dict_values d).
Proof.
  induction d as [|[k' v'] d IH]; cbn [dict_set].
  - cbn. intros [<-|[]]. now left.
  - destruct (key_eqb k k'); cbn.
    + intros [<-|H]; auto.
    + intros [<-|H]; auto. destruct (IH H); auto.
Qed.

Lemma dict_values_del (k : json) (d : pydict) (x : json) :
  In x (dict_values (dict_del k d)) -> In x (dict_values d).
Proof.
  induction d as [|[k' v'] d IH]; cbn [dict_del]; [trivial|].
  destruct (key_eqb k k'); cbn.
  - auto.
  - intros [<-|H]; auto.
Qed.

(** ** The user store *)

Section UserStore.
Context `{C : Collaborators}.

(** What [save_users] has stored, [list_users] returns. *)
Lemma list_users_saved (self : EncryptedUserStore.t) (users : list json)
    (w : world) :
  json_roundtrip -> json_rejects_blank -> base64_roundtrip ->
  utf8_roundtrip -> cipher_roundtrip ->
  length (EncryptedJsonStore._key (EncryptedUserStore._secure_store self))
    = 32%nat ->
  EncryptedUserStore.list_users self (EncryptedUserStore.save_users self users w)
  = (Ok users, EncryptedUserStore.save_users self users w).
Proof.
  intros Hjson Hblank Hb64 Hutf8 Hcipher Hkey.
  unfold EncryptedUserStore.list_users, EncryptedUserStore.save_users.
  now rewrite (read_stored (EncryptedUserStore._secure_store self)
                 (JObj [("users", JArr users)])
                 EncryptedUserStore.empty_document (entropy w) _
                 Hjson Hblank Hb64 Hutf8 Hcipher Hkey (files_write _ _ _)).
Qed.

End UserStore.

(** ** The Auth Service *)

Section Auth.
Context `{C : Collaborators}.
Import AuthService.

(** A hexadecimal digest holds ASCII characters only. *)
Lemma hexdigest_is_ascii (b : bytes) : is_ascii (hexdigest b) = true.
Proof.
  induction b as [|x b IH]; [reflexivity|].
  change (is_ascii (hexdigest (x :: b)))
    with ((nat_of_ascii (hex_digit (Byte.to_N x / 16)) <? 128)%nat
          && ((nat_of_ascii (hex_digit (Byte.to_N x mod 16)) <? 128)%nat
              && is_ascii (hexdigest b))).
  rewrite IH. destruct x; reflexivity.
Qed.

Lemma sha256_hexdigest_is_ascii (b : bytes) :
  is_ascii (sha256_hexdigest b) = true.
Proof. apply hexdigest_is_ascii. Qed.

Lemma compare_digest_hexdigest (h : string) (b : bytes) :
  compare_digest (JStr h) (sha256_hexdigest b)
  = if is_ascii h then Ok (String.eqb h (sha256_hexdigest b))
    else Raise TypeError.
Proof.
  cbn [compare_digest]. rewrite sha256_hexdigest_is_ascii.
  now rewrite andb_true_r.
Qed.

(** C7, as the code has it. For a stored record of [username] whose salt
    field is the base64 text of [salt] and whose hash field is the [str]
    [h]: when [h] holds ASCII characters only, as every hexadecimal digest
    does, [authenticate] returns the user made of the record's [user_id],
    [name] and [role] exactly when the hash of the salt followed by the
    password is [h], and [None], raising nothing, when the hash differs;
    when [h] holds another character [authenticate] raises [TypeError]; for
    a username that is not stored it returns [None]. *)
Theorem authenticate_spec (self : AuthService.t) (username password : string) :
  (dict_lookup (JStr username) (AuthService._records self) = None ->
   AuthService.authenticate self username password = Ok None)
  /\ (forall (record : json) (salt_b64 h : string) (salt : bytes),
        dict_lookup (JStr username) (AuthService._records self) = Some record ->
        getitem record "salt" = Ok (JStr salt_b64) ->
        b64decode salt_b64 = Some salt ->
        getitem record "password_hash" = Ok (JStr h) ->
        let computed := sha256_hexdigest (salt ++ utf8_encode password) in
        (is_ascii h = false ->
         AuthService.authenticate self username password = Raise TypeError)
        /\ (is_ascii h = true -> computed <> h ->
            AuthService.authenticate self username password = Ok None)
        /\ (forall uid nm rl : json,
              getitem record "user_id" = Ok uid ->
              getitem record "name" = Ok nm ->
              getitem record "role" = Ok rl ->
              let user := {| user_id := uid; name := nm; role := rl |} in
              (computed = h ->
               AuthService.authenticate self username password
               = Ok (Some user))
              /\ (AuthService.authenticate self username password
                  = Ok (Some user) <-> computed = h))).
Proof.
  split.
  - intros Hnone. unfold authenticate. now rewrite Hnone.
  - intros record salt_b64 h salt Hrec Hsalt Hdec Hhash.
    cbv zeta. unfold authenticate, _hash_password.
    rewrite Hrec, Hsalt. cbn [bind py_b64decode]. rewrite Hdec.
    cbn [orelse bind]. rewrite Hhash. cbn [bind].
    rewrite compare_digest_hexdigest.
    pose proof (sha256_hexdigest_is_ascii (salt ++ utf8_encode password))
      as Hcomputed.
    destruct (is_ascii h) eqn:Hascii; cbn [bind].
    + destruct (String.eqb_spec h
                  (sha256_hexdigest (salt ++ utf8_encode password)))
        as [E|E]; cbn [negb].
      * split; [discriminate|]. split; [congruence|].
        intros uid nm rl Huid Hnm Hrl. rewrite Huid, Hnm, Hrl. cbn [bind].
        split; [reflexivity | split; [now intros _ | reflexivity]].
      * split; [discriminate|]. split; [reflexivity|].
        intros uid nm rl Huid Hnm Hrl.
        split; [congruence | split; [discriminate | congruence]].
    + split; [reflexivity|]. split; [discriminate|].
      intros uid nm rl Huid Hnm Hrl.
      split; [|split; [discriminate|]]; intros E; rewrite <- E in Hascii;
        congruence.
Qed.

(** C6. The four refused calls: each raises its error and returns the
    service and the world (the persisted store with it) as they were. *)
Theorem refused_calls_change_nothing (self : AuthService.t) (w : world)
    (username nm rl : string) (password : option string) (full_access : bool) :
  (strip username = EmptyString ->
   AuthService.upsert_user self username nm rl password full_access w
   = (Raise (ValueError "Username is required."), (self, w)))
  /\ (strip username <> EmptyString ->
      dict_lookup (JStr (strip username)) (AuthService._records self) = None ->
      AuthService.supplied password = None ->
      AuthService.upsert_user self username nm rl password full_access w
      = (Raise (ValueError "Password is required for new users."), (self, w)))
  /\ (dict_lookup (JStr username) (AuthService._records self) = None ->
      AuthService.delete_user self username w
      = (Raise (ValueError ("User '" +:+ username +:+ "' does not exist.")),
         (self, w)))
  /\ (forall record : json,
        dict_lookup (JStr username) (AuthService._records self) = Some record ->
        AuthService.is_admin record = Ok true ->
        AuthService.admin_count (dict_values (AuthService._records self)) = Ok 1%nat ->
        AuthService.delete_user self username w
        = (Raise (ValueError "At least one admin account must remain."),
           (self, w))).
Proof.
  repeat apply conj.
  - intros Hempty. unfold upsert_user. now rewrite Hempty.
  - intros Hname Hnew Hpw. unfold upsert_user.
    rewrite (eqb_empty_false _ Hname), Hnew, Hpw. reflexivity.
  - intros Hnone. unfold delete_user. now rewrite Hnone.
  - intros record Hrec Hadmin Hcount. unfold delete_user.
    now rewrite Hrec, Hadmin, Hcount.
Qed.

(** *** [upsert_user] on a stored user, without a password *)

Lemma getitem_truthy (r v : json) (k : string) :
  getitem r k = Ok v -> truthy r = true.
Proof.
  destruct r as [ | | | | |fields]; try discriminate.
  destruct fields; [discriminate | reflexivity].
Qed.

Lemma upsert_user_stored (self : t) (username nm rl : string)
    (password : option string) (full_access : bool) (w : world)
    (record uid h : json) (salt_b64 : string) (salt : bytes) :
  strip username <> EmptyString ->
  supplied password = None ->
  dict_lookup (JStr (strip username)) (_records self) = Some record ->
  getitem record "salt" = Ok (JStr salt_b64) ->
  b64decode salt_b64 = Some salt ->
  getitem record "password_hash" = Ok h ->
  getitem record "user_id" = Ok uid ->
  let entry :=
    new_record (strip username) nm rl uid salt h full_access in
  let self' :=
    with_records self
      (dict_set (JStr (strip username)) entry (_records self)) in
  upsert_user self username nm rl password full_access w
  = (Ok tt, (self', _persist self' w)).
Proof.
  intros Hname Hpw Hrec Hsalt Hdec Hhash Huid. cbv zeta.
  unfold upsert_user.
  rewrite (eqb_empty_false _ Hname), Hrec, Hpw.
  unfold carried_credentials. rewrite Hsalt. cbn [bind py_b64decode].
  rewrite Hdec. cbn [orelse bind]. rewrite Hhash. cbn [bind].
  rewrite (getitem_truthy _ _ _ Huid), Huid. reflexivity.
Qed.

(** C9, as the code has it. With the empty string for a password
    [upsert_user] does exactly what it does with no password; on a stored
    user whose salt field is the base64 text of [salt] it succeeds and the
    new record carries the same salt, password hash and [user_id], the new
    role and [full_access], and for a name the new name, or the username
    when the new name is empty. *)
Theorem upsert_empty_password (self : AuthService.t)
    (username nm rl : string) (full_access : bool) (w : world) :
  AuthService.upsert_user self username nm rl (Some EmptyString) full_access w
  = AuthService.upsert_user self username nm rl None full_access w
  /\ (forall (record uid h : json) (salt : bytes),
        base64_roundtrip ->
        strip username <> EmptyString ->
        dict_lookup (JStr (strip username)) (AuthService._records self)
          = Some record ->
        getitem record "salt" = Ok (JStr (b64encode salt)) ->
        getitem record "password_hash" = Ok h ->
        getitem record "user_id" = Ok uid ->
        exists self' w',
          AuthService.upsert_user self username nm rl (Some EmptyString)
            full_access w = (Ok tt, (self', w'))
          /\ dict_lookup (JStr (strip username)) (AuthService._records self')
             = Some (JObj [("username", JStr (strip username));
                           ("name", JStr (if String.eqb nm EmptyString
                                          then strip username else nm));
                           ("role", JStr rl);
                           ("user_id", uid);
                           ("salt", JStr (b64encode salt));
                           ("password_hash", h);
                           ("full_access", JBool full_access)])).
Proof.
  split; [reflexivity|].
  intros record uid h salt Hb64 Hname Hrec Hsalt Hhash Huid.
  eexists _, _. split.
  - eapply upsert_user_stored; eauto.
  - cbn [_records with_records]. apply dict_lookup_set.
Qed.

(** *** The admin count *)

Lemma is_admin_new_record (username nm rl : string) (uid : json)
    (salt : bytes) (h : json) (full_access : bool) :
  is_admin (new_record username nm rl uid salt h full_access)
  = Ok (String.eqb (lower rl) "admin").
Proof. reflexivity. Qed.

Lemma admin_count_cons (entry : json) (rest : list json) (a : bool) (n : nat) :
  is_admin entry = Ok a -> admin_count rest = Ok n ->
  admin_count (entry :: rest) = Ok (if a then S n else n).
Proof. intros Ha Hn. cbn [admin_count]. now rewrite Ha, Hn. Qed.

Lemma admin_count_cons_inv (entry : json) (rest : list json) (m : nat) :
  admin_count (entry :: rest) = Ok m ->
  exists a n, is_admin entry = Ok a /\ admin_count rest = Ok n
              /\ m = if a then S n else n.
Proof.
  cbn [admin_count].
  destruct (is_admin entry) as [a|]; [|discriminate].
  destruct (admin_count rest) as [n|]; [|discriminate].
  cbn [bind]. intros [= <-]. eauto.
Qed.

Lemma admin_count_member (r : json) (l : list json) (n : nat) :
  In r l -> is_admin r = Ok true -> admin_count l = Ok n -> (1 <= n)%nat.
Proof.
  induction l as [|x l IH] in n |- *; [intros []|].
  intros Hin Hr Hcount.
  apply admin_count_cons_inv in Hcount as (a & m & Ha & Hm & ->).
  destruct Hin as [->|Hin].
  - rewrite Hr in Ha. injection Ha as <-. lia.
  - specialize (IH m Hin Hr Hm). destruct a; lia.
Qed.

(** Replacing the record of a stored user changes the count by the
    difference of the two records. *)
Lemma admin_count_set (u : string) (d : pydict) (r e : json) (a b : bool)
    (n : nat) :
  dict_lookup (JStr u) d = Some r ->
  is_admin r = Ok a -> is_admin e = Ok b ->
  admin_count (dict_values d) = Ok n ->
  admin_count (dict_values (dict_set (JStr u) e d))
  = Ok ((if b then 1 else 0) + (n - (if a then 1 else 0)))%nat.
Proof.
  intros Hrec Ha Hb.
  induction d as [|[k' v'] d IH] in n, Hrec |- *; [discriminate|].
  cbn [dict_lookup dict_set] in *.
  destruct (key_eqb (JStr u) k') eqn:E.
  - injection Hrec as ->. rewrite !dict_values_cons.
    intros Hcount.
    apply admin_count_cons_inv in Hcount as (a' & m & Ha' & Hm & ->).
    rewrite Ha in Ha'. injection Ha' as <-.
    rewrite (admin_count_cons _ _ _ _ Hb Hm).
    f_equal. destruct a, b; lia.
  - rewrite !dict_values_cons. intros Hcount.
    apply admin_count_cons_inv in Hcount as (a' & m & Ha' & Hm & ->).
    rewrite (admin_count_cons _ _ _ _ Ha' (IH _ Hrec Hm)).
    f_equal.
    pose proof (dict_lookup_values _ _ _ Hrec) as Hin.
    destruct a.
    + pose proof (admin_count_member _ _ _ Hin Ha Hm).
      destruct a', b; lia.
    + destruct a', b; lia.
Qed.

(** Deleting a stored user takes its record out of the count. *)
Lemma admin_count_del (u : string) (d : pydict) (r : json) (a : bool)
    (n : nat) :
  dict_lookup (JStr u) d = Some r ->
  is_admin r = Ok a ->
  admin_count (dict_values d) = Ok n ->
  admin_count (dict_values (dict_del (JStr u) d))
  = Ok (n - (if a then 1 else 0))%nat.
Proof.
  intros Hrec Ha.
  induction d as [|[k' v'] d IH] in n, Hrec |- *; [discriminate|].
  cbn [dict_lookup dict_del] in *.
  destruct (key_eqb (JStr u) k') eqn:E.
  - injection Hrec as ->. rewrite !dict_values_cons.
    intros Hcount.
    apply admin_count_cons_inv in Hcount as (a' & m & Ha' & Hm & ->).
    rewrite Ha in Ha'. injection Ha' as <-.
    rewrite Hm. f_equal. destruct a; lia.
  - rewrite !dict_values_cons. intros Hcount.
    apply admin_count_cons_inv in Hcount as (a' & m & Ha' & Hm & ->).
    rewrite (admin_count_cons _ _ _ _ Ha' (IH _ Hrec Hm)).
    f_equal.
    pose proof (dict_lookup_values _ _ _ Hrec) as Hin.
    destruct a.
    + pose proof (admin_count_member _ _ _ Hin Ha Hm).
      destruct a'; lia.
    + destruct a'; lia.
Qed.

(** [delete_user] keeps an admin: the guard the code has on this path. *)
Lemma delete_user_keeps_admin (self self' : t) (username : string)
    (w w' : world) (n : nat) :
  admin_count (dict_values (_records self)) = Ok n -> (1 <= n)%nat ->
  delete_user self username w = (Ok tt, (self', w')) ->
  exists n', admin_count (dict_values (_records self')) = Ok n'
             /\ (1 <= n')%nat.
Proof.
  intros Hcount Hn. unfold delete_user.
  destruct (dict_lookup (JStr username) (_records self)) as [record|] eqn:Hrec;
    [|discriminate].
  destruct (is_admin record) as [a|] eqn:Ha; cbn [bind]; [|discriminate].
  destruct a.
  - rewrite Hcount. cbn [bind].
    destruct (Nat.leb_spec n 1); [discriminate|].
    intros [= <- _]. cbn [_records with_records].
    rewrite (admin_count_del _ _ _ _ _ Hrec Ha Hcount).
    eexists. split; [reflexivity | lia].
  - intros [= <- _]. cbn [_records with_records].
    rewrite (admin_count_del _ _ _ _ _ Hrec Ha Hcount).
    eexists. split; [reflexivity | lia].
Qed.

(** C2, what the code does. [upsert_user] has no such guard: called for
    the only admin with a role that is not admin, and no password, it
    succeeds and the mapping is left without an admin. *)
Theorem upsert_user_demotes_last_admin (self : AuthService.t)
    (username nm rl : string) (full_access : bool) (w : world)
    (record uid h : json) (salt_b64 : string) (salt : bytes) :
  strip username <> EmptyString ->
  dict_lookup (JStr (strip username)) (AuthService._records self)
    = Some record ->
  getitem record "salt" = Ok (JStr salt_b64) ->
  b64decode salt_b64 = Some salt ->
  getitem record "password_hash" = Ok h ->
  getitem record "user_id" = Ok uid ->
  AuthService.is_admin record = Ok true ->
  AuthService.admin_count (dict_values (AuthService._records self))
    = Ok 1%nat ->
  String.eqb (lower rl) "admin" = false ->
  exists self' w',
    AuthService.upsert_user self username nm rl None full_access w
    = (Ok tt, (self', w'))
    /\ AuthService.admin_count (dict_values (AuthService._records self'))
       = Ok 0%nat.
Proof.
  intros Hname Hrec Hsalt Hdec Hhash Huid Hadmin Hcount Hrole.
  eexists _, _. split.
  - eapply upsert_user_stored; eauto.
  - cbn [_records with_records].
    assert (is_admin (new_record (strip username) nm rl uid salt h full_access)
            = Ok false) as Hb
      by (rewrite is_admin_new_record, Hrole; reflexivity).
    now rewrite (admin_count_set _ _ _ _ _ _ _ Hrec Hadmin Hb Hcount).
Qed.

(** *** Entries without a username *)

Lemma unnamed_not_named (entry : json) : unnamed entry -> ~ named entry.
Proof.
  intros (fields & -> & Hu) (k & Hk & Ht). cbn in Hk.
  destruct Hu as [Hu|Hu]; rewrite Hu in Hk; injection Hk as <-;
    discriminate Ht.
Qed.

Lemma named_new_record (username nm rl : string) (uid : json)
    (salt : bytes) (h : json) (full_access : bool) :
  username <> EmptyString ->
  named (new_record username nm rl uid salt h full_access).
Proof.
  intros Hname. exists (JStr username). split; [reflexivity|].
  cbn. now rewrite (eqb_empty_false _ Hname).
Qed.

Lemma named_values_set (k entry : json) (d : pydict) :
  named entry -> Forall named (dict_values d) ->
  Forall named (dict_values (dict_set k entry d)).
Proof.
  intros Hentry Hd. apply List.Forall_forall. intros x Hx.
  apply dict_values_set in Hx as [->|Hx]; [exact Hentry|].
  rewrite List.Forall_forall in Hd. now apply Hd.
Qed.

Lemma named_values_del (k : json) (d : pydict) :
  Forall named (dict_values d) ->
  Forall named (dict_values (dict_del k d)).
Proof.
  intros Hd. apply List.Forall_forall. intros x Hx.
  apply dict_values_del in Hx.
  rewrite List.Forall_forall in Hd. now apply Hd.
Qed.

Lemma load_entries_named (entries : list json) (users m : pydict) :
  Forall named (dict_values users) ->
  load_entries entries users = Ok m ->
  Forall named (dict_values m).
Proof.
  induction entries as [|entry entries IH] in users |- *;
    cbn [load_entries].
  - now intros Hu [= <-].
  - intros Hu.
    destruct (dict_get entry "username" JNull) as [k|] eqn:Hk;
      cbn [bind]; [|discriminate].
    destruct (truthy k) eqn:Ht; cbn [negb]; [|now apply IH].
    destruct (hashable k); cbn [negb]; [|discriminate].
    apply IH. apply named_values_set; [|exact Hu].
    now exists k.
Qed.

Lemma load_entries_ok (entries : list json) (users : pydict) :
  Forall entry_ok entries -> exists m, load_entries entries users = Ok m.
Proof.
  intros H. induction H as [|entry entries (fields & -> & Hu) _ IH]
    in users |- *; cbn [load_entries].
  - eauto.
  - cbn [dict_get].
    destruct (assoc "username" fields) as [k|]; cbn [bind truthy negb].
    + destruct (truthy k) eqn:Ht; cbn [negb]; [|apply IH].
      rewrite (Hu k eq_refl Ht). apply IH.
    + apply IH.
Qed.

Lemma load_users_named (self : t) (w w1 : world) (m : pydict) :
  _load_users self w = (Ok m, w1) -> Forall named (dict_values m).
Proof.
  unfold _load_users.
  destruct (EncryptedUserStore.list_users (_user_store self) w)
    as [[entries|e] w2]; [|discriminate].
  intros [= Hm _]. eapply load_entries_named; [|exact Hm]. constructor.
Qed.

Lemma seed_defaults_store (self self' : t) (w w' : world) (r : result unit) :
  _seed_defaults self w = (r, (self', w')) ->
  _user_store self' = _user_store self.
Proof.
  unfold _seed_defaults, _create_user_record.
  match goal with
  | |- context [by_username ?l ?d] => destruct (by_username l d)
  end; now intros [= _ <- _].
Qed.

Lemma init_named (user_store : EncryptedUserStore.t) (w w' : world) (s : t) :
  init user_store w = (Ok s, w') ->
  _user_store s = user_store /\ Forall named (dict_values (_records s)).
Proof.
  unfold init.
  destruct (_load_users _ w) as [[records|e] w1] eqn:Hload; [|discriminate].
  apply load_users_named in Hload.
  destruct records as [|kv records].
  - destruct (_seed_defaults _ w1) as [[u|e] [self2 w2]] eqn:Hseed;
      [|discriminate].
    destruct (_load_users self2 w2) as [[reloaded|e] w3] eqn:Hreload;
      [|discriminate].
    apply load_users_named in Hreload.
    intros [= <- _]. split; [|exact Hreload].
    cbn [_user_store with_records].
    now rewrite (seed_defaults_store _ _ _ _ _ Hseed).
  - intros [= <- _]. now split.
Qed.

Lemma upsert_user_ok (s s' : t) (username nm rl : string)
    (password : option string) (full_access : bool) (w w' : world) :
  upsert_user s username nm rl password full_access w = (Ok tt, (s', w')) ->
  exists (uid h : json) (salt : bytes) (w2 : world),
    strip username <> EmptyString
    /\ s' = with_records s
              (dict_set (JStr (strip username))
                 (new_record (strip username) nm rl uid salt h full_access)
                 (_records s))
    /\ w' = _persist s' w2.
Proof.
  unfold upsert_user.
  destruct (String.eqb_spec (strip username) EmptyString) as [E|E];
    [discriminate|].
  destruct (dict_lookup (JStr (strip username)) (_records s)) as [r|],
    (supplied password) as [p|]; try discriminate;
    cbv beta iota zeta;
    repeat match goal with
      | |- context [match ?x with _ => _ end] =>
          destruct x as [ [? ?] | ? ] || destruct x
      end;
    try discriminate;
    intros [= <- <-]; eauto 10.
Qed.

Lemma delete_user_ok (s s' : t) (username : string) (w w' : world) :
  delete_user s username w = (Ok tt, (s', w')) ->
  s' = with_records s (dict_del (JStr username) (_records s))
  /\ w' = _persist s' w.
Proof.
  unfold delete_user.
  destruct (dict_lookup (JStr username) (_records s)) as [record|];
    [|discriminate].
  match goal with
  | |- context [match ?g with Ok _ => _ | Raise _ => _ end] =>
      destruct g; [|discriminate]
  end.
  now intros [= <- <-].
Qed.

(** C10. The entries of the User Store whose [username] is missing or
    empty do not reach the mapping: a reload skips them without an error,
    so the mapping a construction or a reload builds holds named records
    only; no username is looked up to such an entry, so it cannot
    authenticate; and a successful [upsert_user] or [delete_user] keeps the
    mapping so and persists exactly the mapping, which leaves the entry out
    of the User Store. *)
Theorem unnamed_records_are_dropped (store : EncryptedUserStore.t) :
  json_roundtrip -> json_rejects_blank -> base64_roundtrip ->
  utf8_roundtrip -> cipher_roundtrip ->
  length (EncryptedJsonStore._key (EncryptedUserStore._secure_store store))
    = 32%nat ->
  (forall (self : AuthService.t) (entries : list json) (w w1 : world),
      EncryptedUserStore.list_users (AuthService._user_store self) w
        = (Ok entries, w1) ->
      Forall AuthService.entry_ok entries ->
      exists records,
        AuthService._load_users self w = (Ok records, w1)
        /\ Forall AuthService.named (dict_values records))
  /\ (forall (w w' : world) (s : AuthService.t),
        AuthService.init store w = (Ok s, w') ->
        AuthService._user_store s = store
        /\ Forall AuthService.named (dict_values (AuthService._records s)))
  /\ (forall (s : AuthService.t) (entry : json),
        Forall AuthService.named (dict_values (AuthService._records s)) ->
        AuthService.unnamed entry ->
        ~ In entry (AuthService.list_users s)
        /\ (forall u, dict_lookup (JStr u) (AuthService._records s)
                      <> Some entry))
  /\ (forall (s s' : AuthService.t) (w w' : world),
        AuthService._user_store s = store ->
        Forall AuthService.named (dict_values (AuthService._records s)) ->
        (exists u nm rl pw fa,
            AuthService.upsert_user s u nm rl pw fa w = (Ok tt, (s', w')))
        \/ (exists u, AuthService.delete_user s u w = (Ok tt, (s', w'))) ->
        AuthService._user_store s' = store
        /\ Forall AuthService.named (dict_values (AuthService._records s'))
        /\ EncryptedUserStore.list_users store w'
           = (Ok (dict_values (AuthService._records s')), w')).
Proof.
  intros Hjson Hblank Hb64 Hutf8 Hcipher Hkey.
  split; [|split; [|split]].
  - intros self entries w w1 Hlist Hok.
    destruct (load_entries_ok entries [] Hok) as [m Hm].
    exists m. unfold _load_users. rewrite Hlist. split; [now rewrite Hm|].
    eapply load_entries_named; [|exact Hm]. constructor.
  - intros w w' s. apply init_named.
  - intros s entry Hnamed Hentry.
    assert (~ In entry (dict_values (_records s))) as Hnot.
    { intros Hin. rewrite List.Forall_forall in Hnamed.
      exact (unnamed_not_named entry Hentry (Hnamed _ Hin)). }
    split; [exact Hnot|].
    intros u Hu. now apply Hnot, (dict_lookup_values (JStr u)).
  - intros s s' w w' Hstore Hnamed [(u & nm & rl & pw & fa & Hop)|(u & Hop)].
    + apply upsert_user_ok in Hop
        as (uid & h & salt & w2 & Hname & -> & ->).
      cbn [_user_store _records with_records]. repeat split.
      * exact Hstore.
      * apply named_values_set; [now apply named_new_record | exact Hnamed].
      * unfold _persist. cbn [_user_store _records with_records].
        rewrite Hstore. now apply list_users_saved.
    + apply delete_user_ok in Hop as (-> & ->).
      cbn [_user_store _records with_records]. repeat split.
      * exact Hstore.
      * now apply named_values_del.
      * unfold _persist. cbn [_user_store _records with_records].
        rewrite Hstore. now apply list_users_saved.
Qed.

End Auth.

(** ** The Evidence Store under concurrent callers *)

Section Evidence.
Context `{C : Collaborators}.
Import EvidenceStore.

Hypothesis Hjson : json_roundtrip.
Hypothesis Hblank : json_rejects_blank.
Hypothesis Hb64 : base64_roundtrip.
Hypothesis Hutf8 : utf8_roundtrip.
Hypothesis Hcipher : cipher_roundtrip.
Variable self : t.
Hypothesis Hkey :
  length (EncryptedJsonStore._key (_secure_store self)) = 32%nat.

Lemma holds_write (data : list json) (w : world) :
  holds self (_write self data w) data.
Proof. exists (entropy w). apply files_write. Qed.

Lemma read_holds (data : list json) (w : world) :
  holds self w data -> _read self w = (Ok data, w).
Proof.
  intros [position Hfile]. unfold _read.
  now rewrite (read_stored _ (JArr data) _ position w).
Qed.

Ltac frame_ok :=
  cbn; rewrite ?elem_of_app, ?list_elem_of_singleton; intros;
  repeat match goal with H : _ /\ _ |- _ => destruct H end;
  repeat split; first [assumption | congruence | tauto].

Lemma thread_ok_acquire payloads done data i j th :
  j <> i ->
  thread_ok payloads done None data j th ->
  thread_ok payloads done (Some i) data j th.
Proof.
  intros Hne. destruct th as [| | | | | | | | |[]|]; frame_ok.
Qed.

Lemma thread_ok_write payloads done data i p j th :
  j <> i ->
  thread_ok payloads done (Some i) data j th ->
  thread_ok payloads (done ++ [i]) (Some i) (data ++ [p]) j th.
Proof.
  intros Hne. destruct th as [| | | | | | | | |[]|]; frame_ok.
Qed.

Lemma thread_ok_release payloads done data i j th :
  j <> i ->
  thread_ok payloads done (Some i) data j th ->
  thread_ok payloads done None data j th.
Proof.
  intros Hne. destruct th as [| | | | | | | | |[]|]; frame_ok.
Qed.

Lemma lookup_set_thread (c : config) (i j : nat) (th th' : thread) :
  set_thread i th' c !! j = Some th ->
  (j = i /\ th = th') \/ (j <> i /\ threads c !! j = Some th).
Proof.
  unfold set_thread. intros H.
  destruct (decide (i = j)) as [->|Hne].
  - left. split; [reflexivity|].
    apply list_lookup_insert_Some in H.
    destruct H as [(_ & <- & _)|(Hne & _)]; [reflexivity | congruence].
  - right. rewrite list_lookup_insert_ne in H by exact Hne. auto.
Qed.

Lemma appended_snoc payloads done i p :
  payloads !! i = Some p ->
  appended payloads (done ++ [i]) = appended payloads done ++ [p].
Proof.
  intros Hp. unfold appended. rewrite map_app. cbn.
  now rewrite nth_lookup, Hp.
Qed.

Lemma invariant_step initial payloads done c i c' :
  invariant self initial payloads done c ->
  step self i c = Some c' ->
  exists done', invariant self initial payloads done' c'.
Proof.
  intros (Hholds & Hnodup & Hlen & Hth & Hlock & Hdone) Hstep.
  unfold step in Hstep.
  destruct (threads c !! i) as [th|] eqn:Hi; [|discriminate].
  pose proof (Hth i th Hi) as Hok.
  pose proof (lookup_lt_Some _ _ _ Hi) as Hlt.
  destruct th as [p|p|p d| | | | | | |[]|]; cbn in Hok; try contradiction.
  - (* takes the lock *)
    destruct Hok as (Hp & Hnot & Hfree).
    destruct (lock c) as [h|] eqn:Hl; [discriminate|].
    injection Hstep as <-. exists done. unfold invariant. cbn [shared lock threads].
    repeat apply conj; try assumption.
    + unfold set_thread. now rewrite length_insert.
    + intros j th Hj. apply lookup_set_thread in Hj as [[-> ->]|[Hne Hj]].
      * cbn. auto.
      * apply thread_ok_acquire; auto.
    + intros j [= <-]. exists (AddLocked p). split; [|reflexivity].
      unfold set_thread. now apply list_lookup_insert_eq.
  - (* reads the file *)
    destruct Hok as (Hp & Hnot & Hheld).
    rewrite (read_holds _ _ Hholds) in Hstep.
    injection Hstep as <-. exists done. unfold invariant. cbn [shared lock threads].
    repeat apply conj; try assumption.
    + unfold set_thread. now rewrite length_insert.
    + intros j th Hj. apply lookup_set_thread in Hj as [[-> ->]|[Hne Hj]].
      * cbn. auto.
      * auto.
    + intros j Hj. rewrite Hheld in Hj. injection Hj as <-.
      exists (AddRead p (initial ++ appended payloads done)).
      split; [|reflexivity].
      unfold set_thread. now apply list_lookup_insert_eq.
  - (* appends and writes *)
    destruct Hok as (Hp & Hnot & Hheld & ->).
    injection Hstep as <-. exists (done ++ [i]). unfold invariant. cbn [shared lock threads].
    rewrite (appended_snoc _ _ _ _ Hp), app_assoc. rewrite Hheld in *.
    repeat apply conj.
    + apply holds_write.
    + apply (proj2 (NoDup_app done [i])).
      split; [exact Hnodup|]. split; [|apply NoDup_singleton].
      intros x Hx Hx'. apply list_elem_of_singleton in Hx'. now subst.
    + unfold set_thread. now rewrite length_insert.
    + intros j th Hj. apply lookup_set_thread in Hj as [[-> ->]|[Hne Hj]].
      * cbn. rewrite elem_of_app, list_elem_of_singleton. auto.
      * apply thread_ok_write; auto.
    + intros j Hj. injection Hj as <-.
      exists AddWritten. split; [|reflexivity].
      unfold set_thread. now apply list_lookup_insert_eq.
    + intros j. rewrite elem_of_app, list_elem_of_singleton.
      intros [Hj| ->]; [auto | lia].
  - (* releases the lock *)
    destruct Hok as (Hin & Hheld).
    injection Hstep as <-. exists done. unfold invariant. cbn [shared lock threads].
    rewrite Hheld in *.
    repeat apply conj; try assumption.
    + unfold set_thread. now rewrite length_insert.
    + intros j th Hj. apply lookup_set_thread in Hj as [[-> ->]|[Hne Hj]].
      * cbn. split; [assumption | discriminate].
      * apply (thread_ok_release _ _ _ i); auto.
    + discriminate.
  - (* has returned *)
    discriminate.
Qed.

Lemma invariant_run initial payloads schedule :
  forall done c,
    invariant self initial payloads done c ->
    exists done', invariant self initial payloads done' (run self schedule c).
Proof.
  induction schedule as [|i schedule IH]; intros done c Hinv; cbn [run].
  - eauto.
  - destruct (step self i c) as [c1|] eqn:Hstep; [|eauto].
    destruct (invariant_step _ _ _ _ _ _ Hinv Hstep) as [done1 Hinv1].
    eauto.
Qed.

Lemma invariant_initial initial payloads w :
  holds self w initial ->
  invariant self initial payloads []
    {| shared := w; lock := None; threads := map AddStart payloads |}.
Proof.
  intros Hholds. unfold invariant. cbn [shared lock threads appended map].
  rewrite app_nil_r. repeat apply conj.
  - exact Hholds.
  - constructor.
  - apply length_map.
  - intros i th Hi.
    change (map AddStart payloads) with (AddStart <$> payloads) in Hi.
    rewrite list_lookup_fmap in Hi.
    destruct (payloads !! i) as [p|] eqn:Hp; [|discriminate].
    cbn in Hi. injection Hi as <-. cbn.
    split; [exact Hp|]. split; [apply not_elem_of_nil | discriminate].
  - discriminate.
  - intros i Hi. now apply not_elem_of_nil in Hi.
Qed.

(** No caller is ever stuck: while some call has not returned, a thread
    can step. *)
Lemma invariant_progress initial payloads done c :
  invariant self initial payloads done c ->
  (exists i th, threads c !! i = Some th /\ finished th = false) ->
  exists i c', step self i c = Some c'.
Proof.
  intros (Hholds & Hnodup & Hlen & Hth & Hlock & Hdone) (i & th & Hi & Hrun).
  destruct (lock c) as [h|] eqn:Hl.
  - destruct (Hlock h eq_refl) as (th' & Hh & Hrun').
    pose proof (Hth h th' Hh) as Hok. exists h.
    unfold step. rewrite Hh.
    destruct th' as [p|p|p d| | | | | | |[]|]; cbn in Hok;
      try contradiction; try discriminate Hrun'.
    + destruct Hok as (_ & _ & Hfree). congruence.
    + rewrite (read_holds _ _ Hholds). eauto.
    + eauto.
    + eauto.
  - pose proof (Hth i th Hi) as Hok. exists i.
    unfold step. rewrite Hi.
    destruct th as [p|p|p d| | | | | | |[]|]; cbn in Hok;
      try contradiction; try discriminate Hrun.
    + rewrite Hl. eauto.
    + destruct Hok as (_ & _ & Hheld). discriminate.
    + destruct Hok as (_ & _ & Hheld & _). discriminate.
    + destruct Hok as (_ & Hheld). discriminate.
Qed.

(** X24. The callers of [add_image] lose nothing: when each of them has
    returned, whatever the interleaving, the file holds the entries of the
    initial list and every payload, each once, and no call has raised. *)
Lemma concurrent_add_image (initial payloads : list json) (w : world)
    (schedule : list nat) :
  let c := run self schedule
             {| shared := w; lock := None;
                threads := map AddStart payloads |} in
  holds self w initial ->
  Forall (fun th => finished th = true) (threads c) ->
  exists data,
    _read self (shared c) = (Ok data, shared c)
    /\ data ≡ₚ initial ++ payloads
    /\ length data = (length initial + length payloads)%nat
    /\ Forall (fun th => th = Returned None) (threads c).
Proof.
  intros c Hholds Hfin.
  destruct (invariant_run _ _ schedule _ _
              (invariant_initial _ payloads _ Hholds))
    as (done & Hh & Hnodup & Hlen & Hth & Hlock & Hdone).
  fold c in Hh, Hlen, Hth, Hlock.
  assert (forall i th, threads c !! i = Some th ->
                       th = Returned None /\ i ∈ done) as Hall.
  { intros i th Hi. pose proof (Hth i th Hi) as Hok.
    rewrite Forall_lookup in Hfin. specialize (Hfin i th Hi).
    destruct th as [p|p|p d| | | | | | |[]|]; cbn in Hok, Hfin;
      try discriminate; try contradiction.
    split; [reflexivity | apply Hok]. }
  assert (done ≡ₚ seq 0 (length payloads)) as Hperm.
  { apply NoDup_Permutation; [exact Hnodup | apply NoDup_seq |].
    intros i. rewrite elem_of_seq. split.
    - intros Hi. split; [lia | now apply Hdone].
    - intros [_ Hi]. rewrite <- Hlen in Hi.
      destruct (lookup_lt_is_Some_2 _ _ Hi) as [th Hth'].
      now apply (Hall i th). }
  exists (initial ++ appended payloads done).
  assert (appended payloads done ≡ₚ payloads) as Hpayloads.
  { unfold appended.
    change (map (fun i => nth i payloads JNull) done)
      with ((fun i => nth i payloads JNull) <$> done).
    rewrite Hperm. clear.
    induction payloads as [|p payloads IH] using rev_ind; [reflexivity|].
    rewrite length_app, Nat.add_comm. cbn [length Nat.add].
    rewrite seq_S, fmap_app. cbn.
    rewrite nth_middle.
    apply Permutation_app; [|reflexivity].
    erewrite list_fmap_ext; [exact IH|].
    intros i j Hj. apply lookup_seq in Hj as [-> Hj]. cbn.
    now rewrite app_nth1. }
  split; [now apply read_holds|].
  split; [now rewrite Hpayloads|].
  split; [rewrite length_app; f_equal; now rewrite Hpayloads|].
  apply Forall_lookup. intros i th Hi. now apply (Hall i th).
Qed.

(** [add_image] and [clear] wait for the lock. *)
Lemma add_image_waits (c : config) (i holder : nat) (p : json) :
  threads c !! i = Some (AddStart p) -> lock c = Some holder ->
  step self i c = None.
Proof. intros Hi Hl. unfold step. now rewrite Hi, Hl. Qed.

Lemma clear_waits (c : config) (i holder : nat) :
  threads c !! i = Some ClearStart -> lock c = Some holder ->
  step self i c = None.
Proof. intros Hi Hl. unfold step. now rewrite Hi, Hl. Qed.

(** C3, what the code does. [list_images] calls [_read] outside
    [with self._lock]: a caller of [list_images] reads the file while
    another caller holds the lock, and the lock stays with its holder. *)
Theorem list_images_reads_without_lock (store : EvidenceStore.t)
    (c : EvidenceStore.config) (i holder : nat) :
  EvidenceStore.threads c !! i = Some EvidenceStore.ListStart ->
  EvidenceStore.lock c = Some holder ->
  exists c',
    EvidenceStore.step store i c = Some c'
    /\ EvidenceStore.lock c' = Some holder
    /\ EvidenceStore.shared c'
       = snd (EvidenceStore._read store (EvidenceStore.shared c))
    /\ EvidenceStore.threads c' !! i
       = Some (match fst (EvidenceStore._read store (EvidenceStore.shared c)) with
               | Ok data => EvidenceStore.ListRead data
               | Raise e => EvidenceStore.Raised e
               end).
Proof.
  intros Hi Hl. pose proof (lookup_lt_Some _ _ _ Hi) as Hlt.
  unfold step. rewrite Hi.
  destruct (_read store (shared c)) as [[data|e] w1];
    eexists; (split; [reflexivity|]); cbn [lock shared threads fst snd];
    (split; [exact Hl|]); (split; [reflexivity|]);
    unfold set_thread; now apply list_lookup_insert_eq.
Qed.

End Evidence.

(** ** What [read] and [write] touch, and what [read] can raise *)

Section SecureStoreFootprint.
Context `{C : Collaborators}.
Import EncryptedJsonStore.

Lemma files_write_other (self : t) (value : json) (w : world) (q : string) :
  q <> _file_path self ->
  files (write self value w) !! q = files w !! q.
Proof.
  intros Hq. rewrite write_unfold, files_draw, lookup_write_bytes.
  now rewrite decide_False by congruence.
Qed.

Lemma entropy_write (self : t) (value : json) (w : world) :
  entropy (write self value w) = S (entropy w).
Proof. now rewrite write_unfold. Qed.

(** The three ways [read] ends: it raises on bytes that are not UTF-8; it
    returns a value and leaves the world alone; it returns the legacy
    document and stores it. *)
Lemma read_outcome (self : t) (default : json) (w : world) :
  (exists content,
      files w !! _file_path self = Some content
      /\ utf8_decode content = None
      /\ read self default w = (Raise UnicodeDecodeError, w))
  \/ (exists value, read self default w = (Ok value, w)
      /\ forall content, files w !! _file_path self = Some content ->
                         utf8_decode content <> None)
  \/ (exists content raw legacy,
        files w !! _file_path self = Some content
        /\ utf8_decode content = Some raw
        /\ json_loads raw = Some legacy
        /\ is_ok (read_envelope self raw) = false
        /\ read self default w = (Ok legacy, write self legacy w)).
Proof.
  unfold read.
  destruct (files w !! _file_path self) as [content|] eqn:Hfile.
  - destruct (utf8_decode content) as [raw|] eqn:Hraw.
    + assert (forall c, Some content = Some c -> utf8_decode c <> None)
        as Hdec by (intros c [= <-]; congruence).
      destruct (String.eqb (strip raw) EmptyString); [right; left; eauto|].
      destruct (read_envelope self raw) as [value|e] eqn:Henv;
        [right; left; eauto|].
      destruct (json_loads raw) as [legacy|] eqn:Hlegacy;
        [|right; left; eauto].
      right. right. exists content, raw, legacy.
      rewrite Henv. auto.
    + left. eauto.
  - right. left. exists default. split; [reflexivity | discriminate].
Qed.

(** X1. A store file whose bytes are not UTF-8 stops every reader:
    [read_text] stands before the [try] of [read], so [read] raises
    [UnicodeDecodeError], and with it [list_images] and [add_image] of an
    Evidence Store on the file, [list_users] of a User Store on it and the
    construction of the Auth Service; nothing is written. *)
Theorem undecodable_file_stops_every_reader (store : EncryptedJsonStore.t)
    (content : bytes) (w : world) :
  files w !! EncryptedJsonStore._file_path store = Some content ->
  utf8_decode content = None ->
  (forall default,
      EncryptedJsonStore.read store default w
      = (Raise UnicodeDecodeError, w))
  /\ (forall evidence image,
        EvidenceStore._secure_store evidence = store ->
        EvidenceStore.list_images evidence w = (Raise UnicodeDecodeError, w)
        /\ EvidenceStore.add_image evidence image w
           = (Raise UnicodeDecodeError, w))
  /\ (forall users,
        EncryptedUserStore._secure_store users = store ->
        EncryptedUserStore.list_users users w = (Raise UnicodeDecodeError, w)
        /\ AuthService.init users w = (Raise UnicodeDecodeError, w)).
Proof.
  intros Hfile Hraw.
  assert (forall default, read store default w = (Raise UnicodeDecodeError, w))
    as Hread by (intros default; now apply (read_not_utf8_raises _ content)).
  split; [exact Hread|]. split.
  - intros evidence image <-.
    unfold EvidenceStore.list_images, EvidenceStore.add_image,
      EvidenceStore._read.
    now rewrite Hread.
  - intros users <-.
    assert (EncryptedUserStore.list_users users w
            = (Raise UnicodeDecodeError, w)) as Hlist
      by (unfold EncryptedUserStore.list_users; now rewrite Hread).
    split; [exact Hlist|].
    unfold AuthService.init, AuthService._load_users.
    cbn [AuthService._user_store]. now rewrite Hlist.
Qed.

(** X2. A store touches no file but its own: [write] and [read] leave
    every other path as it was, and [read] leaves the whole world as it was
    unless it returns a legacy document, which it stores by [write]. *)
Theorem store_touches_only_its_file (self : EncryptedJsonStore.t)
    (value default : json) (w : world) (q : string) :
  q <> EncryptedJsonStore._file_path self ->
  files (EncryptedJsonStore.write self value w) !! q = files w !! q
  /\ files (snd (EncryptedJsonStore.read self default w)) !! q = files w !! q
  /\ (snd (EncryptedJsonStore.read self default w) = w
      \/ exists legacy,
           EncryptedJsonStore.read self default w
           = (Ok legacy, EncryptedJsonStore.write self legacy w)).
Proof.
  intros Hq. split; [now apply files_write_other|].
  destruct (read_outcome self default w)
    as [(content & _ & _ & ->)
       |[(v & -> & _)
        |(content & raw & legacy & _ & _ & _ & _ & ->)]];
    cbn [fst snd]; eauto using files_write_other.
Qed.

Lemma files_read_other (self : t) (default : json) (w : world) (q : string) :
  q <> _file_path self ->
  files (snd (read self default w)) !! q = files w !! q.
Proof.
  intros Hq.
  destruct (read_outcome self default w)
    as [(content & _ & _ & ->)
       |[(v & -> & _)
        |(content & raw & legacy & _ & _ & _ & _ & ->)]];
    cbn [snd]; auto using files_write_other.
Qed.

(** What [read] returns is decided by the bytes of its file. *)
Lemma read_depends_on_file (self : t) (default : json) (w1 w2 : world) :
  files w1 !! _file_path self = files w2 !! _file_path self ->
  fst (read self default w1) = fst (read self default w2).
Proof.
  intros Hfile. unfold read. rewrite Hfile.
  destruct (files w2 !! _file_path self) as [content|]; [|reflexivity].
  destruct (utf8_decode content) as [raw|]; [|reflexivity].
  destruct (String.eqb (strip raw) EmptyString); [reflexivity|].
  destruct (read_envelope self raw); [reflexivity|].
  now destruct (json_loads raw).
Qed.

(** X3. Two stores on different files do not interfere: what one reads is
    the same before and after the other writes, or reads (and migrates). *)
Theorem stores_do_not_interfere (a b : EncryptedJsonStore.t)
    (x default default' : json) (w : world) :
  EncryptedJsonStore._file_path a <> EncryptedJsonStore._file_path b ->
  fst (EncryptedJsonStore.read a default (EncryptedJsonStore.write b x w))
  = fst (EncryptedJsonStore.read a default w)
  /\ fst (EncryptedJsonStore.read a default
            (snd (EncryptedJsonStore.read b default' w)))
     = fst (EncryptedJsonStore.read a default w).
Proof.
  intros Hpath. split; apply read_depends_on_file.
  - now apply files_write_other.
  - now apply files_read_other.
Qed.

End SecureStoreFootprint.

(** ** Construction of the stores *)

Section Construction.
Context `{C : Collaborators}.

Hypothesis Hjson : json_roundtrip.
Hypothesis Hblank : json_rejects_blank.
Hypothesis Hb64 : base64_roundtrip.
Hypothesis Hutf8 : utf8_roundtrip.
Hypothesis Hcipher : cipher_roundtrip.
Hypothesis Hlen : urandom_length.

(** [load_key] succeeds only with the 32 bytes the key file then holds. *)
Lemma load_key_ok (self : SecretKeyManager.t) (w w1 : world) (key : bytes) :
  SecretKeyManager.load_key self w = (Ok key, w1) ->
  length key = 32%nat
  /\ files w1 !! SecretKeyManager._key_path self = Some key
  /\ (forall q, q <> SecretKeyManager._key_path self ->
        files w1 !! q = files w !! q).
Proof.
  destruct (files w !! SecretKeyManager._key_path self) as [content|] eqn:Hfile.
  - rewrite (load_key_existing self content w Hfile).
    destruct (Nat.eqb_spec (length content) 32) as [E|E]; cbn [negb];
      intros [= <- <-]; auto.
  - rewrite (load_key_absent self w Hlen Hfile). intros [= <- <-].
    split; [apply Hlen|]. split.
    + rewrite files_draw, lookup_write_bytes. now rewrite decide_True.
    + intros q Hq. rewrite files_draw, lookup_write_bytes.
      now rewrite decide_False by congruence.
Qed.

Lemma evidence_init_ok (home : string) (db_path : option string)
    (w w1 : world) (self : EvidenceStore.t) :
  EvidenceStore.init home db_path w = (Ok self, w1) ->
  exists key,
    self = {| EvidenceStore._db_path := evidence_db_path home db_path;
              EvidenceStore._secure_store :=
                EncryptedJsonStore.init (evidence_db_path home db_path) key |}
    /\ length key = 32%nat
    /\ files w1 !! evidence_key_path home = Some key
    /\ is_Some (files w1 !! evidence_db_path home db_path).
Proof.
  unfold EvidenceStore.init. fold (evidence_db_path home db_path).
  destruct (SecretKeyManager.load_key _ w) as [[key|e] w0] eqn:Hload;
    [|discriminate].
  destruct (load_key_ok _ _ _ _ Hload) as (Hkey & Hfile & Hframe).
  cbv zeta. unfold exists_file.
  destruct (files w0 !! evidence_db_path home db_path) as [content|] eqn:Hdb;
    cbn [negb]; intros [= <- <-]; exists key.
  - rewrite Hdb. eauto.
  - repeat split; auto.
    + destruct (decide (evidence_key_path home = evidence_db_path home db_path))
        as [E|E].
      * unfold evidence_key_path in E. congruence.
      * now rewrite files_write_other.
    + pose proof (files_write
                    (EncryptedJsonStore.init (evidence_db_path home db_path) key)
                    (JArr []) w0) as Hw.
      cbn [EncryptedJsonStore._file_path EncryptedJsonStore.init] in Hw.
      rewrite Hw. eauto.
Qed.

Lemma evidence_init_existing (home : string) (db_path : option string)
    (w : world) (key : bytes) :
  files w !! evidence_key_path home = Some key ->
  length key = 32%nat ->
  is_Some (files w !! evidence_db_path home db_path) ->
  EvidenceStore.init home db_path w
  = (Ok {| EvidenceStore._db_path := evidence_db_path home db_path;
           EvidenceStore._secure_store :=
             EncryptedJsonStore.init (evidence_db_path home db_path) key |},
     w).
Proof.
  intros Hfile Hkey [content Hdb].
  unfold EvidenceStore.init. fold (evidence_db_path home db_path).
  rewrite (load_key_existing _ key w Hfile), Hkey. cbn [Nat.eqb negb].
  cbv zeta. unfold exists_file. now rewrite Hdb.
Qed.


(** [load_key] succeeds when the key file is absent or holds 32 bytes. *)
Lemma load_key_succeeds (self : SecretKeyManager.t) (w : world) :
  (forall content, files w !! SecretKeyManager._key_path self = Some content ->
                   length content = 32%nat) ->
  exists key w1, SecretKeyManager.load_key self w = (Ok key, w1).
Proof.
  intros Hcontent.
  destruct (files w !! SecretKeyManager._key_path self) as [content|] eqn:Hfile.
  - rewrite (load_key_existing self content w Hfile), (Hcontent content eq_refl).
    cbn [Nat.eqb negb]. eauto.
  - rewrite (load_key_absent self w Hlen Hfile). eauto.
Qed.

(** X4. [EvidenceStore.__init__] on a home directory without a store file
    writes the baseline: the store it returns lists no image, its key has
    the 32 bytes the key file holds, and no file but the key file and the
    store file has changed. The key file is absent or holds 32 bytes. *)
Theorem evidence_store_starts_empty (home : string) (db_path : option string)
    (w : world) :
  evidence_key_path home <> evidence_db_path home db_path ->
  (forall content, files w !! evidence_key_path home = Some content ->
                   length content = 32%nat) ->
  files w !! evidence_db_path home db_path = None ->
  exists self w',
    EvidenceStore.init home db_path w = (Ok self, w')
    /\ EvidenceStore._db_path self = evidence_db_path home db_path
    /\ files w' !! evidence_key_path home
       = Some (EncryptedJsonStore._key (EvidenceStore._secure_store self))
    /\ EvidenceStore.list_images self w' = (Ok [], w')
    /\ (forall q, q <> evidence_key_path home ->
                  q <> evidence_db_path home db_path ->
                  files w' !! q = files w !! q).
Proof.
  intros Hpaths Hcontent Hdb.
  destruct (load_key_succeeds _ w Hcontent) as (key & w0 & Hload).
  destruct (load_key_ok _ _ _ _ Hload) as (Hkey & Hfile & Hframe).
  unfold EvidenceStore.init. fold (evidence_db_path home db_path).
  rewrite Hload. cbv zeta. unfold exists_file.
  rewrite (Hframe (evidence_db_path home db_path))
    by (intros E; apply Hpaths; symmetry; exact E).
  rewrite Hdb. cbn [negb].
  set (store := EncryptedJsonStore.init (evidence_db_path home db_path) key).
  set (self := EvidenceStore.Build _ store).
  exists self, (EncryptedJsonStore.write store (JArr []) w0).
  split; [reflexivity|]. split; [reflexivity|]. split; [|split].
  - rewrite (files_write_other store) by exact Hpaths. exact Hfile.
  - unfold EvidenceStore.list_images.
    rewrite (read_holds Hjson Hblank Hb64 Hutf8 Hcipher self Hkey []);
      [reflexivity|].
    apply (holds_write self []).
  - intros q Hq1 Hq2.
    rewrite (files_write_other store) by exact Hq2. now apply Hframe.
Qed.

Lemma users_init_unfold (home : string) (store_path : option string)
    (w : world) :
  EncryptedUserStore.init home store_path w
  = match SecretKeyManager.load_key
            (SecretKeyManager.init "users" ((home +:+ "/.ram_acq") +:+ "/keys"))
            w with
    | (Raise e, w1) => (Raise e, w1)
    | (Ok key, w1) =>
        let secure_store :=
          EncryptedJsonStore.init (users_store_path home store_path) key in
        let self := EncryptedUserStore.Build
                      (users_store_path home store_path) secure_store in
        if negb (exists_file (users_store_path home store_path) w1)
        then (Ok self,
              EncryptedJsonStore.write secure_store
                EncryptedUserStore.empty_document w1)
        else (Ok self, w1)
    end.
Proof. reflexivity. Qed.

(** X5. [EncryptedUserStore.__init__] on a home directory without a store
    file writes the baseline document: the store it returns lists no user,
    and no file but the key file and the store file has changed. *)
Theorem user_store_starts_empty (home : string) (store_path : option string)
    (w : world) :
  users_key_path home <> users_store_path home store_path ->
  (forall content, files w !! users_key_path home = Some content ->
                   length content = 32%nat) ->
  files w !! users_store_path home store_path = None ->
  exists self w',
    EncryptedUserStore.init home store_path w = (Ok self, w')
    /\ EncryptedUserStore._store_path self = users_store_path home store_path
    /\ files w' !! users_key_path home
       = Some (EncryptedJsonStore._key (EncryptedUserStore._secure_store self))
    /\ EncryptedUserStore.list_users self w' = (Ok [], w')
    /\ (forall q, q <> users_key_path home ->
                  q <> users_store_path home store_path ->
                  files w' !! q = files w !! q).
Proof.
  intros Hpaths Hcontent Hdb.
  destruct (load_key_succeeds _ w Hcontent) as (key & w0 & Hload).
  destruct (load_key_ok _ _ _ _ Hload) as (Hkey & Hfile & Hframe).
  rewrite users_init_unfold, Hload. cbv zeta. unfold exists_file.
  rewrite (Hframe (users_store_path home store_path))
    by (intros E; apply Hpaths; symmetry; exact E).
  rewrite Hdb. cbn [negb].
  set (store := EncryptedJsonStore.init (users_store_path home store_path) key).
  set (self := EncryptedUserStore.Build _ store).
  exists self,
    (EncryptedJsonStore.write store EncryptedUserStore.empty_document w0).
  split; [reflexivity|]. split; [reflexivity|]. split; [|split].
  - rewrite (files_write_other store) by exact Hpaths. exact Hfile.
  - apply (list_users_saved self [] w0); assumption.
  - intros q Hq1 Hq2.
    rewrite (files_write_other store) by exact Hq2. now apply Hframe.
Qed.


(** X6. A key file whose length is not 32 stops the construction of either
    store with the configuration error, and nothing is written: the store
    file is neither created nor changed. *)
Theorem short_key_stops_construction (home : string)
    (db_path store_path : option string) (w : world) (content : bytes) :
  length content <> 32%nat ->
  (files w !! evidence_key_path home = Some content ->
   EvidenceStore.init home db_path w
   = (Raise (ValueError ("Key at " +:+ evidence_key_path home
                         +:+ " must be exactly 32 bytes.")), w))
  /\ (files w !! users_key_path home = Some content ->
      EncryptedUserStore.init home store_path w
      = (Raise (ValueError ("Key at " +:+ users_key_path home
                            +:+ " must be exactly 32 bytes.")), w)).
Proof.
  intros Hshort. apply Nat.eqb_neq in Hshort. split; intros Hfile.
  - unfold EvidenceStore.init.
    now rewrite (load_key_existing _ content w Hfile), Hshort.
  - rewrite users_init_unfold.
    now rewrite (load_key_existing _ content w Hfile), Hshort.
Qed.

Lemma add_image_holds (self : EvidenceStore.t) (image : MemoryImage)
    (data : list json) (w : world) :
  length (EncryptedJsonStore._key (EvidenceStore._secure_store self)) = 32%nat ->
  EvidenceStore.holds self w data ->
  EvidenceStore.add_image self image w
  = (Ok tt,
     EvidenceStore._write self (data ++ [EvidenceStore.payload_of image]) w).
Proof.
  intros Hkey Hholds. unfold EvidenceStore.add_image.
  now rewrite (read_holds Hjson Hblank Hb64 Hutf8 Hcipher self Hkey data w).
Qed.

(** X7. Constructing the Evidence Store again after [add_image], as a
    restart of the application does, returns the same store with the same
    key, writes nothing, and the store still reads the list with the new
    payload at its end. *)
Theorem reopened_store_keeps_images (home : string) (db_path : option string)
    (w w1 : world) (self : EvidenceStore.t) (data : list json)
    (image : MemoryImage) :
  evidence_key_path home <> evidence_db_path home db_path ->
  EvidenceStore.init home db_path w = (Ok self, w1) ->
  EvidenceStore.holds self w1 data ->
  exists w2,
    EvidenceStore.add_image self image w1 = (Ok tt, w2)
    /\ EvidenceStore.init home db_path w2 = (Ok self, w2)
    /\ EvidenceStore._read self w2
       = (Ok (data ++ [EvidenceStore.payload_of image]), w2).
Proof.
  intros Hpaths Hinit Hholds.
  destruct (evidence_init_ok _ _ _ _ _ Hinit) as (key & -> & Hkey & Hfile & _).
  set (store := EncryptedJsonStore.init (evidence_db_path home db_path) key)
    in *.
  set (self := EvidenceStore.Build _ store) in *.
  rewrite (add_image_holds self image data w1 Hkey Hholds).
  eexists. split; [reflexivity|]. split.
  - apply evidence_init_existing; [|exact Hkey|].
    + unfold EvidenceStore._write.
      rewrite (files_write_other store) by exact Hpaths. exact Hfile.
    + destruct (holds_write self (data ++ [EvidenceStore.payload_of image]) w1)
        as [position Hw].
      cbn [EvidenceStore._secure_store self EncryptedJsonStore._file_path
             store EncryptedJsonStore.init] in Hw.
      rewrite Hw. eauto.
  - apply (read_holds Hjson Hblank Hb64 Hutf8 Hcipher self Hkey), holds_write.
Qed.

End Construction.

(** ** One caller of the Evidence Store *)

Section EvidenceSequential.
Context `{C : Collaborators}.

Hypothesis Hjson : json_roundtrip.
Hypothesis Hblank : json_rejects_blank.
Hypothesis Hb64 : base64_roundtrip.
Hypothesis Hutf8 : utf8_roundtrip.
Hypothesis Hcipher : cipher_roundtrip.

Lemma to_model_payload_of (image : MemoryImage) (n : Z) :
  size_bytes image = JNum n ->
  fromisoformat (isoformat (captured_at image)) = Some (captured_at image) ->
  EvidenceStore._to_model (EvidenceStore.payload_of image) = Ok image.
Proof.
  intros Hsize Htime. destruct image as [i s r t c p z].
  cbn [size_bytes captured_at] in Hsize, Htime. subst z.
  unfold EvidenceStore._to_model, EvidenceStore.payload_of.
  cbn [image_id sha256 recovered_by captured_at case_id path size_bytes].
  cbn [getitem dict_get assoc String.eqb Ascii.eqb Bool.eqb orelse bind
       py_fromisoformat py_int].
  now rewrite Htime.
Qed.

(** X8. [_to_model] inverts the dict [add_image] builds: the payloads of
    a list of images are read back as these images, in the same order, when
    the size of each is an [int] and [fromisoformat] reads its capture time
    back from the [isoformat] text. *)
Theorem to_models_inverts_payloads (images : list MemoryImage) :
  Forall (fun image =>
            (exists n, size_bytes image = JNum n)
            /\ fromisoformat (isoformat (captured_at image))
               = Some (captured_at image)) images ->
  EvidenceStore.to_models (map EvidenceStore.payload_of images) = Ok images.
Proof.
  induction 1 as [|image images [[n Hsize] Htime] _ IH]; [reflexivity|].
  cbn [map EvidenceStore.to_models].
  now rewrite (to_model_payload_of image n Hsize Htime), IH.
Qed.

Lemma to_models_app (data more : list json) (images others : list MemoryImage) :
  EvidenceStore.to_models data = Ok images ->
  EvidenceStore.to_models more = Ok others ->
  EvidenceStore.to_models (data ++ more) = Ok (images ++ others).
Proof.
  revert images. induction data as [|entry data IH]; intros images.
  - cbn. now intros [= <-].
  - cbn [EvidenceStore.to_models app].
    destruct (EvidenceStore._to_model entry) as [m|e]; [|discriminate].
    cbn [bind].
    destruct (EvidenceStore.to_models data) as [ms|e]; [|discriminate].
    cbn [bind]. intros [= <-] Hmore.
    now rewrite (IH ms eq_refl Hmore).
Qed.

Variable self : EvidenceStore.t.
Hypothesis Hkey :
  length (EncryptedJsonStore._key (EvidenceStore._secure_store self)) = 32%nat.

(** X9. [add_image] by a single caller appends: the store then lists the
    images it listed before, in the same order, followed by the new one. *)
Theorem add_image_appends (image : MemoryImage) (n : Z) (data : list json)
    (images : list MemoryImage) (w : world) :
  size_bytes image = JNum n ->
  fromisoformat (isoformat (captured_at image)) = Some (captured_at image) ->
  EvidenceStore.holds self w data ->
  EvidenceStore.list_images self w = (Ok images, w)
  -> exists w',
       EvidenceStore.add_image self image w = (Ok tt, w')
       /\ EvidenceStore.holds self w'
            (data ++ [EvidenceStore.payload_of image])
       /\ EvidenceStore.list_images self w' = (Ok (images ++ [image]), w').
Proof.
  intros Hsize Htime Hholds Hlist.
  unfold EvidenceStore.list_images in Hlist.
  rewrite (read_holds Hjson Hblank Hb64 Hutf8 Hcipher self Hkey data w Hholds)
    in Hlist.
  injection Hlist as Hmodels.
  unfold EvidenceStore.add_image.
  rewrite (read_holds Hjson Hblank Hb64 Hutf8 Hcipher self Hkey data w Hholds).
  eexists. split; [reflexivity|]. split; [apply holds_write|].
  unfold EvidenceStore.list_images.
  rewrite (read_holds Hjson Hblank Hb64 Hutf8 Hcipher self Hkey _ _
             (holds_write self _ w)).
  rewrite (to_models_app data [EvidenceStore.payload_of image] images [image]
             Hmodels); [reflexivity|].
  cbn [EvidenceStore.to_models].
  now rewrite (to_model_payload_of image n Hsize Htime).
Qed.

(** X10. [clear] empties the store whatever its file held before, be it
    absent, written with another key or not text at all: after it the store
    lists no image, and an image added next is the only one listed. *)
Theorem clear_empties_any_store (image : MemoryImage) (n : Z) (w : world) :
  size_bytes image = JNum n ->
  fromisoformat (isoformat (captured_at image)) = Some (captured_at image) ->
  let w1 := EvidenceStore.clear self w in
  EvidenceStore.list_images self w1 = (Ok [], w1)
  /\ exists w2,
       EvidenceStore.add_image self image w1 = (Ok tt, w2)
       /\ EvidenceStore.list_images self w2 = (Ok [image], w2).
Proof.
  intros Hsize Htime w1.
  assert (EvidenceStore.holds self w1 []) as Hholds by apply holds_write.
  assert (EvidenceStore.list_images self w1 = (Ok [], w1)) as Hlist.
  { unfold EvidenceStore.list_images.
    now rewrite (read_holds Hjson Hblank Hb64 Hutf8 Hcipher self Hkey [] w1). }
  split; [exact Hlist|].
  unfold EvidenceStore.add_image.
  rewrite (read_holds Hjson Hblank Hb64 Hutf8 Hcipher self Hkey [] w1 Hholds).
  eexists. split; [reflexivity|].
  unfold EvidenceStore.list_images.
  rewrite (read_holds Hjson Hblank Hb64 Hutf8 Hcipher self Hkey _ _
             (holds_write self _ w1)).
  cbn [app EvidenceStore.to_models].
  now rewrite (to_model_payload_of image n Hsize Htime).
Qed.

End EvidenceSequential.

(** ** Callers of [add_image] at the same time: what the lock gives *)

Section EvidenceConcurrent.
Context `{C : Collaborators}.
Import EvidenceStore.

Hypothesis Hjson : json_roundtrip.
Hypothesis Hblank : json_rejects_blank.
Hypothesis Hb64 : base64_roundtrip.
Hypothesis Hutf8 : utf8_roundtrip.
Hypothesis Hcipher : cipher_roundtrip.
Variable self : t.
Hypothesis Hkey :
  length (EncryptedJsonStore._key (_secure_store self)) = 32%nat.

(** X11. Callers of [add_image] never deadlock: whatever the scheduler
    has done so far, while some call has not returned some thread can take
    a step. *)
Theorem add_image_callers_never_deadlock (initial payloads : list json)
    (w : world) (schedule : list nat) :
  let c := run self schedule
             {| shared := w; lock := None;
                threads := map AddStart payloads |} in
  holds self w initial ->
  (exists i th, threads c !! i = Some th /\ finished th = false) ->
  exists i c', step self i c = Some c'.
Proof.
  intros c Hholds Hrunning.
  destruct (invariant_run Hjson Hblank Hb64 Hutf8 Hcipher self Hkey
              initial payloads schedule _ _
              (invariant_initial self initial payloads w Hholds))
    as (done & Hinv).
  exact (invariant_progress Hjson Hblank Hb64 Hutf8 Hcipher self Hkey
           initial payloads done c Hinv Hrunning).
Qed.

(** X12. Mutual exclusion: whatever the scheduler does, at most one
    caller of [add_image] is between taking the lock and releasing it, and
    it is the holder of the lock. *)
Theorem add_image_mutual_exclusion (initial payloads : list json)
    (w : world) (schedule : list nat) (i j : nat) (thi thj : thread) :
  let c := run self schedule
             {| shared := w; lock := None;
                threads := map AddStart payloads |} in
  holds self w initial ->
  threads c !! i = Some thi -> in_critical_section thi = true ->
  threads c !! j = Some thj -> in_critical_section thj = true ->
  i = j /\ lock c = Some i.
Proof.
  intros c Hholds Hi Hci Hj Hcj.
  destruct (invariant_run Hjson Hblank Hb64 Hutf8 Hcipher self Hkey
              initial payloads schedule _ _
              (invariant_initial self initial payloads w Hholds))
    as (done & _ & _ & _ & Hth & _).
  fold c in Hth.
  pose proof (Hth i thi Hi) as Hoki. pose proof (Hth j thj Hj) as Hokj.
  assert (lock c = Some i) as Hli.
  { destruct thi as [p|p|p d| | | | | | |[]|]; cbn in Hoki, Hci;
      try discriminate; try contradiction; tauto. }
  assert (lock c = Some j) as Hlj.
  { destruct thj as [p|p|p d| | | | | | |[]|]; cbn in Hokj, Hcj;
      try discriminate; try contradiction; tauto. }
  split; [congruence | exact Hli].
Qed.

End EvidenceConcurrent.

(** ** The mapping of the Auth Service as a dict *)

Lemma key_eqb_sym (a b : json) : key_eqb a b = key_eqb b a.
Proof.
  destruct a as [|[]| | | |], b as [|[]| | | |]; cbn;
    auto using String.eqb_sym, Z.eqb_sym.
Qed.

Lemma dict_lookup_set_other (u v : string) (x : json) (d : pydict) :
  u <> v ->
  dict_lookup (JStr v) (dict_set (JStr u) x d) = dict_lookup (JStr v) d.
Proof.
  intros Hne. induction d as [|[k y] d IH]; cbn [dict_set dict_lookup].
  - cbn. now rewrite (proj2 (String.eqb_neq v u)) by congruence.
  - destruct (key_eqb (JStr u) k) eqn:Ek; cbn [dict_lookup].
    + apply key_eqb_str in Ek as ->. cbn.
      now rewrite (proj2 (String.eqb_neq v u)) by congruence.
    + now rewrite IH.
Qed.

Lemma dict_lookup_del_other (u v : string) (d : pydict) :
  u <> v ->
  dict_lookup (JStr v) (dict_del (JStr u) d) = dict_lookup (JStr v) d.
Proof.
  intros Hne. induction d as [|[k y] d IH]; cbn [dict_del dict_lookup];
    [reflexivity|].
  destruct (key_eqb (JStr u) k) eqn:Ek; cbn [dict_lookup].
  - apply key_eqb_str in Ek as ->. cbn.
    now rewrite (proj2 (String.eqb_neq v u)) by congruence.
  - now rewrite IH.
Qed.

Lemma dict_lookup_del_none (k' k : json) (d : pydict) :
  dict_lookup k' d = None -> dict_lookup k' (dict_del k d) = None.
Proof.
  induction d as [|[k0 y] d IH]; cbn [dict_del dict_lookup]; [reflexivity|].
  destruct (key_eqb k' k0) eqn:E0; [discriminate|]. intros Hnone.
  destruct (key_eqb k k0); [exact Hnone|].
  cbn [dict_lookup]. rewrite E0. auto.
Qed.

Lemma dict_lookup_set_none (k' k x : json) (d : pydict) :
  key_eqb k' k = false ->
  dict_lookup k' d = None -> dict_lookup k' (dict_set k x d) = None.
Proof.
  intros Hne. induction d as [|[k0 y] d IH]; cbn [dict_set dict_lookup].
  - now rewrite Hne.
  - destruct (key_eqb k' k0) eqn:E0; [discriminate|]. intros Hnone.
    destruct (key_eqb k k0); cbn [dict_lookup]; rewrite E0; auto.
Qed.

Lemma dict_wf_set (k x : json) (d : pydict) :
  dict_wf d -> dict_wf (dict_set k x d).
Proof.
  induction d as [|[k0 y] d IH]; cbn [dict_set dict_wf]; [auto|].
  intros [Hnone Hwf]. destruct (key_eqb k k0) eqn:E0; cbn [dict_wf].
  - auto.
  - split; [|auto]. apply dict_lookup_set_none; [|exact Hnone].
    now rewrite key_eqb_sym.
Qed.

Lemma dict_wf_del (k : json) (d : pydict) :
  dict_wf d -> dict_wf (dict_del k d).
Proof.
  induction d as [|[k0 y] d IH]; cbn [dict_del dict_wf]; [auto|].
  intros [Hnone Hwf]. destruct (key_eqb k k0); [exact Hwf|].
  cbn [dict_wf]. auto using dict_lookup_del_none.
Qed.

Lemma dict_lookup_del_same (u : string) (d : pydict) :
  dict_wf d -> dict_lookup (JStr u) (dict_del (JStr u) d) = None.
Proof.
  induction d as [|[k0 y] d IH]; cbn [dict_del dict_wf]; [reflexivity|].
  intros [Hnone Hwf]. destruct (key_eqb (JStr u) k0) eqn:E0.
  - apply key_eqb_str in E0 as ->. exact Hnone.
  - cbn [dict_lookup]. rewrite E0. auto.
Qed.

Lemma filed_set (u : string) (x : json) (d : pydict) :
  u <> EmptyString ->
  dict_get x "username" JNull = Ok (JStr u) ->
  filed_by_username d -> filed_by_username (dict_set (JStr u) x d).
Proof.
  intros Hu Hx. unfold filed_by_username.
  induction d as [|[k0 y] d IH]; cbn [dict_set]; intros Hd.
  - constructor; [|constructor]. exists u. auto.
  - apply Forall_cons in Hd as [Hhead Htail].
    destruct (key_eqb (JStr u) k0) eqn:E0.
    + apply key_eqb_str in E0 as ->. constructor; [|exact Htail].
      exists u. auto.
    + constructor; auto.
Qed.

Lemma filed_del (k : json) (d : pydict) :
  filed_by_username d -> filed_by_username (dict_del k d).
Proof.
  unfold filed_by_username.
  induction d as [|[k0 y] d IH]; cbn [dict_del]; intros Hd; [constructor|].
  apply Forall_cons in Hd as [Hhead Htail].
  destruct (key_eqb k k0); [exact Htail|]. constructor; auto.
Qed.

(** A key that equals no key of the dict goes last. *)
Lemma dict_set_fresh (k x : json) (d : pydict) :
  Forall (fun kv => key_eqb k (fst kv) = false) d ->
  dict_set k x d = d ++ [(k, x)].
Proof.
  induction d as [|[k0 y] d IH]; cbn [dict_set app]; [reflexivity|].
  intros Hd. apply Forall_cons in Hd as [Hhead Htail]. cbn [fst] in Hhead.
  now rewrite Hhead, IH.
Qed.

Lemma dict_wf_app_fresh (acc : pydict) (k x : json) (d : pydict) :
  dict_wf (acc ++ (k, x) :: d) ->
  Forall (fun kv => key_eqb k (fst kv) = false) acc.
Proof.
  induction acc as [|[k0 y] acc IH]; cbn [app dict_wf]; [constructor|].
  intros [Hnone Hwf]. constructor; [|auto]. cbn [fst].
  rewrite key_eqb_sym. clear -Hnone.
  induction acc as [|[k1 z] acc IH]; cbn [app dict_lookup] in Hnone.
  - now destruct (key_eqb k0 k).
  - destruct (key_eqb k0 k1); [discriminate | auto].
Qed.

(** [_load_users] on the values of a consistent mapping builds the mapping
    again. *)
Lemma load_entries_values (d acc : pydict) :
  consistent (acc ++ d) ->
  AuthService.load_entries (dict_values d) acc = Ok (acc ++ d).
Proof.
  revert acc. induction d as [|[k x] d IH]; intros acc [Hwf Hfiled].
  - cbn. now rewrite app_nil_r.
  - cbn [dict_values map snd AuthService.load_entries].
    pose proof Hfiled as Hx. unfold filed_by_username in Hx.
    apply Forall_app in Hx as [_ Hx]. apply Forall_cons in Hx as [Hx _].
    destruct Hx as (u & Hk & Hu & Hget). cbn [fst snd] in Hk, Hget. subst k.
    rewrite Hget. cbn [bind truthy hashable negb].
    rewrite (eqb_empty_false u Hu). cbn [negb].
    rewrite (dict_set_fresh _ _ _ (dict_wf_app_fresh _ _ _ _ Hwf)).
    fold (dict_values d). rewrite IH; rewrite <- app_assoc; [reflexivity|].
    split; assumption.
Qed.

Lemma load_entries_consistent (entries : list json) :
  Forall str_named entries ->
  forall acc m,
    consistent acc ->
    AuthService.load_entries entries acc = Ok m -> consistent m.
Proof.
  induction 1 as [|entry entries (fields & -> & Hname) _ IH];
    intros acc m Hacc; cbn [AuthService.load_entries].
  - now intros [= <-].
  - cbn [dict_get bind].
    destruct (assoc "username" fields) as [k|] eqn:Hk; cbn [truthy negb];
      [|apply IH; exact Hacc].
    destruct (truthy k) eqn:Ht; cbn [negb]; [|apply IH; exact Hacc].
    destruct (Hname k eq_refl Ht) as [u ->]. cbn [hashable negb].
    apply IH. destruct Hacc as [Hwf Hfiled].
    split; [now apply dict_wf_set|].
    apply filed_set; [| |exact Hfiled].
    + cbn in Ht. intros ->. discriminate.
    + cbn [dict_get]. now rewrite Hk.
Qed.

(** ** The Auth Service: what its operations compose to *)

Section AuthFurther.
Context `{C : Collaborators}.
Import AuthService.

Lemma upsert_user_with_password (s s' : t) (username nm rl p : string)
    (full_access : bool) (w w' : world) :
  p <> EmptyString ->
  upsert_user s username nm rl (Some p) full_access w = (Ok tt, (s', w')) ->
  exists (uid : json) (w2 : world),
    strip username <> EmptyString
    /\ s' = with_records s
              (dict_set (JStr (strip username))
                 (new_record (strip username) nm rl uid
                    (urandom (entropy w) 16)
                    (JStr (_hash_password p (urandom (entropy w) 16)))
                    full_access)
                 (_records s))
    /\ w' = _persist s' w2.
Proof.
  intros Hp. unfold upsert_user, supplied.
  rewrite (eqb_empty_false p Hp).
  destruct (String.eqb_spec (strip username) EmptyString) as [E|E];
    [discriminate|].
  destruct (dict_lookup (JStr (strip username)) (_records s)) as [r|];
    cbv beta iota zeta;
    repeat match goal with
      | |- context [match ?x with _ => _ end] =>
          destruct x as [ [? ?] | ? ] || destruct x
      end;
    try discriminate;
    intros [= <- <-]; eauto 10.
Qed.

Lemma authenticate_new_record (s : t) (u nm rl p : string) (uid : json)
    (salt : bytes) (full_access : bool) :
  base64_roundtrip ->
  dict_lookup (JStr u) (_records s)
  = Some (new_record u nm rl uid salt (JStr (_hash_password p salt))
            full_access) ->
  authenticate s u p
  = Ok (Some {| user_id := uid; name := JStr (name_or nm u);
                role := JStr rl |}).
Proof.
  intros Hb64 Hrec. unfold authenticate. rewrite Hrec.
  unfold new_record.
  cbn [getitem assoc String.eqb Ascii.eqb Bool.eqb orelse bind py_b64decode].
  rewrite Hb64. cbn [orelse bind]. unfold _hash_password.
  rewrite compare_digest_hexdigest, sha256_hexdigest_is_ascii.
  now rewrite String.eqb_refl.
Qed.

Lemma authenticate_depends_on_record (s s' : t) (u p : string) :
  dict_lookup (JStr u) (_records s') = dict_lookup (JStr u) (_records s) ->
  authenticate s' u p = authenticate s u p.
Proof. intros Hrec. unfold authenticate. now rewrite Hrec. Qed.

(** X13. After [upsert_user] with a password the user logs in with that
    password, as the user of the new name and role; what [authenticate]
    answers for every other username is what it answered before. *)
Theorem upsert_then_authenticate (s s' : AuthService.t)
    (username nm rl p : string) (full_access : bool) (w w' : world) :
  base64_roundtrip ->
  p <> EmptyString ->
  AuthService.upsert_user s username nm rl (Some p) full_access w
  = (Ok tt, (s', w')) ->
  (exists uid,
     AuthService.authenticate s' (strip username) p
     = Ok (Some {| user_id := uid;
                   name := JStr (AuthService.name_or nm (strip username));
                   role := JStr rl |}))
  /\ (forall v q, v <> strip username ->
        AuthService.authenticate s' v q = AuthService.authenticate s v q).
Proof.
  intros Hb64 Hp Hupsert.
  destruct (upsert_user_with_password _ _ _ _ _ _ _ _ _ Hp Hupsert)
    as (uid & w2 & Hname & -> & _).
  split.
  - exists uid. eapply authenticate_new_record; [exact Hb64|].
    cbn [with_records _records]. apply dict_lookup_set.
  - intros v q Hv. apply authenticate_depends_on_record.
    cbn [with_records _records]. apply dict_lookup_set_other. congruence.
Qed.

(** What a successful [authenticate] says of the stored record. *)
Lemma authenticate_ok (s : t) (u p : string) (user : User) :
  authenticate s u p = Ok (Some user) ->
  exists record salt_b64 salt,
    dict_lookup (JStr u) (_records s) = Some record
    /\ getitem record "salt" = Ok (JStr salt_b64)
    /\ b64decode salt_b64 = Some salt
    /\ getitem record "password_hash" = Ok (JStr (_hash_password p salt))
    /\ getitem record "user_id" = Ok (user_id user)
    /\ getitem record "name" = Ok (name user)
    /\ getitem record "role" = Ok (role user).
Proof.
  unfold authenticate.
  destruct (dict_lookup (JStr u) (_records s)) as [record|]; [|discriminate].
  destruct (getitem record "salt") as [[| | |salt_b64| |]|] eqn:Hsalt;
    cbn [bind py_b64decode]; try discriminate.
  destruct (b64decode salt_b64) as [salt|] eqn:Hdec; cbn [orelse bind];
    [|discriminate].
  destruct (getitem record "password_hash") as [[| | |h| |]|] eqn:Hhash;
    cbn [bind]; try discriminate.
  unfold _hash_password at 1. rewrite compare_digest_hexdigest.
  destruct (is_ascii h); cbn [bind]; [|discriminate].
  fold (_hash_password p salt).
  destruct (String.eqb_spec h (_hash_password p salt)) as [->|]; cbn [negb];
    [|discriminate].
  destruct (getitem record "user_id") as [uid|] eqn:Huid; cbn [bind];
    [|discriminate].
  destruct (getitem record "name") as [n|] eqn:Hn; cbn [bind];
    [|discriminate].
  destruct (getitem record "role") as [r|] eqn:Hr; cbn [bind];
    [|discriminate].
  intros [= <-]. cbn [user_id name role]. eauto 10.
Qed.

(** X14. [upsert_user] without a password, on a user who logs in with
    password [p], succeeds and keeps the password: the user still logs in
    with [p], under the same [user_id], with the new name and role. *)
Theorem upsert_without_password_keeps_login (s : AuthService.t)
    (username nm rl p : string) (password : option string)
    (full_access : bool) (w : world) (user : User) :
  base64_roundtrip ->
  strip username <> EmptyString ->
  AuthService.supplied password = None ->
  AuthService.authenticate s (strip username) p = Ok (Some user) ->
  exists s' w',
    AuthService.upsert_user s username nm rl password full_access w
    = (Ok tt, (s', w'))
    /\ AuthService.authenticate s' (strip username) p
       = Ok (Some {| user_id := user_id user;
                     name := JStr (AuthService.name_or nm (strip username));
                     role := JStr rl |}).
Proof.
  intros Hb64 Hname Hpw Hlogin.
  destruct (authenticate_ok _ _ _ _ Hlogin)
    as (record & salt_b64 & salt & Hrec & Hsalt & Hdec & Hhash & Huid & _).
  pose proof (upsert_user_stored s username nm rl password full_access w
                record (user_id user) _ salt_b64 salt
                Hname Hpw Hrec Hsalt Hdec Hhash Huid) as Hupsert.
  cbv zeta in Hupsert. rewrite Hupsert.
  eexists _, _. split; [reflexivity|].
  eapply authenticate_new_record; [exact Hb64|].
  cbn [with_records _records]. apply dict_lookup_set.
Qed.

(** X15. [delete_user] removes the user and nobody else: on a mapping
    with one record per username, the deleted user no longer logs in with
    any password, and [authenticate] answers for every other username what
    it answered before. *)
Theorem delete_user_removes_only_the_user (s s' : AuthService.t)
    (username : string) (w w' : world) :
  dict_wf (AuthService._records s) ->
  AuthService.delete_user s username w = (Ok tt, (s', w')) ->
  (forall p, AuthService.authenticate s' username p = Ok None)
  /\ (forall v q, v <> username ->
        AuthService.authenticate s' v q = AuthService.authenticate s v q).
Proof.
  intros Hwf Hdelete.
  destruct (delete_user_ok _ _ _ _ _ Hdelete) as [-> _].
  split.
  - intros p. unfold authenticate. cbn [with_records _records].
    now rewrite dict_lookup_del_same.
  - intros v q Hv. apply authenticate_depends_on_record.
    cbn [with_records _records]. apply dict_lookup_del_other. congruence.
Qed.

(** X16. The guard of [delete_user]: for a stored user it refuses exactly
    when the user is an admin and at most one admin is stored, and changes
    nothing then; otherwise it succeeds, the number of admins falls by one
    when the user was an admin and stays as it is when not, so that an
    admin remains when there was one. *)
Theorem delete_user_guard (s : AuthService.t) (username : string) (w : world)
    (record : json) (a : bool) (n : nat) :
  dict_lookup (JStr username) (AuthService._records s) = Some record ->
  AuthService.is_admin record = Ok a ->
  AuthService.admin_count (dict_values (AuthService._records s)) = Ok n ->
  if a && (n <=? 1)%nat
  then AuthService.delete_user s username w
       = (Raise (ValueError "At least one admin account must remain."),
          (s, w))
  else exists s' w',
         AuthService.delete_user s username w = (Ok tt, (s', w'))
         /\ AuthService.admin_count
              (dict_values (AuthService._records s'))
            = Ok (n - (if a then 1 else 0))%nat
         /\ (1 <= n -> 1 <= n - (if a then 1 else 0))%nat.
Proof.
  intros Hrec Hadmin Hcount. unfold delete_user.
  rewrite Hrec, Hadmin. cbn [bind].
  destruct a; cbn [andb].
  - rewrite Hcount. cbn [bind].
    destruct (Nat.leb_spec n 1) as [Hle|Hgt]; [reflexivity|].
    eexists _, _. split; [reflexivity|]. cbn [with_records _records].
    split; [|lia].
    exact (admin_count_del username _ record true n Hrec Hadmin Hcount).
  - eexists _, _. split; [reflexivity|]. cbn [with_records _records].
    split; [|lia].
    exact (admin_count_del username _ record false n Hrec Hadmin Hcount).
Qed.


Lemma upsert_user_consistent (s s' : t) (username nm rl : string)
    (password : option string) (full_access : bool) (w w' : world) :
  consistent (_records s) ->
  upsert_user s username nm rl password full_access w = (Ok tt, (s', w')) ->
  consistent (_records s').
Proof.
  intros [Hwf Hfiled] Hupsert.
  destruct (upsert_user_ok _ _ _ _ _ _ _ _ _ Hupsert)
    as (uid & h & salt & w2 & Hname & -> & _).
  cbn [with_records _records]. split; [now apply dict_wf_set|].
  apply filed_set; [exact Hname|reflexivity|exact Hfiled].
Qed.

Lemma delete_user_consistent (s s' : t) (username : string) (w w' : world) :
  consistent (_records s) ->
  delete_user s username w = (Ok tt, (s', w')) ->
  consistent (_records s').
Proof.
  intros [Hwf Hfiled] Hdelete.
  destruct (delete_user_ok _ _ _ _ _ Hdelete) as [-> _].
  cbn [with_records _records]. split; [now apply dict_wf_del|].
  now apply filed_del.
Qed.

(** X17. The mapping stays a dict with one record per username, each
    filed under its own [username] field: [upsert_user] and [delete_user]
    keep it so. *)
Theorem records_stay_consistent (s : AuthService.t) :
  consistent (AuthService._records s) ->
  (forall s' username nm rl password full_access w w',
     AuthService.upsert_user s username nm rl password full_access w
     = (Ok tt, (s', w')) ->
     consistent (AuthService._records s'))
  /\ (forall s' username w w',
        AuthService.delete_user s username w = (Ok tt, (s', w')) ->
        consistent (AuthService._records s')).
Proof.
  intros Hs. split.
  - intros s' username nm rl password full_access w w'.
    now apply upsert_user_consistent.
  - intros s' username w w'. now apply delete_user_consistent.
Qed.

Lemma dict_set_not_empty (k x : json) (d : pydict) : dict_set k x d <> [].
Proof.
  destruct d as [|[k0 y] d]; cbn [dict_set]; [discriminate|].
  destruct (key_eqb k k0); discriminate.
Qed.

(** What [_persist] stores is what [__init__] loads. *)
Lemma persisted_reloads (s : t) (w : world) :
  json_roundtrip -> json_rejects_blank -> base64_roundtrip ->
  utf8_roundtrip -> cipher_roundtrip ->
  length (EncryptedJsonStore._key
            (EncryptedUserStore._secure_store (_user_store s))) = 32%nat ->
  consistent (_records s) ->
  _records s <> [] ->
  init (_user_store s) (_persist s w) = (Ok s, _persist s w).
Proof.
  intros Hjson Hblank Hb64 Hutf8 Hcipher Hkey Hs Hne.
  destruct s as [store d]. cbn [_user_store _records] in *.
  unfold init, _load_users, _persist. cbn [_user_store _records].
  rewrite list_users_saved by assumption.
  rewrite (load_entries_values d []) by exact Hs.
  cbn [app]. destruct d as [|kv d]; [congruence | reflexivity].
Qed.

(** X18. A change of the mapping survives a restart: constructing the
    service again on the world [upsert_user] or [delete_user] leaves gives
    the service they returned, and writes nothing. For [delete_user] a
    user is left; with none left the defaults are seeded. *)
Theorem mutations_survive_restart (s : AuthService.t) :
  json_roundtrip -> json_rejects_blank -> base64_roundtrip ->
  utf8_roundtrip -> cipher_roundtrip ->
  length (EncryptedJsonStore._key
            (EncryptedUserStore._secure_store (AuthService._user_store s)))
  = 32%nat ->
  consistent (AuthService._records s) ->
  (forall s' username nm rl password full_access w w',
     AuthService.upsert_user s username nm rl password full_access w
     = (Ok tt, (s', w')) ->
     AuthService.init (AuthService._user_store s') w' = (Ok s', w'))
  /\ (forall s' username w w',
        AuthService.delete_user s username w = (Ok tt, (s', w')) ->
        AuthService._records s' <> [] ->
        AuthService.init (AuthService._user_store s') w' = (Ok s', w')).
Proof.
  intros Hjson Hblank Hb64 Hutf8 Hcipher Hkey Hs. split.
  - intros s' username nm rl password full_access w w' Hupsert.
    pose proof (upsert_user_consistent _ _ _ _ _ _ _ _ _ Hs Hupsert) as Hs'.
    destruct (upsert_user_ok _ _ _ _ _ _ _ _ _ Hupsert)
      as (uid & h & salt & w2 & Hname & E & ->).
    apply persisted_reloads; auto.
    + now rewrite E.
    + rewrite E. cbn [with_records _records].
      apply dict_set_not_empty.
  - intros s' username w w' Hdelete Hne.
    pose proof (delete_user_consistent _ _ _ _ _ Hs Hdelete) as Hs'.
    destruct (delete_user_ok _ _ _ _ _ Hdelete) as [E ->].
    apply persisted_reloads; auto. now rewrite E.
Qed.

End AuthFurther.

(** ** The Auth Service: construction *)

Section AuthConstruction.
Context `{C : Collaborators}.
Import AuthService.

Hypothesis Hjson : json_roundtrip.
Hypothesis Hblank : json_rejects_blank.
Hypothesis Hb64 : base64_roundtrip.
Hypothesis Hutf8 : utf8_roundtrip.
Hypothesis Hcipher : cipher_roundtrip.
Variable store : EncryptedUserStore.t.
Hypothesis Hkey :
  length (EncryptedJsonStore._key (EncryptedUserStore._secure_store store))
  = 32%nat.

(** [__init__] on a store none of whose entries is loaded. *)
Lemma init_seeds (entries : list json) (w w1 : world) :
  EncryptedUserStore.list_users store w = (Ok entries, w1) ->
  load_entries entries [] = Ok [] ->
  let admin :=
    fst (_create_user_record "admin" "Administrator" "Admin" "admin123"
           "u_admin" true w1) in
  let investigator :=
    fst (_create_user_record "investigator" "Investigator" "Investigator"
           "invest123" "u_inv" false (draw w1)) in
  let w' := EncryptedUserStore.save_users store [admin; investigator]
              (draw (draw w1)) in
  init store w
  = (Ok {| _user_store := store;
           _records := [(JStr "admin", admin);
                        (JStr "investigator", investigator)] |}, w').
Proof.
  intros Hlist Hnone. cbv zeta.
  unfold init, _load_users. cbn [_user_store]. rewrite Hlist, Hnone.
  unfold _seed_defaults, _create_user_record.
  cbn [with_records _user_store _records fst snd].
  cbn [by_username getitem assoc String.eqb Ascii.eqb Bool.eqb orelse bind
       dict_set].
  cbn [with_records _user_store _records].
  rewrite list_users_saved by assumption.
  reflexivity.
Qed.


Lemma seeded_logins (admin_salt investigator_salt : bytes) :
  let s :=
    {| _user_store := store;
       _records :=
         [(JStr "admin",
           JObj [("username", JStr "admin"); ("name", JStr "Administrator");
                 ("role", JStr "Admin"); ("user_id", JStr "u_admin");
                 ("salt", JStr (b64encode admin_salt));
                 ("password_hash",
                  JStr (_hash_password "admin123" admin_salt));
                 ("full_access", JBool true)]);
          (JStr "investigator",
           JObj [("username", JStr "investigator");
                 ("name", JStr "Investigator");
                 ("role", JStr "Investigator"); ("user_id", JStr "u_inv");
                 ("salt", JStr (b64encode investigator_salt));
                 ("password_hash",
                  JStr (_hash_password "invest123" investigator_salt));
                 ("full_access", JBool false)])] |} in
  authenticate s "admin" "admin123"
  = Ok (Some {| user_id := JStr "u_admin"; name := JStr "Administrator";
                role := JStr "Admin" |})
  /\ authenticate s "investigator" "invest123"
     = Ok (Some {| user_id := JStr "u_inv"; name := JStr "Investigator";
                   role := JStr "Investigator" |})
  /\ admin_count (list_users s) = Ok 1%nat
  /\ consistent (_records s).
Proof.
  intros s. unfold authenticate, list_users, s. cbn [_records].
  cbn [dict_lookup key_eqb String.eqb Ascii.eqb Bool.eqb getitem assoc orelse
       bind py_b64decode].
  rewrite !Hb64.
  cbn [orelse bind getitem assoc String.eqb Ascii.eqb Bool.eqb].
  unfold _hash_password.
  rewrite !compare_digest_hexdigest, !sha256_hexdigest_is_ascii.
  rewrite !String.eqb_refl. cbn [negb bind].
  split; [reflexivity|]. split; [reflexivity|]. split; [reflexivity|].
  split.
  - cbn. auto.
  - repeat constructor; cbn [fst snd]; eexists; (split; [reflexivity|]);
      (split; [discriminate | reflexivity]).
Qed.

(** X19. [__init__] on a store none of whose entries is loaded (an absent
    or empty store, say) seeds the two default accounts, in this order, and
    persists them: [admin] logs in with [admin123] and [investigator] with
    [invest123], one admin is stored, and the store lists what the service
    lists. *)
Theorem init_seeds_default_accounts (entries : list json) (w w1 : world) :
  EncryptedUserStore.list_users store w = (Ok entries, w1) ->
  AuthService.load_entries entries [] = Ok [] ->
  exists s w',
    AuthService.init store w = (Ok s, w')
    /\ map fst (AuthService._records s) = [JStr "admin"; JStr "investigator"]
    /\ AuthService.authenticate s "admin" "admin123"
       = Ok (Some {| user_id := JStr "u_admin"; name := JStr "Administrator";
                     role := JStr "Admin" |})
    /\ AuthService.authenticate s "investigator" "invest123"
       = Ok (Some {| user_id := JStr "u_inv"; name := JStr "Investigator";
                     role := JStr "Investigator" |})
    /\ AuthService.admin_count (AuthService.list_users s) = Ok 1%nat
    /\ EncryptedUserStore.list_users store w'
       = (Ok (AuthService.list_users s), w').
Proof.
  intros Hlist Hnone.
  pose proof (init_seeds entries w w1 Hlist Hnone) as Hinit.
  cbv zeta in Hinit. eexists _, _. split; [exact Hinit|].
  split; [reflexivity|].
  destruct (seeded_logins (urandom (entropy w1) 16)
              (urandom (entropy (draw w1)) 16))
    as (Hadmin & Hinvestigator & Hcount & _).
  split; [exact Hadmin|]. split; [exact Hinvestigator|].
  split; [exact Hcount|].
  now apply list_users_saved.
Qed.

(** X20. [__init__] on a store whose entries have [str] usernames builds
    a mapping with one record per username, each filed under its own
    [username] field. *)
Theorem init_builds_consistent_records (entries : list json) (w w1 w' : world)
    (s : AuthService.t) :
  EncryptedUserStore.list_users store w = (Ok entries, w1) ->
  Forall str_named entries ->
  AuthService.init store w = (Ok s, w') ->
  consistent (AuthService._records s).
Proof.
  intros Hlist Hentries.
  destruct (load_entries entries []) as [m|e] eqn:Hload.
  - assert (consistent m) as Hm.
    { apply (load_entries_consistent entries Hentries [] m); [|exact Hload].
      split; constructor. }
    destruct m as [|kv m].
    + rewrite (init_seeds entries w w1 Hlist Hload). intros [= <- _].
      exact (proj2 (proj2 (proj2
               (seeded_logins (urandom (entropy w1) 16)
                  (urandom (entropy (draw w1)) 16))))).
    + unfold init, _load_users. cbn [_user_store]. rewrite Hlist, Hload.
      now intros [= <- _].
  - unfold init, _load_users. cbn [_user_store]. rewrite Hlist, Hload.
    discriminate.
Qed.

(** X21. A User Store file that holds an envelope sealed with another
    key, which the key of this store does not open, is taken for a store
    without users: [__init__] seeds the two default accounts over it, and
    [admin] logs in with [admin123]. *)
Theorem foreign_user_store_is_reseeded (other : EncryptedJsonStore.t)
    (document : json) (position : nat) (w : world) :
  let text := EncryptedJsonStore.stored_text other document position in
  files w !! EncryptedJsonStore._file_path
               (EncryptedUserStore._secure_store store)
  = Some (utf8_encode text) ->
  is_ok (EncryptedJsonStore.read_envelope
           (EncryptedUserStore._secure_store store) text) = false ->
  exists s w',
    AuthService.init store w = (Ok s, w')
    /\ map fst (AuthService._records s) = [JStr "admin"; JStr "investigator"]
    /\ AuthService.authenticate s "admin" "admin123"
       = Ok (Some {| user_id := JStr "u_admin"; name := JStr "Administrator";
                     role := JStr "Admin" |})
    /\ EncryptedUserStore.list_users store w'
       = (Ok (AuthService.list_users s), w').
Proof.
  intros text Hfile Hfail.
  assert (json_loads text
          = Some (EncryptedJsonStore.envelope_of
                    (fst (EncryptedJsonStore.sealed other document position))
                    (snd (EncryptedJsonStore.sealed other document position))))
    as Hparsed by apply Hjson.
  assert (exists w1, EncryptedUserStore.list_users store w = (Ok [], w1))
    as [w1 Hlist].
  { unfold EncryptedUserStore.list_users.
    rewrite (read_fallback _ (utf8_encode text) text)
      by eauto using parsed_not_blank.
    rewrite Hparsed. eexists. reflexivity. }
  pose proof (init_seeds [] w w1 Hlist eq_refl) as Hinit.
  cbv zeta in Hinit. eexists _, _. split; [exact Hinit|].
  split; [reflexivity|].
  destruct (seeded_logins (urandom (entropy w1) 16)
              (urandom (entropy (draw w1)) 16))
    as (Hadmin & _).
  split; [exact Hadmin|].
  now apply list_users_saved.
Qed.

End AuthConstruction.

(** ** The login dialog *)

Lemma string_app_inj_l (a x y : string) : a +:+ x = a +:+ y -> x = y.
Proof.
  induction a as [|c a IH]; cbn [append]; [auto|].
  intros [= E]. auto.
Qed.

(** The default store file of a home directory is not its key file. *)
Lemma users_paths_differ (home : string) :
  users_key_path home <> users_store_path home None.
Proof.
  unfold users_key_path, users_store_path, SecretKeyManager.init.
  cbn [SecretKeyManager._key_path].
  rewrite !ReferenceLaws.append_assoc.
  intros E. apply string_app_inj_l in E. discriminate E.
Qed.

Lemma evidence_paths_differ (home : string) :
  evidence_key_path home <> evidence_db_path home None.
Proof.
  unfold evidence_key_path, evidence_db_path, SecretKeyManager.init.
  cbn [SecretKeyManager._key_path].
  rewrite !ReferenceLaws.append_assoc.
  intros E. apply string_app_inj_l in E. discriminate E.
Qed.

Section Login.
Context `{C : Collaborators}.
Import LoginDialog.

(** X22. The first run: in a home directory with no key file and no
    User Store, the dialog comes up, and the default administrator logs in
    with [admin123], white space around the username being ignored: the
    dialog is accepted and hands out the user [u_admin]. *)
Theorem first_run_login (home username_text : string) (w : world) :
  json_roundtrip -> json_rejects_blank -> base64_roundtrip ->
  utf8_roundtrip -> cipher_roundtrip -> urandom_length ->
  files w !! users_key_path home = None ->
  files w !! users_store_path home None = None ->
  strip username_text = "admin" ->
  exists dialog w' dialog',
    LoginDialog.init home w = (Ok dialog, w')
    /\ LoginDialog._on_login
         (LoginDialog.typed dialog username_text "admin123") = Ok dialog'
    /\ LoginDialog.accepted dialog' = true
    /\ LoginDialog.get_authenticated_user dialog'
       = Some {| user_id := JStr "u_admin"; name := JStr "Administrator";
                 role := JStr "Admin" |}.
Proof.
  intros Hjson Hblank Hb64 Hutf8 Hcipher Hlen Hkeyfile Hstorefile Hname.
  assert (forall content : bytes,
            files w !! users_key_path home = Some content ->
                          length content = 32%nat) as Hcontent
    by (intros content E; congruence).
  destruct (load_key_succeeds Hlen _ w Hcontent) as (key & w0 & Hload).
  destruct (load_key_ok Hlen _ _ _ _ Hload) as (Hkey & _ & Hframe).
  unfold init. rewrite users_init_unfold, Hload. cbv zeta. unfold exists_file.
  rewrite (Hframe (users_store_path home None))
    by (intros E; apply (users_paths_differ home); symmetry; exact E).
  rewrite Hstorefile. cbn [negb].
  set (secure := EncryptedJsonStore.init (users_store_path home None) key).
  set (store := EncryptedUserStore.Build _ secure).
  pose proof (list_users_saved store [] w0 Hjson Hblank Hb64 Hutf8 Hcipher Hkey)
    as Hlist.
  change (EncryptedUserStore.save_users store [] w0)
    with (EncryptedJsonStore.write secure EncryptedUserStore.empty_document w0)
    in Hlist.
  pose proof (init_seeds Hjson Hblank Hb64 Hutf8 Hcipher store Hkey
                [] _ _ Hlist eq_refl) as Hinit.
  cbv zeta in Hinit.
  unfold AuthService._create_user_record in Hinit. cbn [fst] in Hinit.
  rewrite Hinit.
  destruct (seeded_logins Hb64 store
              (urandom (entropy (EncryptedJsonStore.write secure
                                   EncryptedUserStore.empty_document w0)) 16)
              (urandom (entropy (draw (EncryptedJsonStore.write secure
                                   EncryptedUserStore.empty_document w0))) 16))
    as (Hadmin & _).
  eexists _, _, _. split; [reflexivity|].
  unfold _on_login, typed. cbn [username password _auth].
  rewrite Hname, Hadmin. cbn [bind]. split; [reflexivity|].
  split; reflexivity.
Qed.


Lemma attempts_outcome (inputs : list (string * string)) :
  forall dialog dialog',
    attempts dialog inputs = Ok dialog' ->
    _auth dialog' = _auth dialog
    /\ ((accepted dialog' = accepted dialog
         /\ _authenticated_user dialog' = _authenticated_user dialog)
        \/ (accepted dialog' = true
            /\ exists user username_text password_text,
                 In (username_text, password_text) inputs
                 /\ _authenticated_user dialog' = Some user
                 /\ AuthService.authenticate (_auth dialog)
                      (strip username_text) password_text
                    = Ok (Some user))).
Proof.
  induction inputs as [|[u p] inputs IH]; intros dialog dialog';
    cbn [attempts].
  - intros [= <-]. auto.
  - unfold _on_login at 1, typed. cbn [username password _auth].
    destruct (AuthService.authenticate (_auth dialog) (strip u) p)
      as [[user|]|e] eqn:Hlogin; cbn [bind]; [| |discriminate].
    + intros Hrest. destruct (IH _ _ Hrest) as [Hauth Hcases].
      cbn [_auth accepted _authenticated_user] in Hauth, Hcases.
      split; [exact Hauth|]. right.
      destruct Hcases as [[-> ->]|(-> & user' & u' & p' & Hin & -> & Hlogin')].
      * split; [reflexivity|]. exists user, u, p. cbn [In]. auto.
      * split; [reflexivity|]. exists user', u', p'. cbn [In]. auto.
    + intros Hrest. destruct (IH _ _ Hrest) as [Hauth Hcases].
      cbn [_auth accepted _authenticated_user] in Hauth, Hcases.
      split; [exact Hauth|].
      destruct Hcases as [[-> ->]|(-> & user' & u' & p' & Hin & -> & Hlogin')].
      * left. auto.
      * right. split; [reflexivity|]. exists user', u', p'. cbn [In]. auto.
Qed.

(** X23. The dialog is accepted only on credentials [authenticate]
    accepts: after any attempts at a dialog that was not accepted, if the
    dialog is accepted then [get_authenticated_user] does not fail, and the
    user it returns is the one [authenticate] returned for a typed pair,
    the username stripped of white space. *)
Theorem accepted_dialog_hands_out_a_user (dialog dialog' : LoginDialog.t)
    (inputs : list (string * string)) :
  LoginDialog.accepted dialog = false ->
  LoginDialog.attempts dialog inputs = Ok dialog' ->
  LoginDialog.accepted dialog' = true ->
  exists user username_text password_text,
    In (username_text, password_text) inputs
    /\ LoginDialog.get_authenticated_user dialog' = Some user
    /\ AuthService.authenticate (LoginDialog._auth dialog)
         (strip username_text) password_text
       = Ok (Some user).
Proof.
  intros Hfresh Hattempts Haccepted.
  destruct (attempts_outcome inputs _ _ Hattempts)
    as [_ [[Hsame _]|[_ Huser]]]; [congruence | exact Huser].
Qed.

End Login.

(** ** Round trip of the User Store, and a corrupted Evidence Store *)

Section StoresFurther.
Context `{C : Collaborators}.

Hypothesis Hjson : json_roundtrip.
Hypothesis Hblank : json_rejects_blank.
Hypothesis Hb64 : base64_roundtrip.
Hypothesis Hutf8 : utf8_roundtrip.
Hypothesis Hcipher : cipher_roundtrip.

(** X25. [list_users] returns the list [save_users] stored, in the same
    order, and changes nothing; of two [save_users] the later one is the
    one listed. *)
Theorem saved_users_are_listed (self : EncryptedUserStore.t)
    (users later : list json) (w : world) :
  length (EncryptedJsonStore._key (EncryptedUserStore._secure_store self))
  = 32%nat ->
  let w1 := EncryptedUserStore.save_users self users w in
  let w2 := EncryptedUserStore.save_users self later w1 in
  EncryptedUserStore.list_users self w1 = (Ok users, w1)
  /\ EncryptedUserStore.list_users self w2 = (Ok later, w2).
Proof.
  intros Hkey. cbv zeta. split; now apply list_users_saved.
Qed.

(** X26. An Evidence Store file whose text is not JSON reads as the empty
    list and stays as it is; [add_image] then replaces it: the store holds
    the new payload alone. *)
Theorem corrupted_evidence_store_lists_nothing (self : EvidenceStore.t)
    (image : MemoryImage) (content : bytes) (raw : string) (w : world) :
  files w !! EncryptedJsonStore._file_path (EvidenceStore._secure_store self)
  = Some content ->
  utf8_decode content = Some raw ->
  json_loads raw = None ->
  EvidenceStore.list_images self w = (Ok [], w)
  /\ exists w',
       EvidenceStore.add_image self image w = (Ok tt, w')
       /\ EvidenceStore.holds self w' [EvidenceStore.payload_of image].
Proof.
  intros Hfile Hraw Hnone.
  assert (EvidenceStore._read self w = (Ok [], w)) as Hread.
  { unfold EvidenceStore._read.
    now rewrite (read_not_json_returns_default _ content raw (JArr []) w). }
  unfold EvidenceStore.list_images, EvidenceStore.add_image. rewrite Hread.
  split; [reflexivity|]. eexists. split; [reflexivity|].
  apply holds_write.
Qed.

End StoresFurther.

(** ** Files the stores did not write: another key, plain text *)

Section ForeignAndLegacy.
Context `{C : Collaborators}.

Hypothesis Hjson : json_roundtrip.
Hypothesis Hblank : json_rejects_blank.
Hypothesis Hb64 : base64_roundtrip.
Hypothesis Hutf8 : utf8_roundtrip.
Hypothesis Hcipher : cipher_roundtrip.



(** X27. An Evidence Store file that holds an envelope sealed with
    another key, which the key of this store does not open, makes
    [list_images] raise [TypeError], on the first call and on every later
    one: the first call has stored the envelope as if it were the list. *)
Theorem foreign_evidence_store_raises (self : EvidenceStore.t)
    (other : EncryptedJsonStore.t) (document : json) (position : nat)
    (w : world) :
  length (EncryptedJsonStore._key (EvidenceStore._secure_store self)) = 32%nat ->
  let text := EncryptedJsonStore.stored_text other document position in
  files w !! EncryptedJsonStore._file_path (EvidenceStore._secure_store self)
  = Some (utf8_encode text) ->
  is_ok (EncryptedJsonStore.read_envelope (EvidenceStore._secure_store self)
           text) = false ->
  exists w',
    EvidenceStore.list_images self w = (Raise TypeError, w')
    /\ EvidenceStore.list_images self w' = (Raise TypeError, w').
Proof.
  intros Hkey text Hfile Hfail.
  set (envelope :=
         EncryptedJsonStore.envelope_of
           (fst (EncryptedJsonStore.sealed other document position))
           (snd (EncryptedJsonStore.sealed other document position))).
  assert (json_loads text = Some envelope) as Hparsed by apply Hjson.
  exists (EncryptedJsonStore.write (EvidenceStore._secure_store self)
            envelope w).
  unfold EvidenceStore.list_images, EvidenceStore._read. split.
  - rewrite (read_fallback _ (utf8_encode text) text)
      by eauto using parsed_not_blank.
    rewrite Hparsed. reflexivity.
  - rewrite (read_stored _ envelope (JArr []) (entropy w))
      by auto using files_write.
    reflexivity.
Qed.



End ForeignAndLegacy.

(* ================================================================== *)
(** * Part III. The properties on concrete inputs *)
(* ================================================================== *)

#[local] Existing Instance reference.
Import Examples.

Lemma key_has_32_bytes : length key = 32%nat.
Proof. reflexivity. Qed.



(** An [int] of 4301 digits inside the document: [json.dumps] raises and
    [write] stores nothing. *)
Example write_value_refuses_long_int :
  EncryptedJsonStore.write_value secure_store (PList [PInt (10 ^ 4300)])
    empty_world
  = (Raise int_text_error, empty_world).
Proof. vm_compute. reflexivity. Qed.


Lemma wrong_key_witness :
  let envelope :=
    EncryptedJsonStore.envelope_of
      (fst (EncryptedJsonStore.sealed other_secure_store document 0))
      (snd (EncryptedJsonStore.sealed other_secure_store document 0)) in
  is_ok (EncryptedJsonStore.read_envelope secure_store
           (EncryptedJsonStore.stored_text other_secure_store document 0))
  = false
  /\ EncryptedJsonStore.read secure_store (JArr []) foreign_world
     = (Ok envelope, EncryptedJsonStore.write secure_store envelope foreign_world).
Proof.
  assert (is_ok (EncryptedJsonStore.read_envelope secure_store
           (EncryptedJsonStore.stored_text other_secure_store document 0))
          = false) as Hfail by (vm_compute; reflexivity).
  split; [exact Hfail|].
  apply (read_wrong_key_returns_envelope secure_store other_secure_store
           document (JArr []) 0 foreign_world
           ReferenceLaws.json_roundtrips ReferenceLaws.json_blank_rejected
           ReferenceLaws.utf8_roundtrips); [|exact Hfail].
  apply (files_write other_secure_store document empty_world).
Defined.


Lemma load_key_witness :
  (* an absent key file is created with 32 bytes and read back *)
  SecretKeyManager.load_key key_manager empty_world
  = (Ok (urandom 0 32),
     draw (write_bytes (SecretKeyManager._key_path key_manager)
             (urandom 0 32) empty_world))
  (* a second call returns the same bytes and changes nothing *)
  /\ SecretKeyManager.load_key key_manager
       (snd (SecretKeyManager.load_key key_manager empty_world))
     = (Ok (urandom 0 32),
        snd (SecretKeyManager.load_key key_manager empty_world))
  (* a key file of 3 bytes is refused *)
  /\ fst (SecretKeyManager.load_key key_manager short_key_world)
     = Raise (ValueError
                "Key at /home/op/.ram_acq/keys/users.key must be exactly 32 bytes.").
Proof.
  pose proof (load_key_spec key_manager empty_world
                ReferenceLaws.urandom_has_length)
    as (_ & Habsent & _ & _ & _ & Hagain).
  pose proof (load_key_spec key_manager short_key_world
                ReferenceLaws.urandom_has_length)
    as (_ & _ & Hraise & Herror & _ & _).
  cbv zeta in *.
  destruct (Habsent eq_refl) as [Hr _].
  split; [|split].
  - vm_compute. reflexivity.
  - apply Hagain. exact Hr.
  - destruct (proj2 Hraise) as [e He].
    + exists [Byte.x01; Byte.x02; Byte.x03]. split; [reflexivity|].
      cbn. lia.
    + rewrite He. f_equal. exact (Herror e He).
Defined.

Lemma authenticate_witness :
  AuthService.authenticate service "admin" "admin123"
  = Ok (Some {| user_id := JStr "u_admin"; name := JStr "Administrator";
                role := JStr "Admin" |})
  /\ AuthService.authenticate service "admin" "letmein" = Ok None
  /\ AuthService.authenticate service "nobody" "admin123" = Ok None
  /\ AuthService.authenticate FurtherExamples.tampered_service "admin"
       "admin123" = Raise TypeError.
Proof.
  assert (dict_lookup (JStr "admin") (AuthService._records service)
          = Some admin_record) as Hrec by reflexivity.
  assert (getitem admin_record "salt" = Ok (JStr (b64encode admin_salt)))
    as Hsalt by reflexivity.
  assert (getitem admin_record "password_hash"
          = Ok (JStr (sha256_hexdigest
                        (admin_salt ++ utf8_encode "admin123"))))
    as Hhash by reflexivity.
  assert (getitem admin_record "user_id" = Ok (JStr "u_admin"))
    as Huid by reflexivity.
  assert (getitem admin_record "name" = Ok (JStr "Administrator"))
    as Hnm by reflexivity.
  assert (getitem admin_record "role" = Ok (JStr "Admin"))
    as Hrl by reflexivity.
  pose proof (fun password =>
                proj2 (authenticate_spec service "admin" password)
                  _ _ _ _ Hrec Hsalt
                  (ReferenceLaws.base64_roundtrips admin_salt)
                  Hhash) as Hstored.
  cbv zeta in Hstored.
  split; [|split; [|split]].
  - apply (proj2 (proj2 (Hstored "admin123")) _ _ _ Huid Hnm Hrl).
    reflexivity.
  - apply (proj1 (proj2 (Hstored "letmein"))); [reflexivity|].
    vm_compute. discriminate.
  - apply (proj1 (authenticate_spec service "nobody" "admin123")).
    reflexivity.
  - apply (proj1 (proj2 (authenticate_spec FurtherExamples.tampered_service
                           "admin" "admin123")
                    FurtherExamples.tampered_record _
                    FurtherExamples.e_acute admin_salt eq_refl eq_refl
                    (ReferenceLaws.base64_roundtrips admin_salt) eq_refl)).
    reflexivity.
Defined.

(** C7 as stated fails: a stored hash with a character that is not ASCII
    differs from the recomputed hash, and [authenticate] raises. *)
Lemma authenticate_non_ascii_hash_counterexample :
  getitem FurtherExamples.tampered_record "password_hash"
  = Ok (JStr FurtherExamples.e_acute)
  /\ String.eqb FurtherExamples.e_acute
       (sha256_hexdigest (admin_salt ++ utf8_encode "admin123")) = false
  /\ AuthService.authenticate FurtherExamples.tampered_service "admin"
       "admin123" = Raise TypeError.
Proof. repeat split; vm_compute; reflexivity. Qed.

Lemma refused_calls_witness :
  AuthService.upsert_user service "   " "X" "Viewer" (Some "pw") false
    seeded_world
  = (Raise (ValueError "Username is required."), (service, seeded_world))
  /\ AuthService.upsert_user service "carol" "Carol" "Viewer" None false
       seeded_world
     = (Raise (ValueError "Password is required for new users."),
        (service, seeded_world))
  /\ AuthService.delete_user service "carol" seeded_world
     = (Raise (ValueError "User 'carol' does not exist."),
        (service, seeded_world))
  /\ AuthService.delete_user service "admin" seeded_world
     = (Raise (ValueError "At least one admin account must remain."),
        (service, seeded_world)).
Proof.
  split; [|split; [|split]].
  - apply (proj1 (refused_calls_change_nothing service seeded_world
                    "   " "X" "Viewer" (Some "pw") false)).
    reflexivity.
  - apply (proj1 (proj2 (refused_calls_change_nothing service seeded_world
                           "carol" "Carol" "Viewer" None false)));
      [discriminate | reflexivity | reflexivity].
  - apply (proj1 (proj2 (proj2 (refused_calls_change_nothing service
                                  seeded_world "carol" "" "" None false)))).
    reflexivity.
  - apply (proj2 (proj2 (proj2 (refused_calls_change_nothing service
                                  seeded_world "admin" "" "" None false)))
             admin_record); reflexivity.
Defined.

Example init_seeds_defaults :
  AuthService.init user_store empty_world = (Ok service, seeded_world).
Proof. vm_compute. reflexivity. Qed.

Lemma upsert_empty_password_witness :
  exists self' w',
    AuthService.upsert_user service "investigator" "Ines" "Viewer"
      (Some EmptyString) true seeded_world = (Ok tt, (self', w'))
    /\ dict_lookup (JStr "investigator") (AuthService._records self')
       = Some (JObj [("username", JStr "investigator");
                     ("name", JStr "Ines");
                     ("role", JStr "Viewer");
                     ("user_id", JStr "u_inv");
                     ("salt", JStr (b64encode investigator_salt));
                     ("password_hash",
                      JStr (sha256_hexdigest
                              (investigator_salt ++ utf8_encode "invest123")));
                     ("full_access", JBool true)]).
Proof.
  apply (proj2 (upsert_empty_password service "investigator" "Ines" "Viewer"
                  true seeded_world)
           investigator_record (JStr "u_inv")
           (JStr (sha256_hexdigest
                    (investigator_salt ++ utf8_encode "invest123")))
           investigator_salt ReferenceLaws.base64_roundtrips);
    [discriminate | reflexivity | reflexivity | reflexivity | reflexivity].
Defined.

(** C9 as stated fails: with an empty new name the stored name becomes the
    username, not the new value. *)
Lemma upsert_empty_name_counterexample :
  let after :=
    AuthService.upsert_user service "investigator" EmptyString "Viewer"
      (Some EmptyString) false seeded_world in
  fst after = Ok tt
  /\ (do record <- orelse (dict_lookup (JStr "investigator")
                             (AuthService._records (fst (snd after))))
                     (KeyError "investigator") ;;
      getitem record "name") = Ok (JStr "investigator")
  /\ JStr "investigator" <> JStr EmptyString.
Proof.
  cbv zeta. split; [|split].
  - vm_compute. reflexivity.
  - vm_compute. reflexivity.
  - discriminate.
Qed.

Lemma upsert_user_demotes_last_admin_witness :
  AuthService.admin_count (dict_values (AuthService._records service))
  = Ok 1%nat
  /\ exists self' w',
       AuthService.upsert_user service "admin" "Administrator" "Viewer"
         None true seeded_world = (Ok tt, (self', w'))
       /\ AuthService.admin_count
            (dict_values (AuthService._records self')) = Ok 0%nat.
Proof.
  split; [reflexivity|].
  apply (upsert_user_demotes_last_admin service "admin" "Administrator"
           "Viewer" true seeded_world admin_record (JStr "u_admin")
           (JStr (sha256_hexdigest (admin_salt ++ utf8_encode "admin123")))
           (b64encode admin_salt) admin_salt);
    try reflexivity; discriminate.
Defined.

Example demoted_service_has_no_admin :
  let after :=
    AuthService.upsert_user service "admin" "Administrator" "Viewer"
      None true seeded_world in
  fst after = Ok tt
  /\ AuthService.admin_count
       (dict_values (AuthService._records (fst (snd after)))) = Ok 0%nat
  /\ EncryptedUserStore.list_users user_store (snd (snd after))
     = (Ok (dict_values (AuthService._records (fst (snd after)))),
        snd (snd after)).
Proof. cbv zeta. repeat split; vm_compute; reflexivity. Qed.

Lemma unnamed_records_witness :
  (forall (self : AuthService.t) (entries : list json) (w w1 : world),
      EncryptedUserStore.list_users (AuthService._user_store self) w
        = (Ok entries, w1) ->
      Forall AuthService.entry_ok entries ->
      exists records,
        AuthService._load_users self w = (Ok records, w1)
        /\ Forall AuthService.named (dict_values records))
  /\ (forall (w w' : world) (s : AuthService.t),
        AuthService.init user_store w = (Ok s, w') ->
        AuthService._user_store s = user_store
        /\ Forall AuthService.named (dict_values (AuthService._records s)))
  /\ (forall (s : AuthService.t) (entry : json),
        Forall AuthService.named (dict_values (AuthService._records s)) ->
        AuthService.unnamed entry ->
        ~ In entry (AuthService.list_users s)
        /\ (forall u, dict_lookup (JStr u) (AuthService._records s)
                      <> Some entry))
  /\ (forall (s s' : AuthService.t) (w w' : world),
        AuthService._user_store s = user_store ->
        Forall AuthService.named (dict_values (AuthService._records s)) ->
        (exists u nm rl pw fa,
            AuthService.upsert_user s u nm rl pw fa w = (Ok tt, (s', w')))
        \/ (exists u, AuthService.delete_user s u w = (Ok tt, (s', w'))) ->
        AuthService._user_store s' = user_store
        /\ Forall AuthService.named (dict_values (AuthService._records s'))
        /\ EncryptedUserStore.list_users user_store w'
           = (Ok (dict_values (AuthService._records s')), w')).
Proof.
  apply (unnamed_records_are_dropped user_store
           ReferenceLaws.json_roundtrips ReferenceLaws.json_blank_rejected
           ReferenceLaws.base64_roundtrips ReferenceLaws.utf8_roundtrips
           ReferenceLaws.cipher_roundtrips key_has_32_bytes).
Defined.

(** The User Store holds [ghost], the admin and [blank]: the service built
    on it knows the admin only, and after one [upsert_user] the store holds
    the records of the mapping and neither of the two entries. *)
Example haunted_store_is_cleaned :
  fst (EncryptedUserStore.list_users user_store haunted_world)
  = Ok [ghost; admin_record; blank]
  /\ (do s <- fst (AuthService.init user_store haunted_world) ;;
      Ok (AuthService.list_users s)) = Ok [admin_record]
  /\ (do s <- fst (AuthService.init user_store haunted_world) ;;
      let after :=
        AuthService.upsert_user s "admin" "Root" "Admin" None true
          (snd (AuthService.init user_store haunted_world)) in
      do users <- fst (EncryptedUserStore.list_users user_store
                         (snd (snd after))) ;;
      Ok (map (fun r => getitem r "name") users))
     = Ok [Ok (JStr "Root")].
Proof. repeat split; vm_compute; reflexivity. Qed.

Lemma list_images_reads_without_lock_witness :
  let c := EvidenceStore.run evidence_store [0%nat] writer_and_reader in
  EvidenceStore.threads c !! 1%nat = Some EvidenceStore.ListStart
  /\ EvidenceStore.lock c = Some 0%nat
  /\ exists c',
       EvidenceStore.step evidence_store 1 c = Some c'
       /\ EvidenceStore.lock c' = Some 0%nat
       /\ EvidenceStore.shared c'
          = snd (EvidenceStore._read evidence_store (EvidenceStore.shared c))
       /\ EvidenceStore.threads c' !! 1%nat
          = Some (match fst (EvidenceStore._read evidence_store
                               (EvidenceStore.shared c)) with
                  | Ok data => EvidenceStore.ListRead data
                  | Raise e => EvidenceStore.Raised e
                  end).
Proof.
  cbv zeta. split; [reflexivity|]. split; [reflexivity|].
  apply (list_images_reads_without_lock evidence_store
           (EvidenceStore.run evidence_store [0%nat] writer_and_reader)
           1 0); reflexivity.
Defined.

(** The caller of [add_image] holds the lock and has not written yet;
    the caller of [list_images] has read the file. *)
Example reader_runs_inside_the_critical_section :
  let c := EvidenceStore.run evidence_store [0; 1]%nat writer_and_reader in
  EvidenceStore.lock c = Some 0%nat
  /\ EvidenceStore.threads c
     = [EvidenceStore.AddLocked (EvidenceStore.payload_of (image 1048576));
        EvidenceStore.ListRead []].
Proof. cbv zeta. split; vm_compute; reflexivity. Qed.

Lemma evidence_world_holds_nothing :
  EvidenceStore.holds evidence_store evidence_world [].
Proof. exists 0%nat. vm_compute. reflexivity. Qed.

Lemma concurrent_add_image_witness :
  let c := EvidenceStore.run evidence_store interleaving callers in
  exists data,
    EvidenceStore._read evidence_store (EvidenceStore.shared c)
      = (Ok data, EvidenceStore.shared c)
    /\ data ≡ₚ [] ++ payloads
    /\ length data = (length (@nil json) + length payloads)%nat
    /\ Forall (fun th => th = EvidenceStore.Returned None)
         (EvidenceStore.threads c).
Proof.
  apply (concurrent_add_image
           ReferenceLaws.json_roundtrips ReferenceLaws.json_blank_rejected
           ReferenceLaws.base64_roundtrips ReferenceLaws.utf8_roundtrips
           ReferenceLaws.cipher_roundtrips evidence_store key_has_32_bytes
           [] payloads evidence_world interleaving
           evidence_world_holds_nothing).
  vm_compute. repeat constructor.
Defined.

Example interleaving_appends_in_lock_order :
  fst (EvidenceStore._read evidence_store
         (EvidenceStore.shared
            (EvidenceStore.run evidence_store interleaving callers)))
  = Ok [EvidenceStore.payload_of (image 2097152);
        EvidenceStore.payload_of (image 3145728);
        EvidenceStore.payload_of (image 1048576)].
Proof. vm_compute. reflexivity. Qed.

Example read_not_utf8_example :
  EncryptedJsonStore.read secure_store (JArr []) binary_world
  = (Raise UnicodeDecodeError, binary_world).
Proof. vm_compute. reflexivity. Qed.

Example list_images_after_wrong_key :
  fst (EvidenceStore.list_images evidence_store foreign_world)
  = Raise TypeError.
Proof. vm_compute. reflexivity. Qed.

Example end_to_end :
  let w := EvidenceStore._write evidence_store [] empty_world in
  let w' := snd (EvidenceStore.add_image evidence_store (image 1048576) w) in
  fst (EvidenceStore.list_images evidence_store w')
  = Ok [image 1048576].
Proof. vm_compute. reflexivity. Qed.

(** ** The further properties on concrete inputs *)

Import FurtherExamples.

Lemma store_touches_only_its_file_witness :
  files (EncryptedJsonStore.write secure_store document legacy_world)
    !! users_path
  = files legacy_world !! users_path
  /\ files (snd (EncryptedJsonStore.read secure_store JNull legacy_world))
       !! users_path
     = files legacy_world !! users_path
  /\ (snd (EncryptedJsonStore.read secure_store JNull legacy_world)
      = legacy_world
      \/ exists legacy,
           EncryptedJsonStore.read secure_store JNull legacy_world
           = (Ok legacy, EncryptedJsonStore.write secure_store legacy
                           legacy_world)).
Proof.
  apply (store_touches_only_its_file secure_store document JNull legacy_world
           users_path).
  discriminate.
Defined.

Lemma stores_do_not_interfere_witness :
  fst (EncryptedJsonStore.read secure_store (JArr [])
         (EncryptedJsonStore.write users_secure_store users_document
            evidence_world))
  = fst (EncryptedJsonStore.read secure_store (JArr []) evidence_world)
  /\ fst (EncryptedJsonStore.read secure_store (JArr [])
            (snd (EncryptedJsonStore.read users_secure_store JNull
                    evidence_world)))
     = fst (EncryptedJsonStore.read secure_store (JArr []) evidence_world).
Proof.
  apply (stores_do_not_interfere secure_store users_secure_store
           users_document (JArr []) JNull evidence_world).
  discriminate.
Defined.

Lemma evidence_store_starts_empty_witness :
  exists self w',
    EvidenceStore.init home None empty_world = (Ok self, w')
    /\ EvidenceStore._db_path self = evidence_db_path home None
    /\ files w' !! evidence_key_path home
       = Some (EncryptedJsonStore._key (EvidenceStore._secure_store self))
    /\ EvidenceStore.list_images self w' = (Ok [], w')
    /\ (forall q, q <> evidence_key_path home ->
                  q <> evidence_db_path home None ->
                  files w' !! q = files empty_world !! q).
Proof.
  apply (evidence_store_starts_empty
           ReferenceLaws.json_roundtrips ReferenceLaws.json_blank_rejected
           ReferenceLaws.base64_roundtrips ReferenceLaws.utf8_roundtrips
           ReferenceLaws.cipher_roundtrips ReferenceLaws.urandom_has_length
           home None empty_world).
  - apply evidence_paths_differ.
  - intros content E. vm_compute in E. discriminate E.
  - reflexivity.
Defined.

Lemma user_store_starts_empty_witness :
  exists self w',
    EncryptedUserStore.init home None empty_world = (Ok self, w')
    /\ EncryptedUserStore._store_path self = users_store_path home None
    /\ files w' !! users_key_path home
       = Some (EncryptedJsonStore._key (EncryptedUserStore._secure_store self))
    /\ EncryptedUserStore.list_users self w' = (Ok [], w')
    /\ (forall q, q <> users_key_path home ->
                  q <> users_store_path home None ->
                  files w' !! q = files empty_world !! q).
Proof.
  apply (user_store_starts_empty
           ReferenceLaws.json_roundtrips ReferenceLaws.json_blank_rejected
           ReferenceLaws.base64_roundtrips ReferenceLaws.utf8_roundtrips
           ReferenceLaws.cipher_roundtrips ReferenceLaws.urandom_has_length
           home None empty_world).
  - apply users_paths_differ.
  - intros content E. vm_compute in E. discriminate E.
  - reflexivity.
Defined.

Lemma short_key_stops_construction_witness :
  EvidenceStore.init home None short_keys_world
  = (Raise (ValueError ("Key at " +:+ evidence_key_path home
                        +:+ " must be exactly 32 bytes.")), short_keys_world)
  /\ EncryptedUserStore.init home None short_keys_world
     = (Raise (ValueError ("Key at " +:+ users_key_path home
                           +:+ " must be exactly 32 bytes.")),
        short_keys_world).
Proof.
  assert (length [Byte.x01; Byte.x02; Byte.x03] <> 32%nat) as Hshort
    by discriminate.
  destruct (short_key_stops_construction home None None short_keys_world
              [Byte.x01; Byte.x02; Byte.x03] Hshort) as [Hevidence Husers].
  split; [apply Hevidence | apply Husers]; vm_compute; reflexivity.
Defined.

Lemma opened_store_key_has_32_bytes :
  length (EncryptedJsonStore._key (EvidenceStore._secure_store opened_store))
  = 32%nat.
Proof. reflexivity. Qed.

Lemma reopened_store_keeps_images_witness :
  EvidenceStore.init home None empty_world = (Ok opened_store, opened_world)
  /\ exists w2,
       EvidenceStore.add_image opened_store (image 1048576) opened_world
       = (Ok tt, w2)
       /\ EvidenceStore.init home None w2 = (Ok opened_store, w2)
       /\ EvidenceStore._read opened_store w2
          = (Ok ([] ++ [EvidenceStore.payload_of (image 1048576)]), w2).
Proof.
  assert (EvidenceStore.init home None empty_world
          = (Ok opened_store, opened_world)) as Hinit
    by (vm_compute; reflexivity).
  assert (EvidenceStore.holds opened_store opened_world []) as Hholds
    by (exists 1%nat; vm_compute; reflexivity).
  split; [exact Hinit|].
  exact (reopened_store_keeps_images
           ReferenceLaws.json_roundtrips ReferenceLaws.json_blank_rejected
           ReferenceLaws.base64_roundtrips ReferenceLaws.utf8_roundtrips
           ReferenceLaws.cipher_roundtrips ReferenceLaws.urandom_has_length
           home None empty_world opened_world opened_store []
           (image 1048576) (evidence_paths_differ home) Hinit Hholds).
Defined.

Lemma to_models_inverts_payloads_witness :
  EvidenceStore.to_models
    (map EvidenceStore.payload_of [image 1048576; image 2097152])
  = Ok [image 1048576; image 2097152].
Proof.
  apply to_models_inverts_payloads.
  repeat constructor; eexists; reflexivity.
Defined.

Lemma add_image_appends_witness :
  EvidenceStore.holds evidence_store evidence_world []
  /\ EvidenceStore.list_images evidence_store evidence_world
     = (Ok [], evidence_world)
  /\ exists w',
       EvidenceStore.add_image evidence_store (image 1048576) evidence_world
       = (Ok tt, w')
       /\ EvidenceStore.holds evidence_store w'
            ([] ++ [EvidenceStore.payload_of (image 1048576)])
       /\ EvidenceStore.list_images evidence_store w'
          = (Ok ([] ++ [image 1048576]), w').
Proof.
  assert (EvidenceStore.list_images evidence_store evidence_world
          = (Ok [], evidence_world)) as Hlist
    by (vm_compute; reflexivity).
  split; [exact evidence_world_holds_nothing|]. split; [exact Hlist|].
  exact (add_image_appends
           ReferenceLaws.json_roundtrips ReferenceLaws.json_blank_rejected
           ReferenceLaws.base64_roundtrips ReferenceLaws.utf8_roundtrips
           ReferenceLaws.cipher_roundtrips evidence_store key_has_32_bytes
           (image 1048576) 1048576 [] [] evidence_world eq_refl eq_refl
           evidence_world_holds_nothing Hlist).
Defined.

Lemma clear_empties_any_store_witness :
  let w1 := EvidenceStore.clear evidence_store binary_world in
  EvidenceStore.list_images evidence_store w1 = (Ok [], w1)
  /\ exists w2,
       EvidenceStore.add_image evidence_store (image 1048576) w1 = (Ok tt, w2)
       /\ EvidenceStore.list_images evidence_store w2
          = (Ok [image 1048576], w2).
Proof.
  exact (clear_empties_any_store
           ReferenceLaws.json_roundtrips ReferenceLaws.json_blank_rejected
           ReferenceLaws.base64_roundtrips ReferenceLaws.utf8_roundtrips
           ReferenceLaws.cipher_roundtrips evidence_store key_has_32_bytes
           (image 1048576) 1048576 binary_world eq_refl eq_refl).
Defined.

Lemma add_image_callers_never_deadlock_witness :
  let c := EvidenceStore.run evidence_store [1; 0; 1]%nat callers in
  EvidenceStore.lock c = Some 1%nat
  /\ exists i c', EvidenceStore.step evidence_store i c = Some c'.
Proof.
  cbv zeta. split; [vm_compute; reflexivity|].
  apply (add_image_callers_never_deadlock
           ReferenceLaws.json_roundtrips ReferenceLaws.json_blank_rejected
           ReferenceLaws.base64_roundtrips ReferenceLaws.utf8_roundtrips
           ReferenceLaws.cipher_roundtrips evidence_store key_has_32_bytes
           [] payloads evidence_world [1; 0; 1]%nat
           evidence_world_holds_nothing).
  exists 0%nat,
    (EvidenceStore.AddStart (EvidenceStore.payload_of (image 1048576))).
  split; vm_compute; reflexivity.
Defined.

Lemma add_image_mutual_exclusion_witness :
  let c := EvidenceStore.run evidence_store [1; 0; 1]%nat callers in
  EvidenceStore.threads c !! 1%nat
  = Some (EvidenceStore.AddRead
            (EvidenceStore.payload_of (image 2097152)) [])
  /\ 1%nat = 1%nat /\ EvidenceStore.lock c = Some 1%nat.
Proof.
  cbv zeta.
  assert (EvidenceStore.threads
            (EvidenceStore.run evidence_store [1; 0; 1]%nat callers) !! 1%nat
          = Some (EvidenceStore.AddRead
                    (EvidenceStore.payload_of (image 2097152)) []))
    as Hthread by (vm_compute; reflexivity).
  split; [exact Hthread|].
  exact (add_image_mutual_exclusion
           ReferenceLaws.json_roundtrips ReferenceLaws.json_blank_rejected
           ReferenceLaws.base64_roundtrips ReferenceLaws.utf8_roundtrips
           ReferenceLaws.cipher_roundtrips evidence_store key_has_32_bytes
           [] payloads evidence_world [1; 0; 1]%nat 1%nat 1%nat _ _
           evidence_world_holds_nothing Hthread eq_refl Hthread eq_refl).
Defined.

Lemma upsert_carol :
  AuthService.upsert_user service "carol" "Carol" "Viewer" (Some "pw") false
    seeded_world
  = (Ok tt, with_carol).
Proof. vm_compute. reflexivity. Qed.

Lemma delete_investigator :
  AuthService.delete_user service "investigator" seeded_world
  = (Ok tt, without_investigator).
Proof. vm_compute. reflexivity. Qed.

Lemma service_is_consistent : consistent (AuthService._records service).
Proof.
  split.
  - cbn. auto.
  - repeat constructor; cbn [fst snd]; eexists; (split; [reflexivity|]);
      (split; [discriminate | reflexivity]).
Qed.

Lemma upsert_then_authenticate_witness :
  (exists uid,
     AuthService.authenticate (fst with_carol) (strip "carol") "pw"
     = Ok (Some {| user_id := uid;
                   name := JStr (AuthService.name_or "Carol" (strip "carol"));
                   role := JStr "Viewer" |}))
  /\ AuthService.authenticate (fst with_carol) "admin" "admin123"
     = AuthService.authenticate service "admin" "admin123".
Proof.
  assert ("pw" <> EmptyString) as Hp by discriminate.
  destruct (upsert_then_authenticate service (fst with_carol)
              "carol" "Carol" "Viewer" "pw" false seeded_world
              (snd with_carol) ReferenceLaws.base64_roundtrips Hp
              upsert_carol) as [Hlogin Hothers].
  split; [exact Hlogin|]. apply Hothers. discriminate.
Defined.

Lemma upsert_without_password_keeps_login_witness :
  AuthService.authenticate service (strip "investigator") "invest123"
  = Ok (Some {| user_id := JStr "u_inv"; name := JStr "Investigator";
                role := JStr "Investigator" |})
  /\ exists s' w',
       AuthService.upsert_user service "investigator" "Ines" "Viewer" None
         true seeded_world
       = (Ok tt, (s', w'))
       /\ AuthService.authenticate s' (strip "investigator") "invest123"
          = Ok (Some {| user_id := JStr "u_inv";
                        name := JStr (AuthService.name_or "Ines"
                                        (strip "investigator"));
                        role := JStr "Viewer" |}).
Proof.
  assert (AuthService.authenticate service (strip "investigator") "invest123"
          = Ok (Some {| user_id := JStr "u_inv"; name := JStr "Investigator";
                        role := JStr "Investigator" |})) as Hlogin
    by (vm_compute; reflexivity).
  assert (strip "investigator" <> EmptyString) as Hname by discriminate.
  split; [exact Hlogin|].
  exact (upsert_without_password_keeps_login service "investigator" "Ines"
           "Viewer" "invest123" None true seeded_world _
           ReferenceLaws.base64_roundtrips Hname eq_refl Hlogin).
Defined.

Lemma delete_user_removes_only_the_user_witness :
  AuthService.authenticate (fst without_investigator) "investigator"
    "invest123" = Ok None
  /\ AuthService.authenticate (fst without_investigator) "admin" "admin123"
     = AuthService.authenticate service "admin" "admin123".
Proof.
  destruct (delete_user_removes_only_the_user service
              (fst without_investigator) "investigator" seeded_world
              (snd without_investigator) (proj1 service_is_consistent)
              delete_investigator) as [Hgone Hothers].
  split; [apply Hgone | apply Hothers; discriminate].
Defined.

Lemma delete_user_guard_witness :
  AuthService.delete_user service "admin" seeded_world
  = (Raise (ValueError "At least one admin account must remain."),
     (service, seeded_world))
  /\ exists s' w',
       AuthService.delete_user service "investigator" seeded_world
       = (Ok tt, (s', w'))
       /\ AuthService.admin_count (dict_values (AuthService._records s'))
          = Ok (1 - 0)%nat
       /\ (1 <= 1 -> 1 <= 1 - 0)%nat.
Proof.
  assert (AuthService.admin_count
            (dict_values (AuthService._records service)) = Ok 1%nat)
    as Hcount by (vm_compute; reflexivity).
  split.
  - apply (delete_user_guard service "admin" seeded_world admin_record
             true 1); [reflexivity | vm_compute; reflexivity | exact Hcount].
  - apply (delete_user_guard service "investigator" seeded_world
             investigator_record false 1);
      [reflexivity | vm_compute; reflexivity | exact Hcount].
Defined.

Lemma records_stay_consistent_witness :
  consistent (AuthService._records (fst with_carol))
  /\ consistent (AuthService._records (fst without_investigator)).
Proof.
  destruct (records_stay_consistent service service_is_consistent)
    as [Hupsert Hdelete].
  split.
  - exact (Hupsert _ _ _ _ _ _ _ _ upsert_carol).
  - exact (Hdelete _ _ _ _ delete_investigator).
Defined.

Lemma mutations_survive_restart_witness :
  AuthService.init user_store (snd with_carol)
  = (Ok (fst with_carol), snd with_carol)
  /\ AuthService.init user_store (snd without_investigator)
     = (Ok (fst without_investigator), snd without_investigator).
Proof.
  destruct (mutations_survive_restart service
              ReferenceLaws.json_roundtrips ReferenceLaws.json_blank_rejected
              ReferenceLaws.base64_roundtrips ReferenceLaws.utf8_roundtrips
              ReferenceLaws.cipher_roundtrips key_has_32_bytes
              service_is_consistent)
    as [Hupsert Hdelete].
  split.
  - exact (Hupsert _ _ _ _ _ _ _ _ upsert_carol).
  - apply (Hdelete _ _ _ _ delete_investigator). discriminate.
Defined.

Lemma init_seeds_default_accounts_witness :
  EncryptedUserStore.list_users user_store empty_world = (Ok [], empty_world)
  /\ exists s w',
       AuthService.init user_store empty_world = (Ok s, w')
       /\ map fst (AuthService._records s)
          = [JStr "admin"; JStr "investigator"]
       /\ AuthService.authenticate s "admin" "admin123"
          = Ok (Some {| user_id := JStr "u_admin";
                        name := JStr "Administrator";
                        role := JStr "Admin" |})
       /\ AuthService.authenticate s "investigator" "invest123"
          = Ok (Some {| user_id := JStr "u_inv"; name := JStr "Investigator";
                        role := JStr "Investigator" |})
       /\ AuthService.admin_count (AuthService.list_users s) = Ok 1%nat
       /\ EncryptedUserStore.list_users user_store w'
          = (Ok (AuthService.list_users s), w').
Proof.
  assert (EncryptedUserStore.list_users user_store empty_world
          = (Ok [], empty_world)) as Hlist by (vm_compute; reflexivity).
  split; [exact Hlist|].
  exact (init_seeds_default_accounts
           ReferenceLaws.json_roundtrips ReferenceLaws.json_blank_rejected
           ReferenceLaws.base64_roundtrips ReferenceLaws.utf8_roundtrips
           ReferenceLaws.cipher_roundtrips user_store key_has_32_bytes
           [] empty_world empty_world Hlist eq_refl).
Defined.

Lemma init_builds_consistent_records_witness :
  let s := {| AuthService._user_store := user_store;
              AuthService._records := [(JStr "admin", admin_record)] |} in
  EncryptedUserStore.list_users user_store haunted_world
  = (Ok [ghost; admin_record; blank], haunted_world)
  /\ AuthService.init user_store haunted_world = (Ok s, haunted_world)
  /\ consistent (AuthService._records s).
Proof.
  assert (EncryptedUserStore.list_users user_store haunted_world
          = (Ok [ghost; admin_record; blank], haunted_world)) as Hlist
    by (vm_compute; reflexivity).
  assert (Forall str_named [ghost; admin_record; blank]) as Hentries.
  { repeat constructor; eexists; (split; [reflexivity|]);
      cbn; intros k [= <-]; eauto; discriminate. }
  assert (AuthService.init user_store haunted_world
          = (Ok {| AuthService._user_store := user_store;
                   AuthService._records := [(JStr "admin", admin_record)] |},
             haunted_world)) as Hinit by (vm_compute; reflexivity).
  cbv zeta. split; [exact Hlist|]. split; [exact Hinit|].
  exact (init_builds_consistent_records
           ReferenceLaws.json_roundtrips ReferenceLaws.json_blank_rejected
           ReferenceLaws.base64_roundtrips ReferenceLaws.utf8_roundtrips
           ReferenceLaws.cipher_roundtrips user_store key_has_32_bytes
           _ haunted_world haunted_world haunted_world _
           Hlist Hentries Hinit).
Defined.

Lemma foreign_user_store_is_reseeded_witness :
  is_ok (EncryptedJsonStore.read_envelope
           (EncryptedUserStore._secure_store user_store)
           (EncryptedJsonStore.stored_text foreign_users_store
              users_document 0)) = false
  /\ exists s w',
       AuthService.init user_store foreign_users_world = (Ok s, w')
       /\ map fst (AuthService._records s)
          = [JStr "admin"; JStr "investigator"]
       /\ AuthService.authenticate s "admin" "admin123"
          = Ok (Some {| user_id := JStr "u_admin";
                        name := JStr "Administrator";
                        role := JStr "Admin" |})
       /\ EncryptedUserStore.list_users user_store w'
          = (Ok (AuthService.list_users s), w').
Proof.
  assert (is_ok (EncryptedJsonStore.read_envelope
                   (EncryptedUserStore._secure_store user_store)
                   (EncryptedJsonStore.stored_text foreign_users_store
                      users_document 0)) = false) as Hfail
    by (vm_compute; reflexivity).
  assert (files foreign_users_world
            !! EncryptedJsonStore._file_path
                 (EncryptedUserStore._secure_store user_store)
          = Some (utf8_encode
                    (EncryptedJsonStore.stored_text foreign_users_store
                       users_document 0))) as Hfile
    by (vm_compute; reflexivity).
  split; [exact Hfail|].
  exact (foreign_user_store_is_reseeded
           ReferenceLaws.json_roundtrips ReferenceLaws.json_blank_rejected
           ReferenceLaws.base64_roundtrips ReferenceLaws.utf8_roundtrips
           ReferenceLaws.cipher_roundtrips user_store key_has_32_bytes
           foreign_users_store users_document 0 foreign_users_world
           Hfile Hfail).
Defined.

Lemma first_run_login_witness :
  exists dialog w' dialog',
    LoginDialog.init home empty_world = (Ok dialog, w')
    /\ LoginDialog._on_login
         (LoginDialog.typed dialog " admin " "admin123") = Ok dialog'
    /\ LoginDialog.accepted dialog' = true
    /\ LoginDialog.get_authenticated_user dialog' = Some administrator.
Proof.
  apply (first_run_login home " admin " empty_world
           ReferenceLaws.json_roundtrips ReferenceLaws.json_blank_rejected
           ReferenceLaws.base64_roundtrips ReferenceLaws.utf8_roundtrips
           ReferenceLaws.cipher_roundtrips ReferenceLaws.urandom_has_length);
    reflexivity.
Defined.

Lemma accepted_dialog_hands_out_a_user_witness :
  LoginDialog.accepted dialog = false
  /\ (exists dialog',
        LoginDialog.attempts dialog two_attempts = Ok dialog'
        /\ LoginDialog.accepted dialog' = true
        /\ LoginDialog.error_label dialog' = "Invalid credentials"
        /\ exists user username_text password_text,
             In (username_text, password_text) two_attempts
             /\ LoginDialog.get_authenticated_user dialog' = Some user
             /\ AuthService.authenticate (LoginDialog._auth dialog)
                  (strip username_text) password_text
                = Ok (Some user)).
Proof.
  split; [reflexivity|].
  destruct (LoginDialog.attempts dialog two_attempts) as [dialog'|e]
    eqn:Hattempts; [|vm_compute in Hattempts; discriminate Hattempts].
  assert (LoginDialog.accepted dialog' = true) as Haccepted
    by (vm_compute in Hattempts; injection Hattempts as <-; reflexivity).
  exists dialog'. split; [reflexivity|]. split; [exact Haccepted|].
  split; [vm_compute in Hattempts; injection Hattempts as <-; reflexivity|].
  exact (accepted_dialog_hands_out_a_user dialog dialog' two_attempts
           eq_refl Hattempts Haccepted).
Defined.

Lemma saved_users_are_listed_witness :
  let w1 := EncryptedUserStore.save_users user_store [admin_record]
              empty_world in
  let w2 := EncryptedUserStore.save_users user_store
              [admin_record; investigator_record] w1 in
  EncryptedUserStore.list_users user_store w1 = (Ok [admin_record], w1)
  /\ EncryptedUserStore.list_users user_store w2
     = (Ok [admin_record; investigator_record], w2).
Proof.
  exact (saved_users_are_listed
           ReferenceLaws.json_roundtrips ReferenceLaws.json_blank_rejected
           ReferenceLaws.base64_roundtrips ReferenceLaws.utf8_roundtrips
           ReferenceLaws.cipher_roundtrips user_store [admin_record]
           [admin_record; investigator_record] empty_world key_has_32_bytes).
Defined.

Lemma corrupted_evidence_store_lists_nothing_witness :
  json_loads "not json" = None
  /\ EvidenceStore.list_images evidence_store garbled_world
     = (Ok [], garbled_world)
  /\ exists w',
       EvidenceStore.add_image evidence_store (image 1048576) garbled_world
       = (Ok tt, w')
       /\ EvidenceStore.holds evidence_store w'
            [EvidenceStore.payload_of (image 1048576)].
Proof.
  assert (json_loads "not json" = None) as Hnone by (vm_compute; reflexivity).
  split; [exact Hnone|].
  apply (corrupted_evidence_store_lists_nothing evidence_store
           (image 1048576) garbled "not json" garbled_world);
    [vm_compute; reflexivity | vm_compute; reflexivity | exact Hnone].
Defined.

Lemma foreign_evidence_store_raises_witness :
  is_ok (EncryptedJsonStore.read_envelope secure_store
           (EncryptedJsonStore.stored_text other_secure_store document 0))
  = false
  /\ exists w',
       EvidenceStore.list_images evidence_store foreign_world
       = (Raise TypeError, w')
       /\ EvidenceStore.list_images evidence_store w' = (Raise TypeError, w').
Proof.
  assert (is_ok (EncryptedJsonStore.read_envelope secure_store
                   (EncryptedJsonStore.stored_text other_secure_store
                      document 0)) = false) as Hfail
    by (vm_compute; reflexivity).
  assert (files foreign_world !! evidence_path
          = Some (utf8_encode
                    (EncryptedJsonStore.stored_text other_secure_store
                       document 0))) as Hfile
    by (vm_compute; reflexivity).
  split; [exact Hfail|].
  exact (foreign_evidence_store_raises
           ReferenceLaws.json_roundtrips ReferenceLaws.json_blank_rejected
           ReferenceLaws.base64_roundtrips ReferenceLaws.utf8_roundtrips
           ReferenceLaws.cipher_roundtrips evidence_store other_secure_store
           document 0 foreign_world key_has_32_bytes Hfile Hfail).
Defined.



Lemma undecodable_file_stops_every_reader_witness :
  utf8_decode [Byte.xff; Byte.xfe] = None
  /\ EncryptedJsonStore.read secure_store (JArr []) binary_world
     = (Raise UnicodeDecodeError, binary_world)
  /\ EvidenceStore.list_images evidence_store binary_world
     = (Raise UnicodeDecodeError, binary_world)
  /\ EvidenceStore.add_image evidence_store (image 1048576) binary_world
     = (Raise UnicodeDecodeError, binary_world).
Proof.
  assert (utf8_decode [Byte.xff; Byte.xfe] = None) as Hraw by reflexivity.
  destruct (undecodable_file_stops_every_reader secure_store
              [Byte.xff; Byte.xfe] binary_world eq_refl Hraw)
    as (Hread & Hevidence & _).
  split; [exact Hraw|]. split; [apply Hread|].
  apply (Hevidence evidence_store (image 1048576) eq_refl).
Defined.
